(** * Bully election over MPI: a shallow embedding of the peer, its
      transport and its failure models

    The development follows the C++ sources file by file:
    - [failure.hpp]: [mix_seed], the [Failure] hierarchy ([NoFailure],
      [NetworkFailure], [CrashFailure]) and [make_failure];
    - [messages.hpp]: [MsgType], [Message], [StateReport];
    - [logger.hpp]: [MessageEvent], [MessageBuffer];
    - [node.hpp]: [NodeConfig] and the class [Node];
    - [main.cpp]: the body of the worker loop.

    Conventions.  A C++ [int]/[int32_t] is a [Z]; the code never relies on
    signed wrap-around (it is undefined behaviour in C++), so the embedding
    of the peer describes the executions in which no signed overflow occurs.
    The layout loop of the controller multiplies counts it received by the
    size of an event: there the reduction to 32 bits is written out.  The
    [uint64_t] arithmetic of [mix_seed] is written with its reduction
    modulo 2^64.  A [double] probability is an exact rational [Q]: only
    comparisons and one product are performed on them.  The standard
    library's random engine and distributions are not part of the
    repository; they are taken as an interface ([StdRandom]).  The two
    effects of a peer, [MPI_Send] and printing on [std::cout], are recorded
    in two trace fields of the peer's state. *)

From Stdlib Require Import ZArith QArith Bool List Lia.
From stdpp Require Import base tactics list list_numbers strings pretty.

Open Scope Z_scope.

(** ** failure.hpp: seed mixing *)

Definition uint64 (x : Z) : Z := x mod 2 ^ 64.

Definition mix_seed (base id : Z) : Z :=
  let x := Z.lxor base (uint64 (id + 0x9e3779b97f4a7c15)) in
  let x := Z.lxor x (Z.shiftr x 30) in
  let x := uint64 (x * 0xbf58476d1ce4e5b9) in
  let x := Z.lxor x (Z.shiftr x 27) in
  let x := uint64 (x * 0x94d049bb133111eb) in
  let x := Z.lxor x (Z.shiftr x 31) in
  x.

(** ** messages.hpp *)

Inductive MsgType : Set :=
  | HEARTBEAT | ELECTION | OK | COORDINATOR | PING | ACK | STATE_REPORT.

(** The enumerators' values, [static_cast<int32_t>(t)]. *)
Definition MsgType_to_int (t : MsgType) : Z :=
  match t with
  | HEARTBEAT => 1 | ELECTION => 2 | OK => 3 | COORDINATOR => 4
  | PING => 5 | ACK => 6 | STATE_REPORT => 7
  end.

(** [static_cast<MsgType>(i)] followed by a [switch]: the enumerator a
    [case] label matches, if any. *)
Definition MsgType_of_int (i : Z) : option MsgType :=
  match i with
  | 1 => Some HEARTBEAT | 2 => Some ELECTION | 3 => Some OK
  | 4 => Some COORDINATOR | 5 => Some PING | 6 => Some ACK
  | 7 => Some STATE_REPORT | _ => None
  end.

Module Message.
Record t : Set := Mk {
  type : Z;
  tick : Z;
  src_uid : Z;
  dst_uid : Z;
  leader_uid : Z;
  aux : Z
}.
End Message.

Module StateReport.
Record t : Set := Mk {
  tick : Z;
  uid : Z;
  online : Z;
  leader_uid : Z;
  election_active : Z;
  last_hb_tick : Z
}.
End StateReport.

(** ** logger.hpp: message events and the per-tick buffer *)

Definition MAX_MSG_EVENTS_PER_TICK : Z := 32.

Module MessageEvent.
Record t : Set := Mk {
  tick : Z;
  type : Z;
  src_uid : Z;
  dst_uid : Z;
  dropped : Z;
  direction : Z;
  padding : Z * Z
}.
End MessageEvent.

(** [dropped ? 1 : 0] and [is_recv ? 1 : 0]. *)
Definition int_of_bool (b : bool) : Z := if b then 1 else 0.

Module MessageBuffer.

(** The array [events_] and the fill level [count_]. *)
Record t : Set := Mk {
  events_ : list MessageEvent.t;
  count_ : Z
}.

(** The constructor only sets [count_]; the array's content is whatever the
    memory holds, here a given list of [MAX_MSG_EVENTS_PER_TICK] slots. *)
Definition new (slots : list MessageEvent.t) : t := Mk slots 0.

Definition clear (b : t) : t := Mk (events_ b) 0.

(** [type] is the [MsgType] value as its underlying [int32_t]: the callers
    obtain it by [static_cast<MsgType>(m.type)] and [add_event] casts it
    back, and both casts keep the integer. *)
Definition add_event (tick : Z) (type : Z) (src_uid dst_uid : Z)
    (dropped is_recv : bool) (b : t) : t :=
  if MAX_MSG_EVENTS_PER_TICK <=? count_ b then b
  else
    let ev := MessageEvent.Mk tick type src_uid dst_uid
                (int_of_bool dropped) (int_of_bool is_recv) (0, 0) in
    Mk (<[Z.to_nat (count_ b) := ev]> (events_ b)) (count_ b + 1).

Definition log_send (tick : Z) (m : Message.t) (dst_uid : Z) (dropped : bool)
    (b : t) : t :=
  add_event tick (Message.type m) (Message.src_uid m) dst_uid dropped false b.

Definition log_recv (tick : Z) (m : Message.t) (b : t) : t :=
  add_event tick (Message.type m) (Message.src_uid m) (Message.dst_uid m)
    false true b.

Definition count (b : t) : Z := count_ b.

(** What the worker hands to the controller at the end of a tick:
    [count()] events starting at [data()]. *)
Definition recorded (b : t) : list MessageEvent.t :=
  take (Z.to_nat (count b)) (events_ b).

End MessageBuffer.

(** ** node.hpp: configuration *)

Record NodeConfig : Set := MkNodeConfig {
  hb_period_ticks : Z;
  hb_timeout_ticks : Z;
  election_timeout_ticks : Z;
  p_send : Q;
  p_drop : Q;
  max_recv_per_tick : Z;
  seed : Z;
  debug : bool
}.

(** The default member initialisers of [NodeConfig]. *)
Definition NodeConfig_default : NodeConfig :=
  MkNodeConfig 1 3 3 (3 # 10) 0 64 0 true.

(** ** The standard library's random numbers

    [std::mt19937_64], [std::uniform_real_distribution<double>{0.0, 1.0}],
    [std::uniform_int_distribution<int>(a, b)] and
    [std::discrete_distribution<int>(weights)].  Each draw returns a value
    and the advanced engine. *)

Class StdRandom : Type := {
  mt19937_64 : Type;
  mt19937_64_seed : Z -> mt19937_64;
  uniform_real : mt19937_64 -> Q * mt19937_64;
  uniform_int : Z -> Z -> mt19937_64 -> Z * mt19937_64;
  discrete : list Z -> mt19937_64 -> Z * mt19937_64
}.

(** [a < b] and [a <= b] on probabilities, as booleans. *)
Definition Qlt_bool (a b : Q) : bool := negb (Qle_bool b a).

Definition endl : string := String (Ascii.ascii_of_nat 10) EmptyString.

(** ** failure.hpp: the failure models *)

Record NetworkFailureConfig : Set := MkNetworkFailureConfig {
  p_fail : Q;
  leader_fail_multiplier : Q;
  offline_durations : list Z;
  offline_weights : list Z
}.

Definition NetworkFailureConfig_default : NetworkFailureConfig :=
  MkNetworkFailureConfig (2 # 100) 2 [1; 2; 3; 5] [70; 20; 7; 3].

(** [v[idx]] on a [std::vector<int>]: reading outside the vector is
    undefined behaviour, rendered as [None]. *)
Definition vector_at (v : list Z) (idx : Z) : option Z :=
  if idx <? 0 then None else v !! Z.to_nat idx.

Module NetworkFailure.
Section WithRandom.
Context `{StdRandom}.

(** [offline_dist_] is built from [cfg.offline_weights] and has no state
    of its own: it is [discrete (offline_weights cfg_)]. *)
Record t : Type := Mk {
  uid_ : Z;
  cfg_ : NetworkFailureConfig;
  rng_ : mt19937_64;
  offline_remaining_ : Z;
  is_leader_ : bool
}.

Definition new (uid base_seed : Z) (cfg : NetworkFailureConfig) : t :=
  Mk uid cfg (mt19937_64_seed (mix_seed base_seed (uint64 uid))) 0 false.

Definition tick (tick : Z) (f : t) : option t :=
  if 0 <? offline_remaining_ f then
    Some (Mk (uid_ f) (cfg_ f) (rng_ f) (offline_remaining_ f - 1)
            (is_leader_ f))
  else
    let p := if is_leader_ f
             then (p_fail (cfg_ f) * leader_fail_multiplier (cfg_ f))%Q
             else p_fail (cfg_ f) in
    let (u, g1) := uniform_real (rng_ f) in
    if Qlt_bool u p then
      let (idx, g2) := discrete (offline_weights (cfg_ f)) g1 in
      match vector_at (offline_durations (cfg_ f)) idx with
      | Some d => Some (Mk (uid_ f) (cfg_ f) g2 d (is_leader_ f))
      | None => None
      end
    else Some (Mk (uid_ f) (cfg_ f) g1 (offline_remaining_ f) (is_leader_ f)).

Definition can_communicate (f : t) : bool := offline_remaining_ f =? 0.

Definition ticks_until_recovery (f : t) : Z := offline_remaining_ f.

Definition set_is_leader (is_leader : bool) (f : t) : t :=
  Mk (uid_ f) (cfg_ f) (rng_ f) (offline_remaining_ f) is_leader.

End WithRandom.
End NetworkFailure.

Module CrashFailure.
Section WithRandom.
Context `{StdRandom}.

Record t : Type := Mk {
  uid_ : Z;
  p_crash_ : Q;
  recovery_ticks_ : Z;
  rng_ : mt19937_64;
  crashed_remaining_ : Z
}.

Definition new (uid base_seed : Z) (p_crash : Q) (recovery_ticks : Z) : t :=
  Mk uid p_crash recovery_ticks
    (mt19937_64_seed (mix_seed base_seed (uint64 uid))) 0.

Definition tick (tick : Z) (f : t) : t :=
  if 0 <? crashed_remaining_ f then
    Mk (uid_ f) (p_crash_ f) (recovery_ticks_ f) (rng_ f)
      (crashed_remaining_ f - 1)
  else
    let (u, g1) := uniform_real (rng_ f) in
    if Qlt_bool u (p_crash_ f) then
      Mk (uid_ f) (p_crash_ f) (recovery_ticks_ f) g1 (recovery_ticks_ f)
    else
      Mk (uid_ f) (p_crash_ f) (recovery_ticks_ f) g1 (crashed_remaining_ f).

Definition can_communicate (f : t) : bool := crashed_remaining_ f =? 0.

Definition is_crashed (f : t) : bool := 0 <? crashed_remaining_ f.

Definition ticks_until_recovery (f : t) : Z := crashed_remaining_ f.

End WithRandom.
End CrashFailure.

Module FailureType.
Inductive t : Set := None | Network | Crash.
End FailureType.

Module Failure.
Section WithRandom.
Context `{StdRandom}.

(** The objects behind a [std::unique_ptr<Failure>]: one constructor per
    derived class. *)
Inductive t : Type :=
  | NoFailure
  | Network (f : NetworkFailure.t)
  | Crash (f : CrashFailure.t).

Definition tick (tick : Z) (f : t) : option t :=
  match f with
  | NoFailure => Some NoFailure
  | Network nf => Network <$> NetworkFailure.tick tick nf
  | Crash cf => Some (Crash (CrashFailure.tick tick cf))
  end.

Definition can_communicate (f : t) : bool :=
  match f with
  | NoFailure => true
  | Network nf => NetworkFailure.can_communicate nf
  | Crash cf => CrashFailure.can_communicate cf
  end.

Definition is_failed (f : t) : bool := negb (can_communicate f).

Definition ticks_until_recovery (f : t) : Z :=
  match f with
  | NoFailure => 0
  | Network nf => NetworkFailure.ticks_until_recovery nf
  | Crash cf => CrashFailure.ticks_until_recovery cf
  end.

Definition type_name (f : t) : string :=
  match f with
  | NoFailure => "NoFailure"
  | Network _ => "NetworkFailure"
  | Crash _ => "CrashFailure"
  end.

(** [make_failure], with its default arguments [crash_p = 0.02] and
    [crash_recovery = 3] as main.cpp uses it. *)
Definition make_failure (type : FailureType.t) (uid seed : Z)
    (net_cfg : NetworkFailureConfig) : t :=
  match type with
  | FailureType.Network => Network (NetworkFailure.new uid seed net_cfg)
  | FailureType.Crash => Crash (CrashFailure.new uid seed (2 # 100) 3)
  | FailureType.None => NoFailure
  end.

End WithRandom.
End Failure.

(** ** node.hpp: the peer *)

Section Node.
Context `{StdRandom}.

(** The data members of [Node], in declaration order ([uni_] has no state).
    [mpi_sent] lists the [MPI_Send] calls performed so far as (destination
    rank, payload), and [cout] the lines written to [std::cout]. *)
Record Node : Type := MkNode {
  rank_ : Z;
  world_size_ : Z;
  num_nodes_ : Z;
  uid_ : Z;
  leader_uid_ : Z;
  last_hb_tick_ : Z;
  can_communicate_ : bool;
  election_active_ : bool;
  election_started_ : bool;
  waiting_for_coordinator_ : bool;
  ok_received_tick_ : Z;
  election_start_tick_ : Z;
  cfg_ : NodeConfig;
  rng_ : mt19937_64;
  msg_buffer_ : MessageBuffer.t;
  debug_messages_ : list string;
  next_msg_id : Z;
  pings_sent : Z;
  acks_received : Z;
  mpi_sent : list (Z * Message.t);
  cout : list string
}.

Definition set_leader_uid_ (v : Z) (n : Node) : Node :=
  MkNode (rank_ n) (world_size_ n) (num_nodes_ n) (uid_ n) v
    (last_hb_tick_ n) (can_communicate_ n) (election_active_ n)
    (election_started_ n) (waiting_for_coordinator_ n) (ok_received_tick_ n)
    (election_start_tick_ n) (cfg_ n) (rng_ n) (msg_buffer_ n)
    (debug_messages_ n) (next_msg_id n) (pings_sent n) (acks_received n)
    (mpi_sent n) (cout n).

Definition set_last_hb_tick_ (v : Z) (n : Node) : Node :=
  MkNode (rank_ n) (world_size_ n) (num_nodes_ n) (uid_ n) (leader_uid_ n) v
    (can_communicate_ n) (election_active_ n) (election_started_ n)
    (waiting_for_coordinator_ n) (ok_received_tick_ n)
    (election_start_tick_ n) (cfg_ n) (rng_ n) (msg_buffer_ n)
    (debug_messages_ n) (next_msg_id n) (pings_sent n) (acks_received n)
    (mpi_sent n) (cout n).

Definition set_can_communicate_ (v : bool) (n : Node) : Node :=
  MkNode (rank_ n) (world_size_ n) (num_nodes_ n) (uid_ n) (leader_uid_ n)
    (last_hb_tick_ n) v (election_active_ n) (election_started_ n)
    (waiting_for_coordinator_ n) (ok_received_tick_ n)
    (election_start_tick_ n) (cfg_ n) (rng_ n) (msg_buffer_ n)
    (debug_messages_ n) (next_msg_id n) (pings_sent n) (acks_received n)
    (mpi_sent n) (cout n).

Definition set_election_active_ (v : bool) (n : Node) : Node :=
  MkNode (rank_ n) (world_size_ n) (num_nodes_ n) (uid_ n) (leader_uid_ n)
    (last_hb_tick_ n) (can_communicate_ n) v (election_started_ n)
    (waiting_for_coordinator_ n) (ok_received_tick_ n)
    (election_start_tick_ n) (cfg_ n) (rng_ n) (msg_buffer_ n)
    (debug_messages_ n) (next_msg_id n) (pings_sent n) (acks_received n)
    (mpi_sent n) (cout n).

Definition set_election_started_ (v : bool) (n : Node) : Node :=
  MkNode (rank_ n) (world_size_ n) (num_nodes_ n) (uid_ n) (leader_uid_ n)
    (last_hb_tick_ n) (can_communicate_ n) (election_active_ n) v
    (waiting_for_coordinator_ n) (ok_received_tick_ n)
    (election_start_tick_ n) (cfg_ n) (rng_ n) (msg_buffer_ n)
    (debug_messages_ n) (next_msg_id n) (pings_sent n) (acks_received n)
    (mpi_sent n) (cout n).

Definition set_waiting_for_coordinator_ (v : bool) (n : Node) : Node :=
  MkNode (rank_ n) (world_size_ n) (num_nodes_ n) (uid_ n) (leader_uid_ n)
    (last_hb_tick_ n) (can_communicate_ n) (election_active_ n)
    (election_started_ n) v (ok_received_tick_ n) (election_start_tick_ n)
    (cfg_ n) (rng_ n) (msg_buffer_ n) (debug_messages_ n) (next_msg_id n)
    (pings_sent n) (acks_received n) (mpi_sent n) (cout n).

Definition set_ok_received_tick_ (v : Z) (n : Node) : Node :=
  MkNode (rank_ n) (world_size_ n) (num_nodes_ n) (uid_ n) (leader_uid_ n)
    (last_hb_tick_ n) (can_communicate_ n) (election_active_ n)
    (election_started_ n) (waiting_for_coordinator_ n) v
    (election_start_tick_ n) (cfg_ n) (rng_ n) (msg_buffer_ n)
    (debug_messages_ n) (next_msg_id n) (pings_sent n) (acks_received n)
    (mpi_sent n) (cout n).

Definition set_election_start_tick_ (v : Z) (n : Node) : Node :=
  MkNode (rank_ n) (world_size_ n) (num_nodes_ n) (uid_ n) (leader_uid_ n)
    (last_hb_tick_ n) (can_communicate_ n) (election_active_ n)
    (election_started_ n) (waiting_for_coordinator_ n) (ok_received_tick_ n)
    v (cfg_ n) (rng_ n) (msg_buffer_ n) (debug_messages_ n) (next_msg_id n)
    (pings_sent n) (acks_received n) (mpi_sent n) (cout n).

Definition set_rng_ (v : mt19937_64) (n : Node) : Node :=
  MkNode (rank_ n) (world_size_ n) (num_nodes_ n) (uid_ n) (leader_uid_ n)
    (last_hb_tick_ n) (can_communicate_ n) (election_active_ n)
    (election_started_ n) (waiting_for_coordinator_ n) (ok_received_tick_ n)
    (election_start_tick_ n) (cfg_ n) v (msg_buffer_ n) (debug_messages_ n)
    (next_msg_id n) (pings_sent n) (acks_received n) (mpi_sent n) (cout n).

Definition set_msg_buffer_ (v : MessageBuffer.t) (n : Node) : Node :=
  MkNode (rank_ n) (world_size_ n) (num_nodes_ n) (uid_ n) (leader_uid_ n)
    (last_hb_tick_ n) (can_communicate_ n) (election_active_ n)
    (election_started_ n) (waiting_for_coordinator_ n) (ok_received_tick_ n)
    (election_start_tick_ n) (cfg_ n) (rng_ n) v (debug_messages_ n)
    (next_msg_id n) (pings_sent n) (acks_received n) (mpi_sent n) (cout n).

Definition set_debug_messages_ (v : list string) (n : Node) : Node :=
  MkNode (rank_ n) (world_size_ n) (num_nodes_ n) (uid_ n) (leader_uid_ n)
    (last_hb_tick_ n) (can_communicate_ n) (election_active_ n)
    (election_started_ n) (waiting_for_coordinator_ n) (ok_received_tick_ n)
    (election_start_tick_ n) (cfg_ n) (rng_ n) (msg_buffer_ n) v
    (next_msg_id n) (pings_sent n) (acks_received n) (mpi_sent n) (cout n).

Definition set_next_msg_id (v : Z) (n : Node) : Node :=
  MkNode (rank_ n) (world_size_ n) (num_nodes_ n) (uid_ n) (leader_uid_ n)
    (last_hb_tick_ n) (can_communicate_ n) (election_active_ n)
    (election_started_ n) (waiting_for_coordinator_ n) (ok_received_tick_ n)
    (election_start_tick_ n) (cfg_ n) (rng_ n) (msg_buffer_ n)
    (debug_messages_ n) v (pings_sent n) (acks_received n) (mpi_sent n)
    (cout n).

Definition set_pings_sent (v : Z) (n : Node) : Node :=
  MkNode (rank_ n) (world_size_ n) (num_nodes_ n) (uid_ n) (leader_uid_ n)
    (last_hb_tick_ n) (can_communicate_ n) (election_active_ n)
    (election_started_ n) (waiting_for_coordinator_ n) (ok_received_tick_ n)
    (election_start_tick_ n) (cfg_ n) (rng_ n) (msg_buffer_ n)
    (debug_messages_ n) (next_msg_id n) v (acks_received n) (mpi_sent n)
    (cout n).

Definition set_mpi_sent (v : list (Z * Message.t)) (n : Node) : Node :=
  MkNode (rank_ n) (world_size_ n) (num_nodes_ n) (uid_ n) (leader_uid_ n)
    (last_hb_tick_ n) (can_communicate_ n) (election_active_ n)
    (election_started_ n) (waiting_for_coordinator_ n) (ok_received_tick_ n)
    (election_start_tick_ n) (cfg_ n) (rng_ n) (msg_buffer_ n)
    (debug_messages_ n) (next_msg_id n) (pings_sent n) (acks_received n) v
    (cout n).

Definition set_cout (v : list string) (n : Node) : Node :=
  MkNode (rank_ n) (world_size_ n) (num_nodes_ n) (uid_ n) (leader_uid_ n)
    (last_hb_tick_ n) (can_communicate_ n) (election_active_ n)
    (election_started_ n) (waiting_for_coordinator_ n) (ok_received_tick_ n)
    (election_start_tick_ n) (cfg_ n) (rng_ n) (msg_buffer_ n)
    (debug_messages_ n) (next_msg_id n) (pings_sent n) (acks_received n)
    (mpi_sent n) v.

Definition zero_event : MessageEvent.t := MessageEvent.Mk 0 0 0 0 0 0 (0, 0).

(** The constructor: [inl what] is a thrown [std::runtime_error].  The event
    array starts with indeterminate content, which is never read before it
    is written; it is shown as zeroed slots. *)
Definition Node_new (mpi_rank world_size num_nodes : Z) (cfg : NodeConfig)
    : string + Node :=
  let n := MkNode mpi_rank world_size num_nodes mpi_rank (-1) (-1) true
             false false false (-1) (-1) cfg
             (mt19937_64_seed (mix_seed (seed cfg) (uint64 mpi_rank)))
             (MessageBuffer.new
                (replicate (Z.to_nat MAX_MSG_EVENTS_PER_TICK) zero_event))
             [] 0 0 0 [] [] in
  if rank_ n =? 0 then
    inl "Node should not be constructed for controller rank 0"
  else if negb (world_size_ n =? num_nodes_ n + 1) then
    inl "world_size must equal num_nodes + 1"
  else
    inr (set_last_hb_tick_ (-1) (set_leader_uid_ (num_nodes_ n) n)).

Definition uid (n : Node) : Z := uid_ n.
Definition can_communicate (n : Node) : bool := can_communicate_ n.
Definition set_can_communicate (can : bool) (n : Node) : Node :=
  set_can_communicate_ can n.
Definition leader_uid (n : Node) : Z := leader_uid_ n.
Definition election_active (n : Node) : bool := election_active_ n.
Definition message_buffer (n : Node) : MessageBuffer.t := msg_buffer_ n.
Definition clear_message_buffer (n : Node) : Node :=
  set_msg_buffer_ (MessageBuffer.clear (msg_buffer_ n)) n.
Definition debug_messages (n : Node) : list string := debug_messages_ n.
Definition clear_debug_messages (n : Node) : Node := set_debug_messages_ [] n.
Definition is_leader (n : Node) : bool := uid_ n =? leader_uid_ n.

Definition make_state_report (tick : Z) (n : Node) : StateReport.t :=
  StateReport.Mk tick (uid_ n) (int_of_bool (can_communicate_ n))
    (leader_uid_ n) (int_of_bool (election_active_ n)) (last_hb_tick_ n).

Definition debug_print (tick : Z) (msg : string) (n : Node) : Node :=
  let n := set_debug_messages_ (debug_messages_ n ++ [msg]) n in
  if negb (debug (cfg_ n)) then n
  else
    set_cout
      (cout n ++ ["[T=" +:+ pretty tick +:+ "][R=" +:+ pretty (uid_ n)
                  +:+ "] " +:+ msg +:+ endl]) n.

Definition should_drop_outgoing (n : Node) : bool * Node :=
  if Qle_bool (p_drop (cfg_ n)) 0 then (false, n)
  else
    let (u, g) := uniform_real (rng_ n) in
    (Qle_bool u (p_drop (cfg_ n)), set_rng_ g n).

Definition MPI_Send (m : Message.t) (dst_rank : Z) (n : Node) : Node :=
  set_mpi_sent (mpi_sent n ++ [(dst_rank, m)]) n.

Definition send_message (m : Message.t) (dst_rank : Z) (dropped : bool)
    (n : Node) : Node :=
  let effectively_dropped := dropped || negb (can_communicate_ n) in
  let n := set_msg_buffer_
             (MessageBuffer.log_send (Message.tick m) m dst_rank
                effectively_dropped (msg_buffer_ n)) n in
  if negb effectively_dropped then MPI_Send m dst_rank n else n.

(** [for (int r = 1; r <= num_nodes_; ++r)]: the ranks visited. *)
Definition node_ranks (n : Node) : list Z := seqZ 1 (num_nodes_ n).

(** [send_message(m, r)] takes the default argument [dropped = false]. *)
Definition broadcast_to_nodes (m : Message.t) (n : Node) : Node :=
  fold_left
    (fun n r => if r =? rank_ n then n else send_message m r false n)
    (node_ranks n) n.

Definition maybe_send_heartbeat (tick : Z) (n : Node) : Node :=
  if negb (uid_ n =? leader_uid_ n) then n
  else if hb_period_ticks (cfg_ n) <=? 0 then n
  else if negb (Z.rem tick (hb_period_ticks (cfg_ n)) =? 0) then n
  else
    let n := debug_print tick "→ HEARTBEAT to all" n in
    let m := Message.Mk (MsgType_to_int HEARTBEAT) tick (uid_ n) (-1)
               (uid_ n) 0 in
    broadcast_to_nodes m n.

(** One iteration of the loop of [start_election]; the loop state is the
    peer and the local [sent_any]. *)
Definition start_election_step (tick : Z) (m : Message.t)
    (st : Node * bool) (r : Z) : Node * bool :=
  let (n, sent_any) := st in
  if uid_ n <? r then
    let (dropped, n) := should_drop_outgoing n in
    let n := send_message m r dropped n in
    if negb dropped then
      (debug_print tick ("→ ELECTION to " +:+ pretty r) n, true)
    else
      (debug_print tick ("✗ ELECTION to " +:+ pretty r +:+ " (dropped)") n,
       sent_any)
  else (n, sent_any).

Definition start_election (tick : Z) (n : Node) : Node :=
  let n := set_election_started_ true n in
  let n := set_election_start_tick_ tick n in
  let m := Message.Mk (MsgType_to_int ELECTION) tick (uid_ n) (-1)
             (leader_uid_ n) 0 in
  let (n, sent_any) :=
    fold_left (start_election_step tick m) (node_ranks n) (n, false) in
  if negb sent_any && (uid_ n =? num_nodes_ n) then
    debug_print tick "👑 no higher nodes: winning immediately" n
  else n.

Definition handle_message (m : Message.t) (tick : Z) (n : Node) : Node :=
  match MsgType_of_int (Message.type m) with
  | Some HEARTBEAT =>
      if uid_ n <=? Message.src_uid m then
        let n := set_leader_uid_ (Message.src_uid m) n in
        let n := set_last_hb_tick_ tick n in
        let n := set_election_active_ false n in
        let n := set_waiting_for_coordinator_ false n in
        debug_print tick ("← HEARTBEAT from " +:+ pretty (Message.src_uid m)) n
      else n
  | Some ELECTION =>
      let ok := Message.Mk (MsgType_to_int OK) tick (uid_ n)
                  (Message.src_uid m) (leader_uid_ n) 0 in
      let (dropped, n) := should_drop_outgoing n in
      let n := send_message ok (Message.src_uid m) dropped n in
      let n :=
        if negb dropped then
          debug_print tick ("→ OK to " +:+ pretty (Message.src_uid m)) n
        else
          debug_print tick
            ("✗ OK to " +:+ pretty (Message.src_uid m) +:+ " (dropped)") n in
      if (Message.src_uid m <? uid_ n) && negb (election_active_ n) then
        let n := set_election_active_ true n in
        let n := set_election_started_ false n in
        debug_print tick
          ("← ELECTION from " +:+ pretty (Message.src_uid m)
           +:+ ": starting own election") n
      else n
  | Some OK =>
      if uid_ n <? Message.src_uid m then
        let n := set_election_active_ false n in
        let n := set_election_started_ false n in
        let n := set_waiting_for_coordinator_ true n in
        let n := set_ok_received_tick_ tick n in
        debug_print tick
          ("← OK from " +:+ pretty (Message.src_uid m)
           +:+ ": yielding, waiting for COORDINATOR") n
      else n
  | Some COORDINATOR =>
      if uid_ n <=? Message.src_uid m then
        let n := debug_print tick
                   ("← COORDINATOR from " +:+ pretty (Message.src_uid m)
                    +:+ ": accepted as leader") n in
        let n := set_leader_uid_ (Message.src_uid m) n in
        let n := set_last_hb_tick_ tick n in
        let n := set_election_active_ false n in
        let n := set_election_started_ false n in
        let n := set_waiting_for_coordinator_ false n in
        set_ok_received_tick_ (-1) n
      else
        let n := debug_print tick
                   ("← COORDINATOR from " +:+ pretty (Message.src_uid m)
                    +:+ ": rejected (lower UID), starting election") n in
        if negb (election_active_ n) && negb (waiting_for_coordinator_ n)
        then
          let n := set_election_active_ true n in
          set_election_started_ false n
        else n
  | Some PING =>
      let ack := Message.Mk (MsgType_to_int ACK) tick (uid_ n)
                   (Message.src_uid m) (leader_uid_ n) (Message.aux m) in
      let (dropped, n) := should_drop_outgoing n in
      let n := send_message ack (Message.dst_uid ack) dropped n in
      if negb dropped then
        debug_print tick ("→ ACK to " +:+ pretty (Message.dst_uid ack)) n
      else
        debug_print tick
          ("✗ ACK to " +:+ pretty (Message.dst_uid ack) +:+ " (dropped)") n
  | _ => n
  end.

(** [while (r == rank_) r = dist(rng_);] may run for ever (it does when
    [num_nodes_ = 1]); [fuel] bounds the number of draws and [None] means it
    was exhausted. *)
Fixpoint random_peer_rank_loop (fuel : nat) (r : Z) (n : Node)
    : option (Z * Node) :=
  if r =? rank_ n then
    match fuel with
    | O => None
    | S fuel =>
        let (r, g) := uniform_int 1 (num_nodes_ n) (rng_ n) in
        random_peer_rank_loop fuel r (set_rng_ g n)
    end
  else Some (r, n).

Definition random_peer_rank (fuel : nat) (n : Node) : option (Z * Node) :=
  random_peer_rank_loop fuel (rank_ n) n.

Definition maybe_send_random_ping (fuel : nat) (tick : Z) (n : Node)
    : option Node :=
  if Qle_bool (p_send (cfg_ n)) 0 then Some n
  else
    let (u, g) := uniform_real (rng_ n) in
    let n := set_rng_ g n in
    if Qle_bool (p_send (cfg_ n)) u then Some n
    else
      match random_peer_rank fuel n with
      | None => None
      | Some (destination_node, n) =>
          let m := Message.Mk (MsgType_to_int PING) tick (uid_ n)
                     destination_node (leader_uid_ n) (next_msg_id n) in
          let n := set_next_msg_id (next_msg_id n + 1) n in
          let (dropped, n) := should_drop_outgoing n in
          let n := send_message m destination_node dropped n in
          if negb dropped then
            let n := set_pings_sent (pings_sent n + 1) n in
            Some (debug_print tick
                    ("→ PING to " +:+ pretty destination_node) n)
          else
            Some (debug_print tick
                    ("✗ PING to " +:+ pretty (Message.dst_uid m)
                     +:+ " (dropped)") n)
      end.

(** The body of the loop of [drain_incoming] for a message the probe found. *)
Definition recv_one (tick : Z) (m : Message.t) (n : Node) : Node :=
  let n := set_msg_buffer_ (MessageBuffer.log_recv tick m (msg_buffer_ n)) n in
  if can_communicate_ n then handle_message m tick n else n.

(** [pending] are the messages [MPI_Iprobe]/[MPI_Recv] would deliver to this
    rank, in the order in which they are matched; the loop stops when the
    probe finds nothing or [max_recv_per_tick] messages were drained.  The
    result holds the messages left pending. *)
Fixpoint drain_loop (tick drained : Z) (pending : list Message.t) (n : Node)
    : Node * list Message.t :=
  if drained <? max_recv_per_tick (cfg_ n) then
    match pending with
    | [] => (n, [])
    | m :: pending => drain_loop tick (drained + 1) pending (recv_one tick m n)
    end
  else (n, pending).

Definition drain_incoming (tick : Z) (pending : list Message.t) (n : Node)
    : Node * list Message.t :=
  drain_loop tick 0 pending n.

(** *** The four phases of a tick *)

Definition tick_begin (tick : Z) (n : Node) : Node := n.

Definition tick_send (fuel : nat) (tick : Z) (n : Node) : option Node :=
  let n := maybe_send_heartbeat tick n in
  let n := if election_active_ n && negb (election_started_ n)
           then start_election tick n else n in
  maybe_send_random_ping fuel tick n.

Definition tick_recv (tick : Z) (pending : list Message.t) (n : Node)
    : Node * list Message.t :=
  drain_incoming tick pending n.

(** The guards of the three checks of [tick_end]. *)
Definition heartbeat_timed_out (tick : Z) (n : Node) : bool :=
  (negb (leader_uid_ n =? -1) && negb (uid_ n =? leader_uid_ n)
   && negb (election_active_ n) && negb (waiting_for_coordinator_ n))
  && ((0 <=? last_hb_tick_ n)
      && (hb_timeout_ticks (cfg_ n) <=? tick - last_hb_tick_ n)).

Definition coordinator_timed_out (tick : Z) (n : Node) : bool :=
  waiting_for_coordinator_ n
  && (election_timeout_ticks (cfg_ n) <? tick - ok_received_tick_ n).

Definition election_timed_out (tick : Z) (n : Node) : bool :=
  (election_active_ n && election_started_ n)
  && (election_timeout_ticks (cfg_ n) <? tick - election_start_tick_ n).

Definition check_heartbeat_timeout (tick : Z) (n : Node) : Node :=
  if heartbeat_timed_out tick n then
    let n := set_election_active_ true n in
    let n := set_election_started_ false n in
    debug_print tick "⏱ timeout: no heartbeat from leader, starting election" n
  else n.

Definition check_coordinator_timeout (tick : Z) (n : Node) : Node :=
  if coordinator_timed_out tick n then
    let n := set_waiting_for_coordinator_ false n in
    let n := set_ok_received_tick_ (-1) n in
    let n := set_election_active_ true n in
    let n := set_election_started_ false n in
    debug_print tick "⏱ timeout: no COORDINATOR received, restarting election" n
  else n.

Definition check_election_timeout (tick : Z) (n : Node) : Node :=
  if election_timed_out tick n then
    let n := set_leader_uid_ (uid_ n) n in
    let n := set_election_active_ false n in
    let n := set_election_started_ false n in
    let n := debug_print tick "👑 won election: becoming leader" n in
    let coord := Message.Mk (MsgType_to_int COORDINATOR) tick (uid_ n) (-1)
                   (uid_ n) 0 in
    let n := broadcast_to_nodes coord n in
    debug_print tick "→ COORDINATOR to all: I am leader" n
  else n.

Definition tick_end (tick : Z) (n : Node) : Node :=
  check_election_timeout tick
    (check_coordinator_timeout tick (check_heartbeat_timeout tick n)).

End Node.

(** ** main.cpp: one iteration of the worker loop *)

Section Worker.
Context `{StdRandom}.

(** What a worker contributes to the gathers at the end of a tick. *)
Record Harvest : Type := MkHarvest {
  report : StateReport.t;
  events : list MessageEvent.t;
  debug_lines : list string
}.

(** A worker process: its failure model, its peer, and the messages sent to
    its rank that it has not received yet. *)
Record Worker : Type := MkWorker {
  failure : Failure.t;
  node : Node;
  queue : list Message.t
}.

(** [dynamic_cast<NetworkFailure*>] succeeds for the network model only. *)
Definition advance_failure (t : Z) (f : Failure.t) (n : Node)
    : option Failure.t :=
  let f := match f with
           | Failure.Network nf =>
               Failure.Network
                 (NetworkFailure.set_is_leader (leader_uid n =? uid n) nf)
           | _ => f
           end in
  Failure.tick t f.

(** [arrivals] are the messages of other ranks that reach this rank's queue
    before it drains in tick [t]. *)
Definition worker_tick (fuel : nat) (t : Z) (arrivals : list Message.t)
    (w : Worker) : option (Worker * Harvest) :=
  match advance_failure t (failure w) (node w) with
  | None => None
  | Some f =>
      let n := set_can_communicate (Failure.can_communicate f) (node w) in
      let n := tick_begin t n in
      match tick_send fuel t n with
      | None => None
      | Some n =>
          let (n, pending) := tick_recv t (queue w ++ arrivals) n in
          let n := tick_end t n in
          let h := MkHarvest (make_state_report t n)
                     (MessageBuffer.recorded (message_buffer n))
                     (debug_messages n) in
          let n := clear_debug_messages (clear_message_buffer n) in
          Some (MkWorker f n pending, h)
      end
  end.

(** The loop [for (int t = 0; t < ticks; ++t)], fed with the arrivals of
    each tick; it returns the final worker and the harvests in tick order. *)
Fixpoint worker_loop (fuel : nat) (t : Z) (arrivals : list (list Message.t))
    (w : Worker) : option (Worker * list Harvest) :=
  match arrivals with
  | [] => Some (w, [])
  | a :: arrivals =>
      match worker_tick fuel t a w with
      | None => None
      | Some (w, h) =>
          match worker_loop fuel (t + 1) arrivals w with
          | None => None
          | Some (w, hs) => Some (w, h :: hs)
          end
      end
  end.

(** The [else] branch of [main] up to the loop. *)
Definition worker_start (rank world_size : Z) (cfg : NodeConfig)
    (failure_type : FailureType.t) (sim_seed : Z)
    (fcfg : NetworkFailureConfig) : string + Worker :=
  match Node_new rank world_size (world_size - 1) cfg with
  | inl what => inl what
  | inr n =>
      inr (MkWorker (Failure.make_failure failure_type rank sim_seed fcfg)
             n [])
  end.

End Worker.

(** ** logger.hpp and main.cpp: helpers of the controller *)

(** [msg_type_to_string]: the [switch] over [static_cast<MsgType>(type)]. *)
Definition msg_type_to_string (type : Z) : string :=
  match MsgType_of_int type with
  | Some HEARTBEAT => "HEARTBEAT"
  | Some ELECTION => "ELECTION"
  | Some OK => "OK"
  | Some COORDINATOR => "COORDINATOR"
  | Some PING => "PING"
  | Some ACK => "ACK"
  | Some STATE_REPORT => "STATE_REPORT"
  | None => "UNKNOWN"
  end.

(** The loop of [parse_string] from index [i] on, [args] being
    [argv[i], ..., argv[argc - 1]]: [argv[i]] is a match only if an
    [argv[i + 1]] exists, and the scan advances by one position. *)
Fixpoint parse_string_from (args : list string) (key def : string) : string :=
  match args with
  | a :: rest =>
      match rest with
      | v :: _ => if String.eqb key a then v else parse_string_from rest key def
      | [] => def
      end
  | [] => def
  end.

(** [parse_string(argc, argv, key, def)], [argv] given as the list of its
    [argc] strings; the loop starts at index 1. *)
Definition parse_string (argv : list string) (key def : string) : string :=
  parse_string_from (tail argv) key def.

(** [sizeof(MessageEvent)]: eight [int32_t]. *)
Definition sizeof_MessageEvent : Z := 32.

(** The controller computes the layout in [int].  [int_wrap x] is the [int]
    a 32-bit two's complement machine holds for the mathematical result [x]
    of a product or a sum: [x] itself when it lies in
    [[INT_MIN, INT_MAX]], and [x] reduced modulo [2^32] into that range
    otherwise (the C++ standard leaves signed overflow undefined). *)
Definition INT_MIN : Z := - 2 ^ 31.
Definition INT_MAX : Z := 2 ^ 31 - 1.

Definition int_wrap (x : Z) : Z := (x + 2 ^ 31) mod 2 ^ 32 - 2 ^ 31.

(** The loop of the controller that lays out the gathered events: for the
    counts [msg_counts_raw[i..]] and the running [total_msgs] it yields
    [displs[i..]], [byte_counts[i..]] and the final [total_msgs], each
    product and each sum taken in [int]. *)
Fixpoint gather_layout_loop (counts : list Z) (total_msgs : Z)
    : list Z * list Z * Z :=
  match counts with
  | [] => ([], [], total_msgs)
  | c :: counts =>
      let '(displs, byte_counts, total) :=
        gather_layout_loop counts (int_wrap (total_msgs + c)) in
      (int_wrap (total_msgs * sizeof_MessageEvent) :: displs,
       int_wrap (c * sizeof_MessageEvent) :: byte_counts, total)
  end.

Definition gather_layout (msg_counts_raw : list Z) : list Z * list Z * Z :=
  gather_layout_loop msg_counts_raw 0.

(** ** A small random source for running the model

    A counter stands for the engine: the k-th draw is a function of k.  It is
    used to evaluate the definitions on examples only; every general
    statement below holds for any [StdRandom]. *)

Definition CounterRandom : StdRandom := {|
  mt19937_64 := Z;
  mt19937_64_seed := fun s => s;
  uniform_real := fun g => ((inject_Z (g mod 4) / 4)%Q, g + 1);
  uniform_int := fun a b g => (a + g mod (b - a + 1), g + 1);
  discrete := fun ws g => (g mod Z.of_nat (length ws), g + 1)
|}.

(** ** Peers used as examples *)

Section Examples.
Existing Instance CounterRandom.

(** No background traffic, no transport drops, no console output. *)
Definition quiet_cfg : NodeConfig := MkNodeConfig 1 3 3 0 0 64 1 false.

Definition blank_node : Node :=
  MkNode 0 0 0 0 (-1) (-1) true false false false (-1) (-1) quiet_cfg 0
    (MessageBuffer.new
       (replicate (Z.to_nat MAX_MSG_EVENTS_PER_TICK) zero_event))
    [] 0 0 0 [] [].

Definition constructed (mpi_rank num_nodes : Z) (cfg : NodeConfig) : Node :=
  match Node_new mpi_rank (num_nodes + 1) num_nodes cfg with
  | inr n => n
  | inl _ => blank_node
  end.

Definition after_send (tick : Z) (n : Node) : Node :=
  match tick_send 0 tick n with Some n => n | None => blank_node end.

(** Peer 40 of 40 leads from the start; its first heartbeat broadcast has 39
    destinations. *)
Definition leader_of_40 : Node := after_send 0 (constructed 40 40 quiet_cfg).

(** Peer 2 of 3 while its failure model reports it offline. *)
Definition offline_peer : Node :=
  set_can_communicate false (constructed 2 3 quiet_cfg).

(** The ELECTION message peer 1 emits when it starts an election at tick 6
    believing that peer 3 leads. *)
Definition election_from_1 : Message.t :=
  Message.Mk (MsgType_to_int ELECTION) 6 1 (-1) 3 0.




(** The traffic of the scenarios: the heartbeat of leader 3 at tick 0, the
    ELECTION of peer 2 at tick 4, and the OK by which peer 3 answers peer 2
    at tick 5. *)
Definition heartbeat_from_3 : Message.t :=
  Message.Mk (MsgType_to_int HEARTBEAT) 0 3 (-1) 3 0.

Definition election_from_2 : Message.t :=
  Message.Mk (MsgType_to_int ELECTION) 4 2 (-1) 3 0.

Definition ok_from_3 : Message.t :=
  Message.Mk (MsgType_to_int OK) 5 3 2 3 0.

(** What reaches peer 2 of 3, tick by tick: a heartbeat, then silence until
    its heartbeat timeout and election, the OK of peer 3, and at tick 6 the
    ELECTION of peer 1. *)
Definition waiting_scenario : list (list Message.t) :=
  [[heartbeat_from_3]; []; []; []; []; [ok_from_3]; [election_from_1]].

(** The worker of peer 2 in a world of three peers without failure model,
    and its run over [waiting_scenario]. *)
Definition peer2_worker : Worker :=
  match worker_start 2 4 quiet_cfg FailureType.None 1
          NetworkFailureConfig_default with
  | inr w => w
  | inl _ => MkWorker Failure.NoFailure blank_node []
  end.

Definition peer2_run : Worker * list Harvest :=
  match worker_loop 0 0 waiting_scenario peer2_worker with
  | Some r => r
  | None => (peer2_worker, [])
  end.

(** Peer 3 of 3 right after it handled the ELECTION of peer 2: an election
    is active and not started yet. *)
Definition challenged_top : Node :=
  handle_message election_from_2 4 (constructed 3 3 quiet_cfg).

(** The network failure model of peer 2 with [k] offline ticks left. *)
Definition offline_for (k : Z) : NetworkFailure.t :=
  NetworkFailure.Mk 2 NetworkFailureConfig_default 0 k false.

End Examples.

Section MoreExamples.
Existing Instance CounterRandom.

(** A network failure model that never fails: [p_fail = 0]. *)
Definition safe_network : NetworkFailure.t :=
  NetworkFailure.Mk 2 (MkNetworkFailureConfig 0 2 [1; 2; 3; 5] [70; 20; 7; 3])
    0 0 false.

(** The worker of peer 2 of 3 with the network failure model. *)
Definition networked_worker : Worker :=
  match worker_start 2 4 quiet_cfg FailureType.Network 1
          NetworkFailureConfig_default with
  | inr w => w
  | inl _ => MkWorker Failure.NoFailure blank_node []
  end.

(** Background traffic in every tick. *)
Definition chatty_cfg : NodeConfig := MkNodeConfig 1 3 3 1 0 64 1 false.

(** Peer 2 of 3 after one round of background traffic at tick 0. *)
Definition pinged_once : Node :=
  match maybe_send_random_ping 5 0 (constructed 2 3 chatty_cfg) with
  | Some n => n
  | None => blank_node
  end.

(** The only peer of a world of one. *)
Definition lone_peer : Node := constructed 1 1 chatty_cfg.

Definition coordinator_from_3 : Message.t :=
  Message.Mk (MsgType_to_int COORDINATOR) 7 3 (-1) 3 0.

Definition ping_from_1 : Message.t :=
  Message.Mk (MsgType_to_int PING) 0 1 2 3 7.

End MoreExamples.

(** * Vocabulary of the properties *)

Section BufferVocabulary.

Import MessageBuffer.

(** The array has [MAX_MSG_EVENTS_PER_TICK] slots and the fill level stays
    within it. *)
Definition buffer_wf (b : MessageBuffer.t) : Prop :=
  length (events_ b) = Z.to_nat MAX_MSG_EVENTS_PER_TICK
  /\ 0 <= count_ b <= MAX_MSG_EVENTS_PER_TICK.

(** The event [add_event] writes. *)
Definition event_of (tick type src_uid dst_uid : Z) (dropped is_recv : bool)
    : MessageEvent.t :=
  MessageEvent.Mk tick type src_uid dst_uid (int_of_bool dropped)
    (int_of_bool is_recv) (0, 0).

(** A receive event is never marked dropped; put the other way round, an
    event marked dropped is a send event. *)
Definition recv_not_dropped (e : MessageEvent.t) : Prop :=
  (MessageEvent.direction e = 1 -> MessageEvent.dropped e = 0)
  /\ (MessageEvent.dropped e <> 0 -> MessageEvent.direction e = 0).

End BufferVocabulary.

Section ProtocolVocabulary.
Context `{StdRandom}.

(** The spec's invariant on the election flags. *)
Definition waiting_excludes_election (n : Node) : Prop :=
  waiting_for_coordinator_ n = true -> election_active_ n = false.

(** The protocol variables of a peer, as opposed to its engine, buffers and
    traces. *)
Definition protocol_state (n : Node) :=
  (rank_ n, num_nodes_ n, uid_ n, cfg_ n, can_communicate_ n, leader_uid_ n,
   last_hb_tick_ n, election_active_ n, election_started_ n,
   waiting_for_coordinator_ n, ok_received_tick_ n, election_start_tick_ n).

End ProtocolVocabulary.

Section TransportVocabulary.
Context `{StdRandom}.

Import MessageBuffer.

(** The drop trial of [should_drop_outgoing]: one uniform draw [u] in
    [0, 1) compared with [p_drop], and no draw at all when [p_drop <= 0]. *)
Definition bernoulli_drop (n : Node) : bool :=
  negb (Qle_bool (p_drop (cfg_ n)) 0)
  && Qle_bool (fst (uniform_real (rng_ n))) (p_drop (cfg_ n)).


(** The receive event of message [m] in tick [tick]. *)
Definition recv_event (tick : Z) (m : Message.t) : MessageEvent.t :=
  event_of tick (Message.type m) (Message.src_uid m) (Message.dst_uid m)
    false true.


(** The recorded send events of type OK addressed to [to]. *)
Definition is_ok_reply_to (to : Z) (e : MessageEvent.t) : bool :=
  (MessageEvent.type e =? MsgType_to_int OK)
  && (MessageEvent.direction e =? 0)
  && (MessageEvent.dst_uid e =? to).

Definition ok_replies_to (to : Z) (n : Node) : nat :=
  length (List.filter (is_ok_reply_to to) (recorded (msg_buffer_ n))).

(** "Receiving [m] produces exactly one outbound OK event addressed to the
    sender of [m]". *)
Definition answered_with_one_ok (tick : Z) (m : Message.t) (n : Node)
    : Prop :=
  ok_replies_to (Message.src_uid m) (recv_one tick m n)
  = S (ok_replies_to (Message.src_uid m) n).

End TransportVocabulary.

(** The states a peer goes through: it is constructed, and then the worker
    loop injects a communication status, runs the phases and clears the two
    per-tick buffers.  Ticks, statuses and incoming messages are
    arbitrary. *)

Section ReachableStates.
Context `{StdRandom}.

Inductive reachable : Node -> Prop :=
  | reachable_new mpi_rank world_size num_nodes cfg n :
      Node_new mpi_rank world_size num_nodes cfg = inr n -> reachable n
  | reachable_set_can_communicate can n :
      reachable n -> reachable (set_can_communicate can n)
  | reachable_tick_begin tick n :
      reachable n -> reachable (tick_begin tick n)
  | reachable_tick_send fuel tick n n' :
      reachable n -> tick_send fuel tick n = Some n' -> reachable n'
  | reachable_tick_recv tick pending n :
      reachable n -> reachable (fst (tick_recv tick pending n))
  | reachable_tick_end tick n :
      reachable n -> reachable (tick_end tick n)
  | reachable_clear_message_buffer n :
      reachable n -> reachable (clear_message_buffer n)
  | reachable_clear_debug_messages n :
      reachable n -> reachable (clear_debug_messages n).

End ReachableStates.

Section PhaseVocabulary.
Context `{StdRandom}.

(** What a peer is, as opposed to what it believes: its topology, identity
    and configuration, and the communication status injected for the
    tick. *)
Definition identity_state (n : Node) :=
  (rank_ n, world_size_ n, num_nodes_ n, uid_ n, cfg_ n, can_communicate_ n).

(** [n'] has the identity of [n] and, if [n] cannot communicate, has sent
    nothing more than [n]. *)
Definition steady (n n' : Node) : Prop :=
  identity_state n' = identity_state n
  /\ (can_communicate_ n = false -> mpi_sent n' = mpi_sent n).

(** From [n] to [n'] the belief about the leader is kept or replaced by a
    UID that is not below the peer's own. *)
Definition leader_step (n n' : Node) : Prop :=
  (uid_ n' = uid_ n /\ num_nodes_ n' = num_nodes_ n)
  /\ (leader_uid_ n' = leader_uid_ n \/ uid_ n' <= leader_uid_ n').

(** The ELECTION message of peer [n] in tick [tick]. *)
Definition election_message (tick : Z) (n : Node) : Message.t :=
  Message.Mk (MsgType_to_int ELECTION) tick (uid_ n) (-1) (leader_uid_ n) 0.

(** The HEARTBEAT and COORDINATOR messages of peer [n] in tick [tick]. *)
Definition heartbeat_message (tick : Z) (n : Node) : Message.t :=
  Message.Mk (MsgType_to_int HEARTBEAT) tick (uid_ n) (-1) (uid_ n) 0.

Definition coordinator_message (tick : Z) (n : Node) : Message.t :=
  Message.Mk (MsgType_to_int COORDINATOR) tick (uid_ n) (-1) (uid_ n) 0.

(** A message to each rank of [rs]. *)
Definition to_each (rs : list Z) (m : Message.t) : list (Z * Message.t) :=
  map (fun r => (r, m)) rs.

(** The ranks a broadcast of [n] addresses. *)
Definition other_ranks (n : Node) : list Z :=
  List.filter (fun r => negb (r =? rank_ n)) (node_ranks n).

End PhaseVocabulary.

(** The sum of a list of counts. *)
Definition sum_counts (l : list Z) : Z := foldr Z.add 0 l.

Section FailureVocabulary.
Context `{StdRandom}.

(** [k] consecutive ticks of the network failure model, starting at tick
    [t]. *)
Fixpoint network_ticks (k : nat) (t : Z) (f : NetworkFailure.t)
    : option NetworkFailure.t :=
  match k with
  | O => Some f
  | S k =>
      match NetworkFailure.tick t f with
      | Some f => network_ticks k (t + 1) f
      | None => None
      end
  end.

(** Counters and configured durations are not negative. *)
Definition failure_wf (f : Failure.t) : Prop :=
  match f with
  | Failure.NoFailure => True
  | Failure.Network nf =>
      0 <= NetworkFailure.offline_remaining_ nf
      /\ Forall (fun d => 0 <= d)
           (offline_durations (NetworkFailure.cfg_ nf))
  | Failure.Crash cf =>
      0 <= CrashFailure.crashed_remaining_ cf
      /\ 0 <= CrashFailure.recovery_ticks_ cf
  end.

End FailureVocabulary.

(** * Properties *)

(** ** Construction *)

Section Construction.
Context `{StdRandom}.

(** C10.  Constructing a [Node] throws exactly when the rank is 0 or
    [world_size] differs from [num_nodes + 1]; a constructed peer believes
    that the highest UID, [num_nodes], leads and has seen no heartbeat
    ([last_hb_tick = -1]). *)
Theorem Node_new_throws_iff (mpi_rank world_size num_nodes : Z)
    (cfg : NodeConfig) :
  match Node_new mpi_rank world_size num_nodes cfg with
  | inl _ => mpi_rank = 0 \/ world_size <> num_nodes + 1
  | inr n =>
      (mpi_rank <> 0 /\ world_size = num_nodes + 1)
      /\ leader_uid_ n = num_nodes /\ last_hb_tick_ n = -1
  end.
Proof.
  unfold Node_new; cbn.
  destruct (Z.eqb_spec mpi_rank 0) as [E0|N0]; [now left|].
  destruct (Z.eqb_spec world_size (num_nodes + 1)) as [Ew|Nw]; cbn.
  - repeat split; assumption.
  - now right.
Qed.

(** The two exceptions, told apart by their message: the rank is tested
    first. *)
Lemma Node_new_what (mpi_rank world_size num_nodes : Z) (cfg : NodeConfig)
    (what : string) :
  Node_new mpi_rank world_size num_nodes cfg = inl what ->
  (mpi_rank = 0
   /\ what = "Node should not be constructed for controller rank 0")
  \/ (mpi_rank <> 0 /\ world_size <> num_nodes + 1
      /\ what = "world_size must equal num_nodes + 1").
Proof.
  unfold Node_new; cbn.
  destruct (Z.eqb_spec mpi_rank 0) as [E0|N0].
  - intros [= <-]; now left.
  - destruct (Z.eqb_spec world_size (num_nodes + 1)) as [Ew|Nw]; cbn.
    + discriminate.
    + intros [= <-]; right; repeat split; assumption.
Qed.

End Construction.

(** ** Phase END: the three timeout checks *)

Section Timeouts.
Context `{StdRandom}.

(** [debug_print] only touches the diagnostic buffer and [std::cout]. *)
Lemma debug_print_flags (tick : Z) (msg : string) (n : Node) :
  election_active_ (debug_print tick msg n) = election_active_ n
  /\ election_started_ (debug_print tick msg n) = election_started_ n
  /\ waiting_for_coordinator_ (debug_print tick msg n)
     = waiting_for_coordinator_ n.
Proof. unfold debug_print; cbn; destruct (debug (cfg_ n)); cbn; auto. Qed.

Lemma heartbeat_check_fired (tick : Z) (n : Node) :
  heartbeat_timed_out tick n = true ->
  let n1 := check_heartbeat_timeout tick n in
  election_active_ n1 = true /\ election_started_ n1 = false
  /\ waiting_for_coordinator_ n1 = false.
Proof.
  intros Hf; cbn zeta; unfold check_heartbeat_timeout; rewrite Hf.
  destruct (debug_print_flags tick
    "⏱ timeout: no heartbeat from leader, starting election"
    (set_election_started_ false (set_election_active_ true n)))
    as (-> & -> & ->); cbn.
  unfold heartbeat_timed_out in Hf.
  destruct (waiting_for_coordinator_ n); [|auto].
  rewrite !andb_false_r in Hf; discriminate.
Qed.

Lemma coordinator_check_fired (tick : Z) (n : Node) :
  coordinator_timed_out tick n = true ->
  let n2 := check_coordinator_timeout tick n in
  election_active_ n2 = true /\ election_started_ n2 = false.
Proof.
  intros Hf; cbn zeta; unfold check_coordinator_timeout; rewrite Hf.
  destruct (debug_print_flags tick
    "⏱ timeout: no COORDINATOR received, restarting election"
    (set_election_started_ false (set_election_active_ true
       (set_ok_received_tick_ (-1) (set_waiting_for_coordinator_ false n)))))
    as (-> & -> & _); cbn; auto.
Qed.

Lemma coordinator_check_idle (tick : Z) (n : Node) :
  coordinator_timed_out tick n = false ->
  check_coordinator_timeout tick n = n.
Proof. intros Hf; unfold check_coordinator_timeout; now rewrite Hf. Qed.

(** C5.  [tick_end] evaluates the leader-liveness check, then the
    COORDINATOR-wait check, then the victory check, each on the state the
    previous one left; whatever the peer's state, a check that fires
    disables the guards of the later ones, so at most one fires in a
    tick. *)
Theorem tick_end_at_most_one_check_fires (tick : Z) (n : Node) :
  let n1 := check_heartbeat_timeout tick n in
  let n2 := check_coordinator_timeout tick n1 in
  let fired1 := heartbeat_timed_out tick n in
  let fired2 := coordinator_timed_out tick n1 in
  let fired3 := election_timed_out tick n2 in
  tick_end tick n = check_election_timeout tick n2
  /\ (fired1 = true -> fired2 = false /\ fired3 = false)
  /\ (fired2 = true -> fired3 = false)
  /\ Z.b2z fired1 + Z.b2z fired2 + Z.b2z fired3 <= 1.
Proof.
  cbn zeta.
  assert (H1 : heartbeat_timed_out tick n = true ->
               coordinator_timed_out tick (check_heartbeat_timeout tick n)
               = false
               /\ election_timed_out tick
                    (check_coordinator_timeout tick
                       (check_heartbeat_timeout tick n)) = false).
  { intros Hf.
    destruct (heartbeat_check_fired tick n Hf) as (Ha & Hs & Hw).
    assert (Hc : coordinator_timed_out tick (check_heartbeat_timeout tick n)
                 = false)
      by (unfold coordinator_timed_out; now rewrite Hw).
    split; [exact Hc|].
    rewrite (coordinator_check_idle _ _ Hc).
    unfold election_timed_out; now rewrite Ha, Hs. }
  assert (H2 : coordinator_timed_out tick (check_heartbeat_timeout tick n)
               = true ->
               election_timed_out tick
                 (check_coordinator_timeout tick
                    (check_heartbeat_timeout tick n)) = false).
  { intros Hf.
    destruct (coordinator_check_fired tick _ Hf) as (Ha & Hs).
    unfold election_timed_out; now rewrite Ha, Hs. }
  split; [reflexivity|].
  split; [exact H1|].
  split; [exact H2|].
  destruct (heartbeat_timed_out tick n).
  - destruct (H1 eq_refl) as (-> & ->); cbn; lia.
  - destruct (coordinator_timed_out tick (check_heartbeat_timeout tick n)).
    + rewrite (H2 eq_refl); cbn; lia.
    + cbn. destruct (election_timed_out _ _); cbn; lia.
Qed.

End Timeouts.

(** ** The event buffer *)

Section Buffer.

Import MessageBuffer.

Lemma buffer_wf_new :
  buffer_wf (new (replicate (Z.to_nat MAX_MSG_EVENTS_PER_TICK) zero_event)).
Proof. split; [reflexivity|cbn; unfold MAX_MSG_EVENTS_PER_TICK; lia]. Qed.

Lemma buffer_wf_clear (b : MessageBuffer.t) : buffer_wf b -> buffer_wf (clear b).
Proof.
  intros [Hl _]; split; [exact Hl|cbn; unfold MAX_MSG_EVENTS_PER_TICK; lia].
Qed.

Lemma recorded_clear (b : MessageBuffer.t) : recorded (clear b) = [].
Proof. reflexivity. Qed.

Lemma add_event_full (tick type src_uid dst_uid : Z) (dropped is_recv : bool)
    (b : MessageBuffer.t) :
  MAX_MSG_EVENTS_PER_TICK <= count_ b ->
  add_event tick type src_uid dst_uid dropped is_recv b = b.
Proof.
  intros Hc; unfold add_event.
  destruct (Z.leb_spec MAX_MSG_EVENTS_PER_TICK (count_ b)); [reflexivity|lia].
Qed.

Lemma add_event_wf (tick type src_uid dst_uid : Z) (dropped is_recv : bool)
    (b : MessageBuffer.t) :
  buffer_wf b ->
  buffer_wf (add_event tick type src_uid dst_uid dropped is_recv b).
Proof.
  intros [Hl Hc]; unfold add_event.
  destruct (Z.leb_spec MAX_MSG_EVENTS_PER_TICK (count_ b)) as [Hfull|Hroom].
  - now split.
  - split; cbn.
    + now rewrite length_insert.
    + lia.
Qed.

Lemma add_event_recorded (tick type src_uid dst_uid : Z)
    (dropped is_recv : bool) (b : MessageBuffer.t) :
  buffer_wf b ->
  count_ b < MAX_MSG_EVENTS_PER_TICK ->
  recorded (add_event tick type src_uid dst_uid dropped is_recv b)
  = recorded b
    ++ [event_of tick type src_uid dst_uid dropped is_recv].
Proof.
  intros [Hl Hc] Hroom; unfold add_event, recorded, count.
  destruct (Z.leb_spec MAX_MSG_EVENTS_PER_TICK (count_ b)); [lia|]; cbn.
  replace (Z.to_nat (count_ b + 1)) with (S (Z.to_nat (count_ b))) by lia.
  assert (Hi : (Z.to_nat (count_ b) < length (events_ b))%nat)
    by (rewrite Hl; lia).
  rewrite (take_S_r _ _ (event_of tick type src_uid dst_uid dropped is_recv)).
  - now rewrite take_insert_ge by lia.
  - now apply list_lookup_insert_eq.
Qed.

Lemma recorded_length (b : MessageBuffer.t) :
  buffer_wf b -> Z.of_nat (length (recorded b)) = count_ b.
Proof.
  intros [Hl Hc]; unfold recorded, count.
  rewrite length_take, Hl; lia.
Qed.

End Buffer.

(** ** What every operation of the peer does to the event buffer

    The peer writes its buffer through [log_send] and [log_recv] only, so a
    property of buffers that both keep is kept by every phase of a tick. *)

Section BufferInvariant.
Context `{StdRandom}.
Variable P : MessageBuffer.t -> Prop.
Hypothesis P_log_send : forall tick m dst dropped b,
  P b -> P (MessageBuffer.log_send tick m dst dropped b).
Hypothesis P_log_recv : forall tick m b,
  P b -> P (MessageBuffer.log_recv tick m b).

Lemma debug_print_buffer (tick : Z) (msg : string) (n : Node) :
  msg_buffer_ (debug_print tick msg n) = msg_buffer_ n.
Proof. unfold debug_print; cbn; now destruct (debug (cfg_ n)). Qed.

Lemma should_drop_outgoing_buffer (n : Node) :
  msg_buffer_ (snd (should_drop_outgoing n)) = msg_buffer_ n.
Proof.
  unfold should_drop_outgoing.
  destruct (Qle_bool _ _); [reflexivity|].
  now destruct (uniform_real (rng_ n)).
Qed.

Lemma send_message_keeps (m : Message.t) (dst : Z) (dropped : bool)
    (n : Node) :
  P (msg_buffer_ n) -> P (msg_buffer_ (send_message m dst dropped n)).
Proof.
  intros HP; unfold send_message, MPI_Send.
  destruct (negb _); cbn; now apply P_log_send.
Qed.

Lemma broadcast_to_nodes_keeps (m : Message.t) (n : Node) :
  P (msg_buffer_ n) -> P (msg_buffer_ (broadcast_to_nodes m n)).
Proof.
  unfold broadcast_to_nodes.
  generalize (node_ranks n); intros rs; revert n.
  induction rs as [|r rs IH]; intros n HP; cbn; [exact HP|].
  apply IH.
  destruct (r =? rank_ n); [exact HP|now apply send_message_keeps].
Qed.

Lemma maybe_send_heartbeat_keeps (tick : Z) (n : Node) :
  P (msg_buffer_ n) -> P (msg_buffer_ (maybe_send_heartbeat tick n)).
Proof.
  intros HP; unfold maybe_send_heartbeat.
  repeat (match goal with |- context [if ?c then _ else _] => destruct c end;
          [exact HP|]).
  apply broadcast_to_nodes_keeps; now rewrite debug_print_buffer.
Qed.

Lemma start_election_step_keeps (tick : Z) (m : Message.t)
    (st : Node * bool) (r : Z) :
  P (msg_buffer_ (fst st)) ->
  P (msg_buffer_ (fst (start_election_step tick m st r))).
Proof.
  destruct st as [n sent_any]; cbn [fst]; intros HP.
  unfold start_election_step.
  destruct (uid_ n <? r); [|exact HP].
  pose proof (should_drop_outgoing_buffer n) as Hb.
  destruct (should_drop_outgoing n) as [dropped n1]; cbn [snd] in Hb.
  destruct (negb dropped); cbn [fst]; rewrite debug_print_buffer;
    apply send_message_keeps; now rewrite Hb.
Qed.

Lemma start_election_keeps (tick : Z) (n : Node) :
  P (msg_buffer_ n) -> P (msg_buffer_ (start_election tick n)).
Proof.
  intros HP; unfold start_election.
  set (n0 := set_election_start_tick_ tick (set_election_started_ true n)).
  set (m := Message.Mk _ _ _ _ _ _).
  assert (Hfold : forall rs st, P (msg_buffer_ (fst st)) ->
            P (msg_buffer_ (fst (fold_left (start_election_step tick m) rs st)))).
  { induction rs as [|r rs IH]; intros st Hst; cbn; [exact Hst|].
    apply IH; now apply start_election_step_keeps. }
  specialize (Hfold (node_ranks n0) (n0, false) HP).
  destruct (fold_left _ _ _) as [n1 sent_any]; cbn [fst] in Hfold.
  destruct (negb sent_any && _); [now rewrite debug_print_buffer|exact Hfold].
Qed.

Lemma handle_message_keeps (m : Message.t) (tick : Z) (n : Node) :
  P (msg_buffer_ n) -> P (msg_buffer_ (handle_message m tick n)).
Proof.
  intros HP; unfold handle_message.
  destruct (MsgType_of_int (Message.type m)) as [[]|]; try exact HP.
  - destruct (uid_ n <=? _); [|exact HP].
    now rewrite debug_print_buffer.
  - pose proof (should_drop_outgoing_buffer n) as Hb.
    destruct (should_drop_outgoing n) as [dropped n1]; cbn [snd] in Hb.
    assert (HP1 : P (msg_buffer_
              (send_message
                 (Message.Mk (MsgType_to_int OK) tick (uid_ n)
                    (Message.src_uid m) (leader_uid_ n) 0)
                 (Message.src_uid m) dropped n1)))
      by (apply send_message_keeps; now rewrite Hb).
    destruct (negb dropped);
      match goal with |- context [if ?c then _ else _] => destruct c end;
      rewrite ?debug_print_buffer; cbn; rewrite ?debug_print_buffer;
      exact HP1.
  - destruct (uid_ n <? _); [|exact HP].
    now rewrite debug_print_buffer.
  - destruct (uid_ n <=? _).
    + cbn; now rewrite debug_print_buffer.
    + match goal with |- context [if ?c then _ else _] => destruct c end;
        cbn; now rewrite debug_print_buffer.
  - pose proof (should_drop_outgoing_buffer n) as Hb.
    destruct (should_drop_outgoing n) as [dropped n1]; cbn [snd] in Hb.
    destruct (negb dropped); rewrite debug_print_buffer;
      apply send_message_keeps; now rewrite Hb.
Qed.

Lemma recv_one_keeps (tick : Z) (m : Message.t) (n : Node) :
  P (msg_buffer_ n) -> P (msg_buffer_ (recv_one tick m n)).
Proof.
  intros HP; unfold recv_one; cbn.
  destruct (can_communicate_ n).
  - apply handle_message_keeps; cbn; now apply P_log_recv.
  - cbn; now apply P_log_recv.
Qed.

Lemma drain_loop_keeps (tick drained : Z) (pending : list Message.t)
    (n : Node) :
  P (msg_buffer_ n) ->
  P (msg_buffer_ (fst (drain_loop tick drained pending n))).
Proof.
  revert drained n; induction pending as [|m pending IH];
    intros drained n HP; cbn.
  - now destruct (drained <? _).
  - destruct (drained <? _); [|exact HP].
    apply IH; now apply recv_one_keeps.
Qed.

Lemma random_peer_rank_loop_buffer (fuel : nat) (r : Z) (n : Node)
    (r' : Z) (n' : Node) :
  random_peer_rank_loop fuel r n = Some (r', n') ->
  msg_buffer_ n' = msg_buffer_ n.
Proof.
  revert r n; induction fuel as [|fuel IH]; intros r n; cbn.
  - destruct (r =? rank_ n); [discriminate|now intros [= _ <-]].
  - destruct (r =? rank_ n); [|now intros [= _ <-]].
    destruct (uniform_int _ _ _) as [r1 g]; intros Hl.
    now rewrite (IH _ _ Hl).
Qed.

Lemma maybe_send_random_ping_keeps (fuel : nat) (tick : Z) (n n' : Node) :
  maybe_send_random_ping fuel tick n = Some n' ->
  P (msg_buffer_ n) -> P (msg_buffer_ n').
Proof.
  unfold maybe_send_random_ping.
  destruct (Qle_bool (p_send (cfg_ n)) 0); [now intros [= <-]|].
  destruct (uniform_real (rng_ n)) as [u g]; cbn.
  destruct (Qle_bool (p_send (cfg_ n)) u); [now intros [= <-]|].
  unfold random_peer_rank.
  destruct (random_peer_rank_loop _ _ _) as [[d n1]|] eqn:Hr; [|discriminate].
  apply random_peer_rank_loop_buffer in Hr; cbn in Hr.
  set (n2 := set_next_msg_id _ n1).
  pose proof (should_drop_outgoing_buffer n2) as Hb.
  destruct (should_drop_outgoing n2) as [dropped n3]; cbn [snd] in Hb.
  intros Hn' HP.
  assert (HP3 : P (msg_buffer_ n3)) by (rewrite Hb; cbn; now rewrite Hr).
  destruct (negb dropped); injection Hn' as <-;
    rewrite debug_print_buffer; cbn; now apply send_message_keeps.
Qed.

Lemma tick_send_keeps (fuel : nat) (tick : Z) (n n' : Node) :
  tick_send fuel tick n = Some n' ->
  P (msg_buffer_ n) -> P (msg_buffer_ n').
Proof.
  unfold tick_send; intros Hs HP.
  eapply maybe_send_random_ping_keeps; [exact Hs|].
  destruct (_ && _).
  - now apply start_election_keeps, maybe_send_heartbeat_keeps.
  - now apply maybe_send_heartbeat_keeps.
Qed.

Lemma tick_recv_keeps (tick : Z) (pending : list Message.t) (n : Node) :
  P (msg_buffer_ n) -> P (msg_buffer_ (fst (tick_recv tick pending n))).
Proof. apply drain_loop_keeps. Qed.

Lemma tick_end_keeps (tick : Z) (n : Node) :
  P (msg_buffer_ n) -> P (msg_buffer_ (tick_end tick n)).
Proof.
  intros HP; unfold tick_end.
  assert (H1 : P (msg_buffer_ (check_heartbeat_timeout tick n))).
  { unfold check_heartbeat_timeout.
    destruct (heartbeat_timed_out tick n); [|exact HP].
    now rewrite debug_print_buffer. }
  assert (H2 : P (msg_buffer_ (check_coordinator_timeout tick
                                 (check_heartbeat_timeout tick n)))).
  { unfold check_coordinator_timeout.
    destruct (coordinator_timed_out tick _); [|exact H1].
    now rewrite debug_print_buffer. }
  unfold check_election_timeout.
  destruct (election_timed_out tick _); [|exact H2].
  rewrite debug_print_buffer.
  apply broadcast_to_nodes_keeps; now rewrite debug_print_buffer.
Qed.

End BufferInvariant.

(** ** Reachable peer states *)

Section Reachable.
Context `{StdRandom}.

Lemma Node_new_buffer mpi_rank world_size num_nodes cfg n :
  Node_new mpi_rank world_size num_nodes cfg = inr n ->
  msg_buffer_ n
  = MessageBuffer.new
      (replicate (Z.to_nat MAX_MSG_EVENTS_PER_TICK) zero_event).
Proof.
  unfold Node_new; cbn.
  destruct (mpi_rank =? 0); [discriminate|].
  destruct (negb _); [discriminate|].
  now intros [= <-].
Qed.

(** A property of buffers that holds of the fresh buffer and is kept by
    [log_send], [log_recv] and [clear] holds in every reachable state. *)
Lemma reachable_buffer (P : MessageBuffer.t -> Prop) :
  P (MessageBuffer.new
       (replicate (Z.to_nat MAX_MSG_EVENTS_PER_TICK) zero_event)) ->
  (forall tick m dst dropped b,
     P b -> P (MessageBuffer.log_send tick m dst dropped b)) ->
  (forall tick m b, P b -> P (MessageBuffer.log_recv tick m b)) ->
  (forall b, P b -> P (MessageBuffer.clear b)) ->
  forall n, reachable n -> P (msg_buffer_ n).
Proof.
  intros Hnew Hsend Hrecv Hclear n Hn.
  induction Hn as [r w N cfg n Hc | can n _ IH | tick n _ IH
                  | fuel tick n n' _ IH Hs | tick pending n _ IH
                  | tick n _ IH | n _ IH | n _ IH].
  - now rewrite (Node_new_buffer _ _ _ _ _ Hc).
  - exact IH.
  - exact IH.
  - exact (tick_send_keeps P Hsend fuel tick n n' Hs IH).
  - exact (tick_recv_keeps P Hsend Hrecv tick pending n IH).
  - exact (tick_end_keeps P Hsend tick n IH).
  - cbn; now apply Hclear.
  - exact IH.
Qed.

Lemma reachable_buffer_wf (n : Node) :
  reachable n -> buffer_wf (msg_buffer_ n).
Proof.
  apply (reachable_buffer buffer_wf).
  - exact buffer_wf_new.
  - intros; now apply add_event_wf.
  - intros; now apply add_event_wf.
  - exact buffer_wf_clear.
Qed.

(** The worker loop only visits reachable states. *)
Lemma worker_tick_reachable (fuel : nat) (t : Z) (arrivals : list Message.t)
    (w w' : Worker) (h : Harvest) :
  worker_tick fuel t arrivals w = Some (w', h) ->
  reachable (node w) ->
  reachable (node w')
  /\ exists n, reachable n
       /\ events h = MessageBuffer.recorded (msg_buffer_ n)
       /\ report h = make_state_report t n.
Proof.
  unfold worker_tick; intros Hw Hn.
  destruct (advance_failure t (failure w) (node w)) as [f|]; [|discriminate].
  destruct (tick_send _ _ _) as [n1|] eqn:Hs; [|discriminate].
  assert (Hn1 : reachable n1).
  { eapply reachable_tick_send; [|exact Hs].
    now apply reachable_tick_begin, reachable_set_can_communicate. }
  pose proof (reachable_tick_recv t (queue w ++ arrivals) n1 Hn1) as Hn2.
  destruct (tick_recv t (queue w ++ arrivals) n1) as [n2 pending].
  cbn [fst] in Hn2.
  pose proof (reachable_tick_end t n2 Hn2) as Hn3.
  injection Hw as <- <-; cbn; split.
  - now apply reachable_clear_debug_messages, reachable_clear_message_buffer.
  - exists (tick_end t n2); auto.
Qed.

Lemma worker_start_reachable rank world_size cfg ft sim_seed fcfg w :
  worker_start rank world_size cfg ft sim_seed fcfg = inr w ->
  reachable (node w).
Proof.
  unfold worker_start.
  destruct (Node_new _ _ _ _) as [what|n] eqn:Hc; [discriminate|].
  intros [= <-]; cbn; eapply reachable_new; exact Hc.
Qed.

Lemma worker_loop_reachable (fuel : nat) (arrivals : list (list Message.t)) :
  forall (t : Z) (w w' : Worker) (hs : list Harvest),
  worker_loop fuel t arrivals w = Some (w', hs) ->
  reachable (node w) ->
  reachable (node w')
  /\ Forall (fun h => exists n, reachable n
               /\ events h = MessageBuffer.recorded (msg_buffer_ n)) hs.
Proof.
  induction arrivals as [|a arrivals IH]; intros t w w' hs; cbn.
  - intros [= <- <-] Hn; split; [exact Hn|constructor].
  - destruct (worker_tick fuel t a w) as [[w1 h]|] eqn:Ht; [|discriminate].
    destruct (worker_loop fuel (t + 1) arrivals w1) as [[w2 hs2]|] eqn:Hl;
      [|discriminate].
    intros [= <- <-] Hn.
    destruct (worker_tick_reachable _ _ _ _ _ _ Ht Hn)
      as (Hn1 & n & Hrn & He & _).
    destruct (IH _ _ _ _ Hl Hn1) as (Hn2 & Hhs).
    split; [exact Hn2|].
    constructor; [now exists n|exact Hhs].
Qed.

End Reachable.

(** ** The bound on recorded events, and receive events *)

Section EventBound.
Context `{StdRandom}.

Import MessageBuffer.

(** C6.  In every reachable state the peer's buffer holds at most
    [MAX_MSG_EVENTS_PER_TICK] = 32 events, and so does the buffer after any
    further [add_event]; an event added to a full buffer is discarded: the
    call returns the buffer as it was. *)
Theorem event_buffer_bounded (n : Node) :
  reachable n ->
  MAX_MSG_EVENTS_PER_TICK = 32
  /\ count (msg_buffer_ n) <= 32
  /\ Z.of_nat (length (recorded (msg_buffer_ n))) <= 32
  /\ forall tick type src_uid dst_uid dropped is_recv,
       let b' := add_event tick type src_uid dst_uid dropped is_recv
                   (msg_buffer_ n) in
       Z.of_nat (length (recorded b')) <= 32
       /\ (count (msg_buffer_ n) = 32 -> b' = msg_buffer_ n).
Proof.
  intros Hn; pose proof (reachable_buffer_wf n Hn) as Hwf.
  split; [reflexivity|].
  pose proof Hwf as [_ Hc]; unfold MAX_MSG_EVENTS_PER_TICK in Hc.
  split; [unfold count; lia|].
  split; [rewrite (recorded_length _ Hwf); lia|].
  intros tick type src_uid dst_uid dropped is_recv; cbn zeta; split.
  - pose proof (add_event_wf tick type src_uid dst_uid dropped is_recv _ Hwf)
      as Hwf'.
    rewrite (recorded_length _ Hwf').
    destruct Hwf' as [_ Hc']; unfold MAX_MSG_EVENTS_PER_TICK in Hc'; lia.
  - unfold count; intros Hfull; apply add_event_full.
    unfold MAX_MSG_EVENTS_PER_TICK; lia.
Qed.

(** Seen from the controller: no harvest of a worker carries more than 32
    events. *)
Lemma worker_loop_event_bound (fuel : nat) (arrivals : list (list Message.t))
    (t : Z) (w w' : Worker) (hs : list Harvest) :
  worker_loop fuel t arrivals w = Some (w', hs) ->
  reachable (node w) ->
  Forall (fun h => Z.of_nat (length (events h)) <= 32) hs.
Proof.
  intros Hl Hn.
  destruct (worker_loop_reachable _ _ _ _ _ _ Hl Hn) as [_ Hhs].
  eapply Forall_impl; [exact Hhs|].
  intros h (n & Hrn & ->); cbn.
  pose proof (reachable_buffer_wf n Hrn) as Hwf.
  rewrite (recorded_length _ Hwf).
  destruct Hwf as [_ Hc]; unfold MAX_MSG_EVENTS_PER_TICK in Hc; lia.
Qed.

End EventBound.

Lemma event_buffer_bounded_witness :
  reachable leader_of_40
  /\ MessageBuffer.count (msg_buffer_ leader_of_40) = 32
  /\ MessageBuffer.count (msg_buffer_ leader_of_40) <= 32.
Proof.
  assert (Hr : reachable leader_of_40).
  { apply (reachable_tick_send 0 0 (constructed 40 40 quiet_cfg)).
    - apply (reachable_new 40 41 40 quiet_cfg); vm_compute; reflexivity.
    - vm_compute; reflexivity. }
  split; [exact Hr|].
  split; [vm_compute; reflexivity|].
  exact (proj1 (proj2 (event_buffer_bounded leader_of_40 Hr))).
Defined.

Section ReceiveEvents.
Context `{StdRandom}.

Import MessageBuffer.

Lemma add_event_recorded_cases (tick type src_uid dst_uid : Z)
    (dropped is_recv : bool) (b : MessageBuffer.t) :
  buffer_wf b ->
  recorded (add_event tick type src_uid dst_uid dropped is_recv b)
  = recorded b
  \/ recorded (add_event tick type src_uid dst_uid dropped is_recv b)
     = recorded b ++ [event_of tick type src_uid dst_uid dropped is_recv].
Proof.
  intros Hwf.
  destruct (Z_lt_le_dec (count_ b) MAX_MSG_EVENTS_PER_TICK) as [Hroom|Hfull].
  - right; now apply add_event_recorded.
  - left; now rewrite add_event_full.
Qed.

Lemma add_event_recv_not_dropped (tick type src_uid dst_uid : Z)
    (dropped is_recv : bool) (b : MessageBuffer.t) :
  (is_recv = true -> dropped = false) ->
  buffer_wf b /\ Forall recv_not_dropped (recorded b) ->
  buffer_wf (add_event tick type src_uid dst_uid dropped is_recv b)
  /\ Forall recv_not_dropped
       (recorded (add_event tick type src_uid dst_uid dropped is_recv b)).
Proof.
  intros Hflag [Hwf Hall]; split; [now apply add_event_wf|].
  destruct (add_event_recorded_cases tick type src_uid dst_uid dropped
              is_recv b Hwf) as [-> | ->]; [exact Hall|].
  apply Forall_app; split; [exact Hall|].
  constructor; [|constructor].
  unfold recv_not_dropped, event_of; cbn.
  destruct is_recv, dropped; cbn; split; intros; try lia;
    try (specialize (Hflag eq_refl); discriminate).
Qed.

(** C9.  In every reachable state each recorded receive event carries
    [dropped = 0] (an event with [dropped <> 0] is a send event).  A message
    drained while [can_communicate] is false is logged by [log_recv], which
    passes [dropped = false], and is then discarded: the peer's state changes
    in its event buffer only. *)
Theorem recv_events_never_dropped (n : Node) :
  reachable n ->
  Forall recv_not_dropped (recorded (msg_buffer_ n))
  /\ forall tick m,
       Forall recv_not_dropped (recorded (msg_buffer_ (recv_one tick m n)))
       /\ (can_communicate_ n = false ->
           recv_one tick m n
           = set_msg_buffer_
               (add_event tick (Message.type m) (Message.src_uid m)
                  (Message.dst_uid m) false true (msg_buffer_ n)) n)
       /\ (can_communicate_ n = false ->
           count (msg_buffer_ n) < 32 ->
           recorded (msg_buffer_ (recv_one tick m n))
           = recorded (msg_buffer_ n)
             ++ [MessageEvent.Mk tick (Message.type m) (Message.src_uid m)
                   (Message.dst_uid m) 0 1 (0, 0)]).
Proof.
  intros Hn.
  assert (Hinv : forall n', reachable n' ->
            buffer_wf (msg_buffer_ n')
            /\ Forall recv_not_dropped (recorded (msg_buffer_ n'))).
  { apply (reachable_buffer
             (fun b => buffer_wf b /\ Forall recv_not_dropped (recorded b))).
    - split; [exact buffer_wf_new|constructor].
    - intros; now apply add_event_recv_not_dropped.
    - intros; now apply add_event_recv_not_dropped.
    - intros b [Hwf _]; split; [now apply buffer_wf_clear|constructor]. }
  split; [exact (proj2 (Hinv n Hn))|].
  intros tick m; split; [|split].
  - refine (proj2 (recv_one_keeps
               (fun b => buffer_wf b /\ Forall recv_not_dropped (recorded b))
               _ _ tick m n (Hinv n Hn)));
      intros; now apply add_event_recv_not_dropped.
  - intros Hcan; unfold recv_one, log_recv; cbn; now rewrite Hcan.
  - intros Hcan Hroom; unfold recv_one, log_recv; cbn; rewrite Hcan; cbn.
    apply add_event_recorded; [exact (proj1 (Hinv n Hn))|].
    unfold count in Hroom; unfold MAX_MSG_EVENTS_PER_TICK; lia.
Qed.

End ReceiveEvents.

Lemma recv_events_never_dropped_witness :
  reachable offline_peer
  /\ can_communicate_ offline_peer = false
  /\ MessageBuffer.recorded
       (msg_buffer_ (recv_one 6 election_from_1 offline_peer))
     = [MessageEvent.Mk 6 2 1 (-1) 0 1 (0, 0)].
Proof.
  assert (Hr : reachable offline_peer).
  { apply reachable_set_can_communicate.
    apply (reachable_new 2 4 3 quiet_cfg); vm_compute; reflexivity. }
  split; [exact Hr|].
  split; [reflexivity|].
  exact (proj2 (proj2 (proj2 (recv_events_never_dropped offline_peer Hr)
                         6 election_from_1))
           eq_refl ltac:(vm_compute; reflexivity)).
Defined.

(** ** The transport: drop trials, send events and the wire *)

Section Transport.
Context `{StdRandom}.

Import MessageBuffer.

Lemma should_drop_outgoing_spec (n : Node) :
  should_drop_outgoing n
  = (bernoulli_drop n,
     if Qle_bool (p_drop (cfg_ n)) 0 then n
     else set_rng_ (snd (uniform_real (rng_ n))) n).
Proof.
  unfold should_drop_outgoing, bernoulli_drop.
  destruct (Qle_bool (p_drop (cfg_ n)) 0); [reflexivity|].
  now destruct (uniform_real (rng_ n)).
Qed.

(** A drop trial leaves everything but the engine as it was. *)
Lemma should_drop_outgoing_frame (n : Node) :
  let n' := snd (should_drop_outgoing n) in
  msg_buffer_ n' = msg_buffer_ n /\ mpi_sent n' = mpi_sent n
  /\ can_communicate_ n' = can_communicate_ n /\ cfg_ n' = cfg_ n
  /\ uid_ n' = uid_ n /\ leader_uid_ n' = leader_uid_ n.
Proof.
  rewrite should_drop_outgoing_spec; cbn.
  destruct (Qle_bool _ _); cbn; auto 6.
Qed.

Lemma bernoulli_drop_ext (n n' : Node) :
  cfg_ n' = cfg_ n -> rng_ n' = rng_ n ->
  bernoulli_drop n' = bernoulli_drop n.
Proof. unfold bernoulli_drop; now intros -> ->. Qed.

Lemma send_message_buffer (m : Message.t) (dst : Z) (dropped : bool)
    (n : Node) :
  msg_buffer_ (send_message m dst dropped n)
  = log_send (Message.tick m) m dst (dropped || negb (can_communicate_ n))
      (msg_buffer_ n).
Proof. unfold send_message, MPI_Send; now destruct (negb _). Qed.

Lemma send_message_mpi_sent (m : Message.t) (dst : Z) (dropped : bool)
    (n : Node) :
  mpi_sent (send_message m dst dropped n)
  = mpi_sent n
    ++ (if dropped || negb (can_communicate_ n) then [] else [(dst, m)]).
Proof.
  unfold send_message, MPI_Send.
  destruct (dropped || negb (can_communicate_ n)); cbn;
    [now rewrite app_nil_r|reflexivity].
Qed.

Lemma send_message_frame (m : Message.t) (dst : Z) (dropped : bool)
    (n : Node) :
  let n' := send_message m dst dropped n in
  rank_ n' = rank_ n /\ can_communicate_ n' = can_communicate_ n
  /\ cfg_ n' = cfg_ n /\ rng_ n' = rng_ n.
Proof. unfold send_message, MPI_Send; now destruct (negb _). Qed.


(** The loop of [broadcast_to_nodes] over the ranks [rs], on the wire: the
    message goes to every rank of [rs] other than the sender's, in order,
    when the peer can communicate, and to nobody otherwise. *)
Lemma broadcast_fold_wire (m : Message.t) (rs : list Z) :
  forall n : Node,
  mpi_sent
    (fold_left
       (fun n r => if r =? rank_ n then n else send_message m r false n)
       rs n)
  = mpi_sent n
    ++ (if can_communicate_ n
        then to_each (List.filter (fun r => negb (r =? rank_ n)) rs) m
        else []).
Proof.
  induction rs as [|r rs IH]; intros n; cbn [fold_left List.filter].
  - cbn; destruct (can_communicate_ n); now rewrite app_nil_r.
  - destruct (r =? rank_ n) eqn:Er; cbn [negb]; [apply IH|].
    rewrite IH, send_message_mpi_sent.
    destruct (send_message_frame m r false n) as (-> & -> & _).
    destruct (can_communicate_ n); cbn; [|now rewrite !app_nil_r].
    now rewrite <- app_assoc.
Qed.

Lemma broadcast_wire (m : Message.t) (n : Node) :
  mpi_sent (broadcast_to_nodes m n)
  = mpi_sent n
    ++ (if can_communicate_ n then to_each (other_ranks n) m else []).
Proof. apply broadcast_fold_wire. Qed.



End Transport.

Section Emission.
Context `{StdRandom}.

Import MessageBuffer.


Lemma handle_message_election_buffer (m : Message.t) (tick : Z) (n : Node) :
  Message.type m = MsgType_to_int ELECTION ->
  msg_buffer_ (handle_message m tick n)
  = log_send tick
      (Message.Mk (MsgType_to_int OK) tick (uid_ n) (Message.src_uid m)
         (leader_uid_ n) 0)
      (Message.src_uid m)
      (bernoulli_drop n || negb (can_communicate_ n)) (msg_buffer_ n).
Proof.
  intros Ht; unfold handle_message; rewrite Ht; cbn [MsgType_to_int
    MsgType_of_int].
  destruct (should_drop_outgoing_frame n) as (Hb & _ & Hcan & _).
  cbn zeta in Hb, Hcan.
  rewrite (surjective_pairing (should_drop_outgoing n)).
  replace (fst (should_drop_outgoing n)) with (bernoulli_drop n)
    by now rewrite should_drop_outgoing_spec.
  destruct (negb (bernoulli_drop n));
    match goal with |- context [if ?c then _ else _] => destruct c end;
    cbn; rewrite ?debug_print_buffer; cbn; rewrite ?debug_print_buffer;
    now rewrite send_message_buffer, Hb, Hcan.
Qed.

(** C3, as the code has it.  An ELECTION message drained while the peer can
    communicate is answered with exactly one OK send event addressed to its
    sender, recorded in the same tick right after the receive event, as long
    as the buffer has room for both events; its [dropped] flag is the
    outcome of the drop trial.  While the peer cannot communicate the
    message is not handled and no OK event is produced. *)
Theorem election_answered_when_online (tick : Z) (m : Message.t) (n : Node) :
  buffer_wf (msg_buffer_ n) ->
  Message.type m = MsgType_to_int ELECTION ->
  (can_communicate_ n = true ->
   count (msg_buffer_ n) + 2 <= 32 ->
   recorded (msg_buffer_ (recv_one tick m n))
   = recorded (msg_buffer_ n)
     ++ [recv_event tick m;
         MessageEvent.Mk tick (MsgType_to_int OK) (uid_ n)
           (Message.src_uid m) (int_of_bool (bernoulli_drop n)) 0 (0, 0)]
   /\ answered_with_one_ok tick m n)
  /\ (can_communicate_ n = false ->
      ok_replies_to (Message.src_uid m) (recv_one tick m n)
      = ok_replies_to (Message.src_uid m) n).
Proof.
  intros Hwf Ht.
  assert (Hrecv : is_ok_reply_to (Message.src_uid m) (recv_event tick m)
                  = false)
    by (unfold is_ok_reply_to, recv_event, event_of; cbn;
        now rewrite andb_false_r).
  split.
  - intros Hcan Hroom.
    assert (Hrec : recorded (msg_buffer_ (recv_one tick m n))
              = recorded (msg_buffer_ n)
                ++ [recv_event tick m;
                    MessageEvent.Mk tick (MsgType_to_int OK) (uid_ n)
                      (Message.src_uid m) (int_of_bool (bernoulli_drop n)) 0
                      (0, 0)]).
    { unfold recv_one; cbn; rewrite Hcan.
      set (n1 := set_msg_buffer_ _ n).
      rewrite (handle_message_election_buffer m tick n1 Ht).
      assert (Hwf1 : buffer_wf (msg_buffer_ n1))
        by (cbn; now apply add_event_wf).
      assert (Hrec1 : recorded (msg_buffer_ n1)
                      = recorded (msg_buffer_ n) ++ [recv_event tick m]).
      { cbn; unfold log_recv, recv_event; apply add_event_recorded;
          [exact Hwf|unfold count in Hroom; unfold MAX_MSG_EVENTS_PER_TICK;
                     lia]. }
      assert (Hc1 : count_ (msg_buffer_ n1) = count_ (msg_buffer_ n) + 1).
      { pose proof (recorded_length _ Hwf1) as L1.
        pose proof (recorded_length _ Hwf) as L0.
        rewrite Hrec1, length_app in L1; cbn [length] in L1; lia. }
      unfold log_send; rewrite add_event_recorded;
        [|exact Hwf1
         |unfold count in Hroom; unfold MAX_MSG_EVENTS_PER_TICK; lia].
      rewrite Hrec1, <- app_assoc; cbn [app]; do 3 f_equal.
      unfold event_of; cbn.
      replace (bernoulli_drop n1) with (bernoulli_drop n)
        by (symmetry; now apply bernoulli_drop_ext).
      now rewrite Hcan, orb_false_r. }
    split; [exact Hrec|].
    unfold answered_with_one_ok, ok_replies_to; rewrite Hrec.
    rewrite List.filter_app, length_app; cbn [List.filter].
    rewrite Hrecv.
    unfold is_ok_reply_to at 2; cbn.
    rewrite Z.eqb_refl; cbn; lia.
  - intros Hcan; unfold ok_replies_to, recv_one; cbn; rewrite Hcan; cbn.
    unfold log_recv.
    destruct (add_event_recorded_cases tick (Message.type m)
                (Message.src_uid m) (Message.dst_uid m) false true
                (msg_buffer_ n) Hwf) as [-> | ->]; [reflexivity|].
    rewrite List.filter_app, length_app; cbn [List.filter].
    fold (recv_event tick m); rewrite Hrecv; cbn; lia.
Qed.

End Emission.



Lemma election_answered_when_online_witness :
  buffer_wf (msg_buffer_ (constructed 2 3 quiet_cfg))
  /\ Message.type election_from_1 = MsgType_to_int ELECTION
  /\ can_communicate_ (constructed 2 3 quiet_cfg) = true
  /\ answered_with_one_ok 6 election_from_1 (constructed 2 3 quiet_cfg).
Proof.
  assert (Hwf : buffer_wf (msg_buffer_ (constructed 2 3 quiet_cfg)))
    by (split; [reflexivity|vm_compute; split; discriminate]).
  split; [exact Hwf|].
  split; [reflexivity|].
  split; [reflexivity|].
  exact (proj2 (proj1 (election_answered_when_online 6 election_from_1
                         (constructed 2 3 quiet_cfg) Hwf eq_refl)
                  eq_refl ltac:(vm_compute; discriminate))).
Defined.

(** C3 fails as stated: peer 2, reachable and offline, drains the ELECTION
    of peer 1 and records no OK event. *)
Lemma election_unanswered_when_offline :
  reachable offline_peer
  /\ Message.type election_from_1 = MsgType_to_int ELECTION
  /\ ~ answered_with_one_ok 6 election_from_1 offline_peer.
Proof.
  split; [|split].
  - apply reachable_set_can_communicate.
    apply (reachable_new 2 4 3 quiet_cfg); vm_compute; reflexivity.
  - reflexivity.
  - unfold answered_with_one_ok; vm_compute; discriminate.
Qed.

(** ** The network failure model *)

Section NetworkFailureModel.
Context `{StdRandom}.

Import NetworkFailure.

(** C7, as the code has it.  While the residual counter is positive, a tick
    decrements it and draws nothing; the peer is then offline exactly when
    the counter was above 1, since [can_communicate] reports whether the
    counter is 0 after the decrement.  Otherwise one uniform draw is compared
    with [p_fail * leader_fail_multiplier] if the model was told the peer
    leads and with [p_fail] if not; on success an index is drawn from the
    categorical over [offline_weights] and [offline_durations[idx]] becomes
    the counter.  The worker loop tells the model whether the peer believes
    itself leader before every tick. *)
Theorem network_failure_tick (t : Z) (f : NetworkFailure.t) :
  (0 < offline_remaining_ f ->
   exists f',
     tick t f = Some f'
     /\ offline_remaining_ f' = offline_remaining_ f - 1
     /\ rng_ f' = rng_ f
     /\ (can_communicate f' = false <-> 1 < offline_remaining_ f))
  /\ (offline_remaining_ f <= 0 ->
      let p := if is_leader_ f
               then (p_fail (cfg_ f) * leader_fail_multiplier (cfg_ f))%Q
               else p_fail (cfg_ f) in
      let u := fst (uniform_real (rng_ f)) in
      let g1 := snd (uniform_real (rng_ f)) in
      let idx := fst (discrete (offline_weights (cfg_ f)) g1) in
      let g2 := snd (discrete (offline_weights (cfg_ f)) g1) in
      if Qlt_bool u p then
        match vector_at (offline_durations (cfg_ f)) idx with
        | Some d =>
            exists f', tick t f = Some f'
              /\ offline_remaining_ f' = d /\ rng_ f' = g2
        | None => tick t f = None
        end
      else
        exists f', tick t f = Some f'
          /\ offline_remaining_ f' = offline_remaining_ f /\ rng_ f' = g1)
  /\ (forall n : Node,
        advance_failure t (Failure.Network f) n
        = Failure.Network
            <$> tick t (set_is_leader (leader_uid n =? uid n) f))
  /\ (forall b, is_leader_ (set_is_leader b f) = b).
Proof.
  split; [|split; [|split]].
  - intros Hpos; unfold tick.
    destruct (Z.ltb_spec 0 (offline_remaining_ f)) as [_|]; [|lia].
    eexists; split; [reflexivity|]; cbn.
    repeat split; try reflexivity.
    + unfold can_communicate; cbn; intros Hc.
      apply Z.eqb_neq in Hc; lia.
    + unfold can_communicate; cbn; intros Hc.
      apply Z.eqb_neq; lia.
  - intros Hzero; cbn zeta; unfold tick.
    destruct (Z.ltb_spec 0 (offline_remaining_ f)) as [|_]; [lia|].
    destruct (uniform_real (rng_ f)) as [u g1]; cbn [fst snd].
    destruct (Qlt_bool u _).
    + destruct (discrete (offline_weights (cfg_ f)) g1) as [idx g2];
        cbn [fst snd].
      destruct (vector_at _ idx) as [d|]; [|reflexivity].
      eexists; split; [reflexivity|]; cbn; auto.
    + eexists; split; [reflexivity|]; cbn; auto.
  - reflexivity.
  - reflexivity.
Qed.

End NetworkFailureModel.

Lemma network_failure_tick_witness :
  0 < NetworkFailure.offline_remaining_ (offline_for 2)
  /\ exists f',
       NetworkFailure.tick 7 (offline_for 2) = Some f'
       /\ NetworkFailure.offline_remaining_ f' = 1
       /\ NetworkFailure.can_communicate f' = false.
Proof.
  split; [reflexivity|].
  destruct (proj1 (network_failure_tick 7 (offline_for 2)) eq_refl)
    as (f' & Ht & Hrem & _ & Hcan).
  exists f'; split; [exact Ht|]; split; [exact Hrem|].
  apply (proj2 Hcan); reflexivity.
Defined.

(** C7 fails as stated: with one offline tick left, the tick decrements the
    counter to 0 and the peer is online again in that very tick. *)
Lemma network_failure_back_online :
  0 < NetworkFailure.offline_remaining_ (offline_for 1)
  /\ exists f',
       NetworkFailure.tick 7 (offline_for 1) = Some f'
       /\ NetworkFailure.offline_remaining_ f' = 0
       /\ NetworkFailure.can_communicate f' = true.
Proof.
  split; [reflexivity|].
  eexists; split; [reflexivity|]; split; reflexivity.
Qed.

(** ** The election flags *)

(** Split an equation between two [protocol_state]s into its fields. *)
Ltac protocol_fields E :=
  unfold protocol_state in E;
  injection E as ?Hrank ?Hnum ?Huid ?Hcfg ?Hcan ?Hleader ?Hlast ?Hactive
    ?Hstarted ?Hwaiting ?Hokt ?Hest.

Section ElectionFlags.
Context `{StdRandom}.

Lemma debug_print_protocol (tick : Z) (msg : string) (n : Node) :
  protocol_state (debug_print tick msg n) = protocol_state n.
Proof. unfold debug_print; cbn; now destruct (debug (cfg_ n)). Qed.

Lemma should_drop_outgoing_protocol (n : Node) :
  protocol_state (snd (should_drop_outgoing n)) = protocol_state n.
Proof.
  rewrite should_drop_outgoing_spec; cbn; now destruct (Qle_bool _ _).
Qed.

Lemma send_message_protocol (m : Message.t) (dst : Z) (dropped : bool)
    (n : Node) :
  protocol_state (send_message m dst dropped n) = protocol_state n.
Proof. unfold send_message, MPI_Send; now destruct (negb _). Qed.

Lemma broadcast_to_nodes_protocol (m : Message.t) (n : Node) :
  protocol_state (broadcast_to_nodes m n) = protocol_state n.
Proof.
  unfold broadcast_to_nodes.
  generalize (node_ranks n); intros rs; revert n.
  induction rs as [|r rs IH]; intros n; cbn; [reflexivity|].
  rewrite IH.
  destruct (r =? rank_ n); [reflexivity|apply send_message_protocol].
Qed.

Lemma start_election_step_protocol (tick : Z) (m : Message.t)
    (st : Node * bool) (r : Z) :
  protocol_state (fst (start_election_step tick m st r))
  = protocol_state (fst st).
Proof.
  destruct st as [n sent_any]; unfold start_election_step; cbn [fst].
  destruct (uid_ n <? r); [|reflexivity].
  pose proof (should_drop_outgoing_protocol n) as Hp.
  destruct (should_drop_outgoing n) as [dropped n1]; cbn [snd] in Hp.
  destruct (negb dropped); cbn [fst];
    now rewrite debug_print_protocol, send_message_protocol.
Qed.

Lemma start_election_protocol (tick : Z) (n : Node) :
  protocol_state (start_election tick n)
  = protocol_state (set_election_start_tick_ tick
                      (set_election_started_ true n)).
Proof.
  unfold start_election.
  set (n0 := set_election_start_tick_ tick (set_election_started_ true n)).
  set (m := Message.Mk _ _ _ _ _ _).
  assert (Hfold : forall rs st,
            protocol_state (fst (fold_left (start_election_step tick m) rs st))
            = protocol_state (fst st)).
  { induction rs as [|r rs IH]; intros st; cbn; [reflexivity|].
    now rewrite IH, start_election_step_protocol. }
  specialize (Hfold (node_ranks n0) (n0, false)).
  destruct (fold_left _ _ _) as [n1 sent_any]; cbn [fst] in Hfold.
  destruct (negb sent_any && _); [now rewrite debug_print_protocol|exact Hfold].
Qed.

(** Entry into the waiting state: an OK from a higher UID clears both
    election flags and stamps the tick. *)
Lemma handle_message_ok_enters_waiting (m : Message.t) (tick : Z) (n : Node) :
  Message.type m = MsgType_to_int OK ->
  uid_ n < Message.src_uid m ->
  let n' := handle_message m tick n in
  waiting_for_coordinator_ n' = true /\ election_active_ n' = false
  /\ election_started_ n' = false /\ ok_received_tick_ n' = tick.
Proof.
  intros Ht Hlt; cbn zeta; unfold handle_message; rewrite Ht; cbn.
  destruct (Z.ltb_spec (uid_ n) (Message.src_uid m)) as [_|]; [|lia].
  match goal with |- context [debug_print ?t ?s ?x] =>
    pose proof (debug_print_protocol t s x) as E end.
  protocol_fields E; cbn in *; auto.
Qed.

(** Every message but ELECTION keeps [waiting_excludes_election]. *)
Lemma handle_message_keeps_waiting_excludes_election (m : Message.t)
    (tick : Z) (n : Node) :
  MsgType_of_int (Message.type m) <> Some ELECTION ->
  waiting_excludes_election n ->
  waiting_excludes_election (handle_message m tick n).
Proof.
  intros Hne Hinv; unfold handle_message, waiting_excludes_election in *.
  destruct (MsgType_of_int (Message.type m)) as [[]|]; try exact Hinv;
    try congruence.
  - destruct (uid_ n <=? _); [|exact Hinv].
    match goal with |- context [debug_print ?t ?s ?x] =>
      pose proof (debug_print_protocol t s x) as E end.
    protocol_fields E; cbn in *; congruence.
  - destruct (uid_ n <? _); [|exact Hinv].
    match goal with |- context [debug_print ?t ?s ?x] =>
      pose proof (debug_print_protocol t s x) as E end.
    protocol_fields E; cbn in *; congruence.
  - destruct (uid_ n <=? _); cbn; [congruence|].
    match goal with |- context [debug_print ?t ?s ?x] =>
      pose proof (debug_print_protocol t s x) as E end.
    protocol_fields E; rewrite Hactive, Hwaiting.
    destruct (election_active_ n), (waiting_for_coordinator_ n); cbn;
      rewrite ?Hactive, ?Hwaiting.
    all: first [exact Hinv|congruence].
  - pose proof (should_drop_outgoing_protocol n) as Hp.
    destruct (should_drop_outgoing n) as [dropped n1]; cbn [snd] in Hp.
    cbn [Message.dst_uid MsgType_to_int].
    match goal with |- context [send_message ?a ?b ?c ?x] =>
      pose proof (send_message_protocol a b c x) as Es end.
    rewrite Hp in Es.
    destruct (negb dropped);
      match goal with |- context [debug_print ?t ?s ?x] =>
        pose proof (debug_print_protocol t s x) as E end;
      rewrite Es in E; protocol_fields E; rewrite Hactive, Hwaiting;
      exact Hinv.
Qed.

Lemma maybe_send_heartbeat_protocol (tick : Z) (n : Node) :
  protocol_state (maybe_send_heartbeat tick n) = protocol_state n.
Proof.
  unfold maybe_send_heartbeat.
  repeat (match goal with |- context [if ?c then _ else _] => destruct c end;
          [reflexivity|]).
  now rewrite broadcast_to_nodes_protocol, debug_print_protocol.
Qed.

Lemma random_peer_rank_loop_protocol (fuel : nat) (r : Z) (n : Node)
    (r' : Z) (n' : Node) :
  random_peer_rank_loop fuel r n = Some (r', n') ->
  protocol_state n' = protocol_state n.
Proof.
  revert r n; induction fuel as [|fuel IH]; intros r n; cbn.
  - destruct (r =? rank_ n); [discriminate|now intros [= _ <-]].
  - destruct (r =? rank_ n); [|now intros [= _ <-]].
    destruct (uniform_int _ _ _) as [r1 g]; intros Hl.
    now rewrite (IH _ _ Hl).
Qed.

Lemma maybe_send_random_ping_protocol (fuel : nat) (tick : Z) (n n' : Node) :
  maybe_send_random_ping fuel tick n = Some n' ->
  protocol_state n' = protocol_state n.
Proof.
  unfold maybe_send_random_ping.
  destruct (Qle_bool (p_send (cfg_ n)) 0); [now intros [= <-]|].
  destruct (uniform_real (rng_ n)) as [u g].
  set (n0 := set_rng_ g n).
  assert (H0 : protocol_state n0 = protocol_state n) by reflexivity.
  destruct (Qle_bool (p_send (cfg_ n0)) u); [now intros [= <-]|].
  unfold random_peer_rank.
  destruct (random_peer_rank_loop _ _ _) as [[d n1]|] eqn:Hr; [|discriminate].
  apply random_peer_rank_loop_protocol in Hr.
  set (n2 := set_next_msg_id _ n1).
  assert (H2 : protocol_state n2 = protocol_state n1) by reflexivity.
  pose proof (should_drop_outgoing_protocol n2) as Hp.
  destruct (should_drop_outgoing n2) as [dropped n3]; cbn [snd] in Hp.
  set (m := Message.Mk _ _ _ _ _ _).
  pose proof (send_message_protocol m d dropped n3) as Es.
  destruct (negb dropped); intros [= <-]; rewrite debug_print_protocol.
  - transitivity (protocol_state (send_message m d dropped n3));
      [reflexivity|congruence].
  - congruence.
Qed.

(** Phase SEND changes the protocol variables in one way only: it marks a
    pending election as started at this tick. *)
Lemma tick_send_protocol (fuel : nat) (tick : Z) (n n' : Node) :
  tick_send fuel tick n = Some n' ->
  protocol_state n'
  = protocol_state
      (if election_active_ n && negb (election_started_ n)
       then set_election_start_tick_ tick (set_election_started_ true n)
       else n).
Proof.
  unfold tick_send; intros Hs.
  rewrite (maybe_send_random_ping_protocol _ _ _ _ Hs).
  pose proof (maybe_send_heartbeat_protocol tick n) as E.
  set (n1 := maybe_send_heartbeat tick n) in *.
  assert (Ea : election_active_ n1 = election_active_ n)
    by (unfold protocol_state in E; congruence).
  assert (Es : election_started_ n1 = election_started_ n)
    by (unfold protocol_state in E; congruence).
  rewrite Ea, Es.
  destruct (election_active_ n && negb (election_started_ n)); [|exact E].
  rewrite start_election_protocol.
  unfold protocol_state in *; cbn; congruence.
Qed.

Lemma tick_send_keeps_waiting_excludes_election (fuel : nat) (tick : Z)
    (n n' : Node) :
  tick_send fuel tick n = Some n' ->
  waiting_excludes_election n -> waiting_excludes_election n'.
Proof.
  intros Hs Hinv; apply tick_send_protocol in Hs.
  unfold waiting_excludes_election in *.
  destruct (election_active_ n && negb (election_started_ n));
    protocol_fields Hs; cbn in *; rewrite Hactive, Hwaiting; exact Hinv.
Qed.

Lemma election_check_fired (tick : Z) (n : Node) :
  election_timed_out tick n = true ->
  let n3 := check_election_timeout tick n in
  election_active_ n3 = false /\ election_started_ n3 = false
  /\ leader_uid_ n3 = uid_ n
  /\ waiting_for_coordinator_ n3 = waiting_for_coordinator_ n.
Proof.
  intros Hf; cbn zeta; unfold check_election_timeout; rewrite Hf.
  match goal with |- context [debug_print ?t ?s (broadcast_to_nodes ?m ?x)] =>
    assert (E : protocol_state (debug_print t s (broadcast_to_nodes m x))
                = protocol_state
                    (set_election_started_ false
                       (set_election_active_ false
                          (set_leader_uid_ (uid_ n) n))))
      by now rewrite debug_print_protocol, broadcast_to_nodes_protocol,
           debug_print_protocol
  end.
  protocol_fields E; cbn in *; auto.
Qed.

Lemma tick_end_keeps_waiting_excludes_election (tick : Z) (n : Node) :
  waiting_excludes_election n -> waiting_excludes_election (tick_end tick n).
Proof.
  intros Hinv; unfold tick_end.
  assert (H1 : waiting_excludes_election (check_heartbeat_timeout tick n)).
  { destruct (heartbeat_timed_out tick n) eqn:Hf.
    - destruct (heartbeat_check_fired tick n Hf) as (_ & _ & Hw).
      unfold waiting_excludes_election; congruence.
    - unfold check_heartbeat_timeout; now rewrite Hf. }
  set (n1 := check_heartbeat_timeout tick n) in *.
  assert (H2 : waiting_excludes_election (check_coordinator_timeout tick n1)).
  { destruct (coordinator_timed_out tick n1) eqn:Hf.
    - unfold check_coordinator_timeout; rewrite Hf.
      match goal with |- context [debug_print ?t ?s ?x] =>
        pose proof (debug_print_protocol t s x) as E end.
      protocol_fields E; unfold waiting_excludes_election; cbn in *.
      congruence.
    - now rewrite coordinator_check_idle. }
  set (n2 := check_coordinator_timeout tick n1) in *.
  destruct (election_timed_out tick n2) eqn:Hf.
  - destruct (election_check_fired tick n2 Hf) as (Ha & _).
    unfold waiting_excludes_election; intros _; exact Ha.
  - unfold check_election_timeout; now rewrite Hf.
Qed.

(** The one path that breaks it: a peer that waits for a COORDINATOR and
    handles an ELECTION from a lower UID turns [election_active_] on and
    keeps waiting.  The COORDINATOR-rejection path and the heartbeat timeout
    both test [!waiting_for_coordinator_] before they do so. *)
Lemma handle_message_election_while_waiting (m : Message.t) (tick : Z)
    (n : Node) :
  Message.type m = MsgType_to_int ELECTION ->
  Message.src_uid m < uid_ n ->
  waiting_for_coordinator_ n = true ->
  election_active_ n = false ->
  let n' := handle_message m tick n in
  waiting_for_coordinator_ n' = true /\ election_active_ n' = true
  /\ election_started_ n' = false.
Proof.
  intros Ht Hlt Hw Ha; cbn zeta; unfold handle_message; rewrite Ht.
  cbn [MsgType_to_int MsgType_of_int].
  pose proof (should_drop_outgoing_protocol n) as Hp.
  destruct (should_drop_outgoing n) as [dropped n1]; cbn [snd] in Hp.
  cbn zeta.
  match goal with |- context [if negb dropped then ?a else ?b] =>
    set (n3 := if negb dropped then a else b) end.
  assert (E3 : protocol_state n3 = protocol_state n).
  { unfold n3; destruct (negb dropped);
      now rewrite debug_print_protocol, send_message_protocol. }
  clearbody n3; protocol_fields E3.
  rewrite Huid, Hactive, Ha.
  destruct (Z.ltb_spec (Message.src_uid m) (uid_ n)) as [_|]; [|lia].
  cbn [andb negb].
  match goal with |- context [debug_print ?t ?s ?x] =>
    destruct (debug_print_flags t s x) as (-> & -> & ->) end.
  cbn; rewrite Hwaiting; auto.
Qed.

End ElectionFlags.

(** C1 does not hold of the code.  Peer 2 of 3 hears one heartbeat, times
    out at tick 3, sends ELECTION at tick 4, gets the OK of peer 3 at tick 5
    and waits; at tick 6 the ELECTION of peer 1 arrives.  The worker loop
    ends tick 6 in a reachable state that waits for a COORDINATOR with an
    active election, and reports [election_active = 1] to the controller. *)
Theorem election_while_waiting_breaks_invariant :
  worker_start 2 4 quiet_cfg FailureType.None 1 NetworkFailureConfig_default
  = inr peer2_worker
  /\ worker_loop 0 0 waiting_scenario peer2_worker = Some peer2_run
  /\ reachable (node (fst peer2_run))
  /\ waiting_for_coordinator_ (node (fst peer2_run)) = true
  /\ election_active_ (node (fst peer2_run)) = true
  /\ ~ waiting_excludes_election (node (fst peer2_run))
  /\ map (fun h => StateReport.election_active (report h)) (snd peer2_run)
     = [0; 0; 0; 1; 1; 0; 1].
Proof.
  assert (Hstart : worker_start 2 4 quiet_cfg FailureType.None 1
                     NetworkFailureConfig_default = inr peer2_worker)
    by (vm_compute; reflexivity).
  assert (Hrun : worker_loop 0 0 waiting_scenario peer2_worker
                 = Some (fst peer2_run, snd peer2_run))
    by (vm_compute; reflexivity).
  assert (Hw : waiting_for_coordinator_ (node (fst peer2_run)) = true)
    by (vm_compute; reflexivity).
  assert (Ha : election_active_ (node (fst peer2_run)) = true)
    by (vm_compute; reflexivity).
  split; [exact Hstart|].
  split; [rewrite Hrun; now destruct peer2_run|].
  split.
  { exact (proj1 (worker_loop_reachable 0 waiting_scenario 0 peer2_worker
                    (fst peer2_run) (snd peer2_run) Hrun
                    (worker_start_reachable _ _ _ _ _ _ _ Hstart))). }
  split; [exact Hw|].
  split; [exact Ha|].
  split; [|vm_compute; reflexivity].
  unfold waiting_excludes_election; rewrite Ha; intros Hinv.
  specialize (Hinv Hw); discriminate Hinv.
Qed.

Section HighestUid.
Context `{StdRandom}.

Lemma debug_print_wire (tick : Z) (msg : string) (n : Node) :
  mpi_sent (debug_print tick msg n) = mpi_sent n
  /\ debug_messages_ (debug_print tick msg n) = debug_messages_ n ++ [msg].
Proof. unfold debug_print; cbn; now destruct (debug (cfg_ n)). Qed.

(** With no rank above its own, the loop of [start_election] sends nothing
    and the peer only logs that it wins at once. *)
Lemma start_election_highest (tick : Z) (n : Node) :
  uid_ n = num_nodes_ n ->
  start_election tick n
  = debug_print tick "👑 no higher nodes: winning immediately"
      (set_election_start_tick_ tick (set_election_started_ true n)).
Proof.
  intros Htop; unfold start_election.
  set (n0 := set_election_start_tick_ tick (set_election_started_ true n)).
  set (m := Message.Mk _ _ _ _ _ _).
  assert (Hfold : forall rs b, Forall (fun r => r <= uid_ n0) rs ->
            fold_left (start_election_step tick m) rs (n0, b) = (n0, b)).
  { induction rs as [|r rs IH]; intros b Hrs; cbn [fold_left];
      [reflexivity|].
    inversion Hrs as [|? ? Hr Hrs']; subst.
    assert (Hstep : start_election_step tick m (n0, b) r = (n0, b)).
    { unfold start_election_step.
      destruct (Z.ltb_spec (uid_ n0) r) as [|_]; [lia|reflexivity]. }
    rewrite Hstep; now apply IH. }
  rewrite Hfold.
  - cbn [negb andb]; change (uid_ n0) with (uid_ n);
      change (num_nodes_ n0) with (num_nodes_ n).
    now rewrite Htop, Z.eqb_refl.
  - unfold node_ranks; apply Forall_seqZ.
    change (uid_ n0) with (uid_ n); change (num_nodes_ n0) with (num_nodes_ n).
    intros r Hr; lia.
Qed.

(** The behaviour C2 is checked against.  The peer with the highest UID that
    starts an election in tick [tick] logs "winning immediately" and sends
    no ELECTION; in Phase END of the same tick the victory check does not
    fire (its elapsed time is 0): the election stays active, the peer's
    belief about the leader is unchanged and nothing, in particular no
    COORDINATOR, is sent or recorded. *)
Theorem highest_uid_wins_only_after_timeout (tick : Z) (n : Node) :
  uid_ n = num_nodes_ n ->
  election_active_ n = true ->
  election_started_ n = false ->
  0 <= election_timeout_ticks (cfg_ n) ->
  let n1 := start_election tick n in
  let n2 := tick_end tick n1 in
  (In "👑 no higher nodes: winning immediately" (debug_messages_ n1)
   /\ mpi_sent n1 = mpi_sent n)
  /\ election_timed_out tick
       (check_coordinator_timeout tick (check_heartbeat_timeout tick n1))
     = false
  /\ election_active_ n2 = true
  /\ leader_uid_ n2 = leader_uid_ n
  /\ mpi_sent n2 = mpi_sent n
  /\ msg_buffer_ n2 = msg_buffer_ n.
Proof.
  intros Htop Ha Hs Hto; cbn zeta.
  rewrite (start_election_highest tick n Htop).
  set (n0 := set_election_start_tick_ tick (set_election_started_ true n)).
  set (n1 := debug_print tick _ n0).
  destruct (debug_print_wire tick "👑 no higher nodes: winning immediately" n0)
    as (Hwire1 & Hdbg1); fold n1 in Hwire1, Hdbg1.
  pose proof (debug_print_protocol tick
                "👑 no higher nodes: winning immediately" n0) as E1.
  fold n1 in E1; protocol_fields E1; cbn in *.
  pose proof (debug_print_buffer tick
                "👑 no higher nodes: winning immediately" n0) as Hbuf1.
  fold n1 in Hbuf1; cbn in Hbuf1.
  split.
  { split; [rewrite Hdbg1; apply in_or_app; right; now left|exact Hwire1]. }
  assert (Hh : heartbeat_timed_out tick n1 = false).
  { unfold heartbeat_timed_out; rewrite Hactive, Ha; cbn.
    now rewrite !andb_false_r. }
  assert (Hn1 : check_heartbeat_timeout tick n1 = n1)
    by (unfold check_heartbeat_timeout; now rewrite Hh).
  unfold tick_end; rewrite Hn1.
  destruct (coordinator_timed_out tick n1) eqn:Hc.
  - destruct (coordinator_check_fired tick n1 Hc) as (Ha2 & Hs2).
    assert (He : election_timed_out tick (check_coordinator_timeout tick n1)
                 = false)
      by (unfold election_timed_out; now rewrite Ha2, Hs2).
    split; [exact He|].
    unfold check_election_timeout; rewrite He.
    split; [exact Ha2|].
    unfold check_coordinator_timeout; rewrite Hc.
    match goal with |- context [debug_print ?t ?s ?x] =>
      destruct (debug_print_wire t s x) as (-> & _);
      pose proof (debug_print_protocol t s x) as E2;
      rewrite (debug_print_buffer t s x)
    end.
    protocol_fields E2; cbn in *.
    repeat split; congruence.
  - rewrite (coordinator_check_idle tick n1 Hc).
    assert (He : election_timed_out tick n1 = false).
    { unfold election_timed_out; rewrite Hest, Z.sub_diag, Hcfg.
      destruct (Z.ltb_spec (election_timeout_ticks (cfg_ n)) 0) as [|_];
        [lia|now rewrite andb_false_r]. }
    split; [exact He|].
    unfold check_election_timeout; rewrite He.
    repeat split; congruence.
Qed.

End HighestUid.

Lemma highest_uid_wins_only_after_timeout_witness :
  (uid_ challenged_top = num_nodes_ challenged_top
   /\ election_active_ challenged_top = true
   /\ election_started_ challenged_top = false
   /\ 0 <= election_timeout_ticks (cfg_ challenged_top))
  /\ election_active_ (tick_end 5 (start_election 5 challenged_top)) = true
  /\ mpi_sent (tick_end 5 (start_election 5 challenged_top))
     = mpi_sent challenged_top.
Proof.
  split; [repeat split; vm_compute; discriminate|].
  pose proof (highest_uid_wins_only_after_timeout 5 challenged_top
                eq_refl eq_refl eq_refl ltac:(vm_compute; discriminate))
    as (_ & _ & Ha & _ & Hw & _).
  split; [exact Ha|exact Hw].
Defined.

(** * Further properties of the code *)

(** ** Seed mixing *)

Section SeedMixing.

Lemma uint64_range (x : Z) : 0 <= uint64 x < 2 ^ 64.
Proof. unfold uint64; apply Z.mod_pos_bound; lia. Qed.

Lemma uint64_small (x : Z) : 0 <= x < 2 ^ 64 -> uint64 x = x.
Proof. intros Hx; unfold uint64; now apply Z.mod_small. Qed.

Lemma u64_high_bits (x i : Z) :
  0 <= x < 2 ^ 64 -> 64 <= i -> Z.testbit x i = false.
Proof.
  intros Hx Hi; rewrite <- (Z.mod_small x (2 ^ 64)) by exact Hx.
  apply Z.mod_pow2_bits_high; lia.
Qed.

Lemma u64_of_bits (x : Z) :
  0 <= x -> (forall i, 64 <= i -> Z.testbit x i = false) -> x < 2 ^ 64.
Proof.
  intros H0 Hbits.
  destruct (Z.eq_dec x 0) as [->|Hnz]; [reflexivity|].
  apply Z.log2_lt_pow2; [lia|].
  destruct (Z_lt_le_dec (Z.log2 x) 64) as [Hl|Hl]; [exact Hl|].
  pose proof (Z.bit_log2 x ltac:(lia)) as Hb.
  rewrite (Hbits _ Hl) in Hb; discriminate Hb.
Qed.

(** One round [x ^ (x >> k)] keeps 64-bit values 64-bit. *)
Lemma xorshift_range (x k : Z) :
  0 <= k -> 0 <= x < 2 ^ 64 ->
  0 <= Z.lxor x (Z.shiftr x k) < 2 ^ 64.
Proof.
  intros Hk Hx.
  assert (H0 : 0 <= Z.shiftr x k) by (apply Z.shiftr_nonneg; lia).
  split; [apply Z.lxor_nonneg; lia|].
  apply u64_of_bits; [apply Z.lxor_nonneg; lia|].
  intros i Hi; rewrite Z.lxor_spec, Z.shiftr_spec by lia.
  rewrite (u64_high_bits x i Hx Hi), (u64_high_bits x (i + k) Hx) by lia.
  reflexivity.
Qed.

(** The round can be undone: the high bits of [x] are read off directly and
    each lower bit from the bit [k] places above it. *)
Lemma xorshift_injective (a b k : Z) :
  0 < k -> 0 <= a < 2 ^ 64 -> 0 <= b < 2 ^ 64 ->
  Z.lxor a (Z.shiftr a k) = Z.lxor b (Z.shiftr b k) -> a = b.
Proof.
  intros Hk Ha Hb E.
  assert (Hdown : forall j : nat, forall i, 64 - Z.of_nat j <= i -> 0 <= i ->
            Z.testbit a i = Z.testbit b i).
  { induction j as [|j IH]; intros i Hi H0.
    - rewrite (u64_high_bits a i Ha), (u64_high_bits b i Hb) by lia.
      reflexivity.
    - destruct (Z_lt_le_dec i (64 - Z.of_nat j)) as [Hlow|Hhigh];
        [|apply IH; lia].
      pose proof (f_equal (fun x => Z.testbit x i) E) as Ei; cbn beta in Ei.
      rewrite !Z.lxor_spec, !Z.shiftr_spec in Ei by lia.
      rewrite (IH (i + k)) in Ei by lia.
      destruct (Z.testbit a i), (Z.testbit b i), (Z.testbit b (i + k));
        cbn in Ei; congruence. }
  apply Z.bits_inj'; intros i Hi.
  apply (Hdown (Z.to_nat 64)); lia.
Qed.

(** Multiplication by a constant that has an inverse modulo 2^64 can be
    undone. *)
Lemma mul_uint64_injective (c c' a b : Z) :
  uint64 (c * c') = 1 ->
  0 <= a < 2 ^ 64 -> 0 <= b < 2 ^ 64 ->
  uint64 (a * c) = uint64 (b * c) -> a = b.
Proof.
  unfold uint64; intros Hinv Ha Hb E.
  assert (Hback : forall x, 0 <= x < 2 ^ 64 ->
            ((x * c) mod 2 ^ 64 * c') mod 2 ^ 64 = x).
  { intros x Hx.
    rewrite Z.mul_mod_idemp_l by lia.
    rewrite <- Z.mul_assoc, <- Z.mul_mod_idemp_r, Hinv by lia.
    rewrite Z.mul_1_r; now apply Z.mod_small. }
  rewrite <- (Hback a Ha), <- (Hback b Hb), E; reflexivity.
Qed.

(** X1.  The mixed seed is a 64-bit value whatever the arguments. *)
Theorem mix_seed_range (base id : Z) : 0 <= mix_seed base id < 2 ^ 64.
Proof.
  unfold mix_seed; cbn zeta.
  apply xorshift_range; [lia|apply uint64_range].
Qed.

(** X2.  For a 64-bit base seed, peers whose ids differ modulo 2^64 get
    different mixed seeds: every step of [mix_seed] is invertible. *)
Theorem mix_seed_injective (base id1 id2 : Z) :
  0 <= base < 2 ^ 64 ->
  mix_seed base id1 = mix_seed base id2 ->
  uint64 id1 = uint64 id2.
Proof.
  intros Hbase E; unfold mix_seed in E; cbn zeta in E.
  set (s0 := fun id => Z.lxor base (uint64 (id + 0x9e3779b97f4a7c15))) in *.
  set (s1 := fun id => Z.lxor (s0 id) (Z.shiftr (s0 id) 30)) in *.
  set (s2 := fun id => uint64 (s1 id * 0xbf58476d1ce4e5b9)) in *.
  set (s3 := fun id => Z.lxor (s2 id) (Z.shiftr (s2 id) 27)) in *.
  set (s4 := fun id => uint64 (s3 id * 0x94d049bb133111eb)) in *.
  change (Z.lxor (s4 id1) (Z.shiftr (s4 id1) 31)
          = Z.lxor (s4 id2) (Z.shiftr (s4 id2) 31)) in E.
  assert (R0 : forall id, 0 <= s0 id < 2 ^ 64).
  { intros id; unfold s0.
    pose proof (uint64_range (id + 0x9e3779b97f4a7c15)) as Hu.
    split; [apply Z.lxor_nonneg; lia|].
    apply u64_of_bits; [apply Z.lxor_nonneg; lia|].
    intros i Hi; rewrite Z.lxor_spec.
    now rewrite (u64_high_bits base i Hbase Hi), (u64_high_bits _ i Hu Hi). }
  assert (R1 : forall id, 0 <= s1 id < 2 ^ 64)
    by (intros id; apply xorshift_range; [lia|apply R0]).
  assert (R2 : forall id, 0 <= s2 id < 2 ^ 64)
    by (intros id; apply uint64_range).
  assert (R3 : forall id, 0 <= s3 id < 2 ^ 64)
    by (intros id; apply xorshift_range; [lia|apply R2]).
  assert (R4 : forall id, 0 <= s4 id < 2 ^ 64)
    by (intros id; apply uint64_range).
  apply xorshift_injective in E; [|lia|apply R4|apply R4].
  apply (mul_uint64_injective _ 0x319642b2d24d8ec3) in E;
    [|reflexivity|apply R3|apply R3].
  apply xorshift_injective in E; [|lia|apply R2|apply R2].
  apply (mul_uint64_injective _ 0x96de1b173f119089) in E;
    [|reflexivity|apply R1|apply R1].
  apply xorshift_injective in E; [|lia|apply R0|apply R0].
  unfold s0 in E.
  apply (f_equal (Z.lxor base)) in E.
  rewrite <- !Z.lxor_assoc, Z.lxor_nilpotent, !Z.lxor_0_l in E.
  unfold uint64 in *.
  assert (Hback : forall id,
            id mod 2 ^ 64
            = ((id + 0x9e3779b97f4a7c15) mod 2 ^ 64 - 0x9e3779b97f4a7c15)
              mod 2 ^ 64)
    by (intros id; rewrite Zminus_mod_idemp_l; f_equal; lia).
  now rewrite (Hback id1), (Hback id2), E.
Qed.

End SeedMixing.

Lemma mix_seed_injective_witness :
  0 <= 12345 < 2 ^ 64
  /\ mix_seed 12345 1 = mix_seed 12345 (1 + 2 ^ 64)
  /\ uint64 1 = uint64 (1 + 2 ^ 64).
Proof.
  assert (E : mix_seed 12345 1 = mix_seed 12345 (1 + 2 ^ 64))
    by (vm_compute; reflexivity).
  split; [lia|].
  split; [exact E|].
  exact (mix_seed_injective 12345 1 (1 + 2 ^ 64) ltac:(lia) E).
Defined.

(** ** The failure models *)

Section FailureModels.
Context `{StdRandom}.

(** X3.  An outage counts down: with [k] offline ticks left, [j <= k] ticks
    bring the counter to [k - j] without touching the engine, and the peer
    is back online exactly at the tick that brings the counter to 0. *)
Theorem network_outage_countdown (j : nat) (t : Z) (f : NetworkFailure.t) :
  Z.of_nat j <= NetworkFailure.offline_remaining_ f ->
  exists f',
    network_ticks j t f = Some f'
    /\ NetworkFailure.offline_remaining_ f'
       = NetworkFailure.offline_remaining_ f - Z.of_nat j
    /\ NetworkFailure.rng_ f' = NetworkFailure.rng_ f
    /\ (NetworkFailure.can_communicate f' = true
        <-> Z.of_nat j = NetworkFailure.offline_remaining_ f).
Proof.
  revert t f; induction j as [|j IH]; intros t f Hj.
  - exists f; cbn; repeat split; try lia.
    + unfold NetworkFailure.can_communicate; intros Hc.
      apply Z.eqb_eq in Hc; lia.
    + unfold NetworkFailure.can_communicate; intros Hc.
      apply Z.eqb_eq; lia.
  - cbn [network_ticks]; unfold NetworkFailure.tick at 1.
    destruct (Z.ltb_spec 0 (NetworkFailure.offline_remaining_ f)) as [_|];
      [|lia].
    match goal with |- context [network_ticks j (t + 1) ?g] =>
      destruct (IH (t + 1) g) as (f' & Ht & Hrem & Hrng & Hcan);
        [cbn; lia|] end.
    exists f'; cbn in Hrem, Hrng, Hcan.
    split; [exact Ht|].
    split; [lia|].
    split; [exact Hrng|].
    rewrite Hcan; lia.
Qed.

(** X4.  Counters never go negative when the configured durations are not,
    and then the peer is reported failed exactly while its recovery counter
    is positive.  This holds along the advance of the worker loop. *)
Theorem failure_counter_nonnegative (t : Z) (f f' : Failure.t) (n : Node) :
  failure_wf f ->
  advance_failure t f n = Some f' ->
  failure_wf f'
  /\ (Failure.is_failed f' = true <-> 0 < Failure.ticks_until_recovery f').
Proof.
  assert (Hfailed : forall g, failure_wf g ->
            (Failure.is_failed g = true
             <-> 0 < Failure.ticks_until_recovery g)).
  { intros [|nf|cf];
      unfold failure_wf, Failure.is_failed, Failure.can_communicate,
        Failure.ticks_until_recovery, NetworkFailure.can_communicate,
        NetworkFailure.ticks_until_recovery, CrashFailure.can_communicate,
        CrashFailure.ticks_until_recovery.
    - intros _; split; [discriminate|lia].
    - intros [H0 _].
      destruct (Z.eqb_spec (NetworkFailure.offline_remaining_ nf) 0);
        cbn; split; intros; try lia; try discriminate; reflexivity.
    - intros [H0 _].
      destruct (Z.eqb_spec (CrashFailure.crashed_remaining_ cf) 0);
        cbn; split; intros; try lia; try discriminate; reflexivity. }
  intros Hwf Ht.
  assert (Hwf' : failure_wf f'); [|split; [exact Hwf'|now apply Hfailed]].
  destruct f as [|nf|cf]; cbn in Ht.
  - now injection Ht as <-.
  - destruct Hwf as [H0 Hd].
    unfold NetworkFailure.tick in Ht; cbn in Ht.
    destruct (0 <? NetworkFailure.offline_remaining_ nf) eqn:Hpos.
    + injection Ht as <-; cbn; split; [|exact Hd].
      apply Z.ltb_lt in Hpos; lia.
    + destruct (uniform_real _) as [u g1].
      destruct (Qlt_bool u _).
      * destruct (discrete _ g1) as [idx g2].
        destruct (vector_at _ idx) as [d|] eqn:Hat; [|discriminate].
        injection Ht as <-; cbn; split; [|exact Hd].
        unfold vector_at in Hat.
        destruct (idx <? 0); [discriminate|].
        rewrite Forall_forall in Hd; apply Hd.
        eapply list_elem_of_lookup_2; exact Hat.
      * injection Ht as <-; cbn; split; assumption.
  - destruct Hwf as [H0 Hr].
    injection Ht as <-; cbn; unfold CrashFailure.tick.
    destruct (0 <? CrashFailure.crashed_remaining_ cf) eqn:Hpos.
    + cbn; apply Z.ltb_lt in Hpos; lia.
    + destruct (uniform_real _) as [u g1].
      destruct (Qlt_bool u _); cbn; lia.
Qed.

Lemma network_tick_without_p_fail (t : Z) (f : NetworkFailure.t) :
  (forall g, 0 <= fst (uniform_real g))%Q ->
  (p_fail (NetworkFailure.cfg_ f) == 0)%Q ->
  NetworkFailure.offline_remaining_ f = 0 ->
  exists f',
    NetworkFailure.tick t f = Some f'
    /\ NetworkFailure.offline_remaining_ f' = 0
    /\ NetworkFailure.cfg_ f' = NetworkFailure.cfg_ f.
Proof.
  intros Hu Hp H0; unfold NetworkFailure.tick; rewrite H0.
  change (0 <? 0) with false; cbn iota.
  pose proof (Hu (NetworkFailure.rng_ f)) as Hu0.
  destruct (uniform_real (NetworkFailure.rng_ f)) as [u g1]; cbn in Hu0.
  assert (Hno : forall p : Q, (p == 0)%Q -> Qlt_bool u p = false).
  { intros p Hp0; unfold Qlt_bool; rewrite negb_false_iff.
    apply Qle_bool_iff; now rewrite Hp0. }
  rewrite Hno.
  - eexists; split; [reflexivity|]; cbn; auto.
  - destruct (NetworkFailure.is_leader_ f); [|exact Hp].
    rewrite Hp; apply Qmult_0_l.
Qed.

(** X5.  With [p_fail = 0] and draws that are not negative, a peer that is
    online stays online, whether it leads or not. *)
Theorem network_never_fails_without_p_fail (t : Z) (f : NetworkFailure.t)
    (n : Node) :
  (forall g, 0 <= fst (uniform_real g))%Q ->
  (p_fail (NetworkFailure.cfg_ f) == 0)%Q ->
  NetworkFailure.offline_remaining_ f = 0 ->
  exists f',
    advance_failure t (Failure.Network f) n = Some (Failure.Network f')
    /\ NetworkFailure.offline_remaining_ f' = 0
    /\ NetworkFailure.cfg_ f' = NetworkFailure.cfg_ f
    /\ NetworkFailure.can_communicate f' = true.
Proof.
  intros Hu Hp H0.
  destruct (network_tick_without_p_fail t
              (NetworkFailure.set_is_leader (leader_uid n =? uid n) f)
              Hu Hp H0) as (f' & Ht & Hrem & Hcfg).
  exists f'; unfold advance_failure, Failure.tick; rewrite Ht.
  split; [reflexivity|].
  split; [exact Hrem|].
  split; [exact Hcfg|].
  unfold NetworkFailure.can_communicate; now rewrite Hrem.
Qed.

(** X6.  When the peer's configuration carries the simulation seed, as the
    configuration loader arranges, the engine of the failure model and the
    engine of the peer start from the same mixed seed: the two streams of a
    worker coincide. *)
Theorem worker_engines_share_seed (rank world_size : Z) (cfg : NodeConfig)
    (ft : FailureType.t) (sim_seed : Z) (fcfg : NetworkFailureConfig)
    (w : Worker) :
  seed cfg = sim_seed ->
  worker_start rank world_size cfg ft sim_seed fcfg = inr w ->
  rng_ (node w) = mt19937_64_seed (mix_seed sim_seed (uint64 rank))
  /\ match failure w with
     | Failure.NoFailure => ft = FailureType.None
     | Failure.Network nf => NetworkFailure.rng_ nf = rng_ (node w)
     | Failure.Crash cf => CrashFailure.rng_ cf = rng_ (node w)
     end.
Proof.
  intros Hseed; unfold worker_start, Node_new; cbn.
  destruct (rank =? 0); [discriminate|].
  destruct (negb _); [discriminate|].
  intros [= <-]; cbn; rewrite Hseed.
  split; [reflexivity|].
  destruct ft; cbn; reflexivity.
Qed.

End FailureModels.

(** ** Identity and silence across the phases *)

Section Steady.
Context `{StdRandom}.

Lemma steady_refl (n : Node) : steady n n.
Proof. split; [reflexivity|auto]. Qed.

Lemma steady_trans (a b c : Node) : steady a b -> steady b c -> steady a c.
Proof.
  intros [Iab Sab] [Ibc Sbc]; split; [congruence|].
  intros Hoff; rewrite Sbc, Sab; auto.
  unfold identity_state in Iab; congruence.
Qed.

(** A step that changes neither the identity nor the wire. *)
Lemma steady_same (a b c : Node) :
  steady a b -> identity_state c = identity_state b ->
  mpi_sent c = mpi_sent b -> steady a c.
Proof.
  intros Hab Hi Hs; apply (steady_trans a b c Hab).
  split; [exact Hi|intros _; exact Hs].
Qed.

Lemma steady_debug_print (tick : Z) (msg : string) (n : Node) :
  steady n (debug_print tick msg n).
Proof.
  unfold debug_print; cbn; destruct (debug (cfg_ n)); cbn;
    (split; [reflexivity|auto]).
Qed.

Lemma steady_send_message (m : Message.t) (dst : Z) (dropped : bool)
    (n : Node) :
  steady n (send_message m dst dropped n).
Proof.
  split.
  - unfold send_message, MPI_Send; now destruct (negb _).
  - intros Hoff; rewrite send_message_mpi_sent, Hoff, orb_true_r.
    apply app_nil_r.
Qed.

Lemma steady_should_drop_outgoing (n : Node) :
  steady n (snd (should_drop_outgoing n)).
Proof.
  rewrite should_drop_outgoing_spec; cbn.
  destruct (Qle_bool _ _); split; auto.
Qed.

Lemma steady_fold {A : Type} (step : Node -> A -> Node) (xs : list A) :
  (forall n x, steady n (step n x)) ->
  forall n, steady n (fold_left step xs n).
Proof.
  intros Hstep; induction xs as [|x xs IH]; intros n; cbn.
  - apply steady_refl.
  - eapply steady_trans; [apply Hstep|apply IH].
Qed.

Lemma steady_broadcast_to_nodes (m : Message.t) (n : Node) :
  steady n (broadcast_to_nodes m n).
Proof.
  unfold broadcast_to_nodes; apply steady_fold.
  intros n0 r; destruct (r =? rank_ n0);
    [apply steady_refl|apply steady_send_message].
Qed.

End Steady.

(** Decompose a goal [steady n (f (g (... n)))] along the operations of the
    transport and the field updates. *)
Ltac steady_step :=
  lazymatch goal with
  | |- steady ?n ?n => apply steady_refl
  | |- steady _ (debug_print _ _ _) =>
      eapply steady_trans; [|apply steady_debug_print]
  | |- steady _ (send_message _ _ _ _) =>
      eapply steady_trans; [|apply steady_send_message]
  | |- steady _ (broadcast_to_nodes _ _) =>
      eapply steady_trans; [|apply steady_broadcast_to_nodes]
  | |- steady _ (snd (should_drop_outgoing _)) =>
      eapply steady_trans; [|apply steady_should_drop_outgoing]
  | |- steady _ (if ?c then _ else _) => destruct c
  | |- steady _ (?f ?v ?x) =>
      apply (steady_same _ x);
        [|generalize x; intros ?; reflexivity
         |generalize x; intros ?; reflexivity]
  end.

(** Replace the text of every diagnostic line in the goal by a variable. *)
Ltac hide_debug_lines :=
  repeat match goal with
    | |- context [debug_print _ ?s _] =>
        tryif is_var s then fail
        else (let line := fresh "line" in generalize s; intros line)
    end.

Section SteadyPhases.
Context `{StdRandom}.

Lemma steady_maybe_send_heartbeat (tick : Z) (n : Node) :
  steady n (maybe_send_heartbeat tick n).
Proof. unfold maybe_send_heartbeat; repeat steady_step. Qed.

Lemma steady_start_election_step (tick : Z) (m : Message.t)
    (st : Node * bool) (r : Z) :
  steady (fst st) (fst (start_election_step tick m st r)).
Proof.
  destruct st as [n sent_any]; unfold start_election_step; cbn [fst].
  rewrite (surjective_pairing (should_drop_outgoing n)).
  destruct (uid_ n <? r); [|apply steady_refl].
  destruct (negb _); cbn [fst]; repeat steady_step.
Qed.

Lemma steady_start_election (tick : Z) (n : Node) :
  steady n (start_election tick n).
Proof.
  unfold start_election.
  set (n0 := set_election_start_tick_ tick (set_election_started_ true n)).
  set (m := Message.Mk _ _ _ _ _ _).
  assert (H0 : steady n n0) by (unfold n0; repeat steady_step).
  assert (Hfold : forall rs st,
            steady (fst st)
              (fst (fold_left (start_election_step tick m) rs st))).
  { induction rs as [|r rs IH]; intros st; cbn; [apply steady_refl|].
    eapply steady_trans; [apply steady_start_election_step|apply IH]. }
  specialize (Hfold (node_ranks n0) (n0, false)); cbn [fst] in Hfold.
  destruct (fold_left _ _ _) as [n1 sent_any]; cbn [fst] in Hfold.
  apply (steady_trans n n0 _ H0).
  destruct (negb sent_any && _); [|exact Hfold].
  eapply steady_trans; [exact Hfold|apply steady_debug_print].
Qed.

Lemma steady_handle_message (m : Message.t) (tick : Z) (n : Node) :
  steady n (handle_message m tick n).
Proof.
  unfold handle_message.
  pose proof (steady_should_drop_outgoing n) as Hd.
  destruct (should_drop_outgoing n) as [dropped n1]; cbn [snd] in Hd.
  destruct (MsgType_of_int (Message.type m)) as [[]|];
    cbn zeta; hide_debug_lines; try apply steady_refl.
  - repeat steady_step.
  - set (n2 := send_message _ _ dropped n1).
    assert (H2 : steady n n2)
      by (eapply steady_trans; [exact Hd|apply steady_send_message]).
    clearbody n2; clear Hd.
    destruct (negb dropped);
      match goal with |- context [if ?c then _ else _] => destruct c end;
      repeat first [exact H2 | steady_step].
  - repeat steady_step.
  - repeat steady_step.
  - set (n2 := send_message _ _ dropped n1).
    assert (H2 : steady n n2)
      by (eapply steady_trans; [exact Hd|apply steady_send_message]).
    clearbody n2; clear Hd.
    destruct (negb dropped); repeat first [exact H2 | steady_step].
Qed.

Lemma steady_recv_one (tick : Z) (m : Message.t) (n : Node) :
  steady n (recv_one tick m n).
Proof.
  unfold recv_one; cbn zeta.
  match goal with |- context [set_msg_buffer_ ?b n] =>
    set (n1 := set_msg_buffer_ b n) end.
  assert (H1 : steady n n1) by (unfold n1; repeat steady_step).
  destruct (can_communicate_ n1); [|exact H1].
  eapply steady_trans; [exact H1|apply steady_handle_message].
Qed.

Lemma steady_drain_loop (tick drained : Z) (pending : list Message.t)
    (n : Node) :
  steady n (fst (drain_loop tick drained pending n)).
Proof.
  revert drained n; induction pending as [|m pending IH]; intros drained n;
    cbn.
  - destruct (drained <? _); apply steady_refl.
  - destruct (drained <? _); [|apply steady_refl].
    eapply steady_trans; [apply steady_recv_one|apply IH].
Qed.

Lemma steady_random_peer_rank_loop (fuel : nat) (r : Z) (n : Node)
    (r' : Z) (n' : Node) :
  random_peer_rank_loop fuel r n = Some (r', n') -> steady n n'.
Proof.
  revert r n; induction fuel as [|fuel IH]; intros r n; cbn.
  - destruct (r =? rank_ n); [discriminate|].
    intros [= _ <-]; apply steady_refl.
  - destruct (r =? rank_ n); [|intros [= _ <-]; apply steady_refl].
    destruct (uniform_int _ _ _) as [r1 g]; intros Hl.
    eapply steady_trans; [|exact (IH _ _ Hl)].
    repeat steady_step.
Qed.

Lemma steady_maybe_send_random_ping (fuel : nat) (tick : Z) (n n' : Node) :
  maybe_send_random_ping fuel tick n = Some n' -> steady n n'.
Proof.
  unfold maybe_send_random_ping.
  destruct (Qle_bool (p_send (cfg_ n)) 0);
    [intros [= <-]; apply steady_refl|].
  destruct (uniform_real (rng_ n)) as [u g].
  set (n0 := set_rng_ g n).
  assert (H0 : steady n n0) by (unfold n0; repeat steady_step).
  destruct (Qle_bool (p_send (cfg_ n0)) u); [now intros [= <-]|].
  unfold random_peer_rank.
  destruct (random_peer_rank_loop _ _ _) as [[d n1]|] eqn:Hr; [|discriminate].
  apply steady_random_peer_rank_loop in Hr.
  rewrite (surjective_pairing (should_drop_outgoing _)).
  intros Hn'.
  apply (steady_trans n n1 n' (steady_trans n n0 n1 H0 Hr)).
  destruct (negb _); injection Hn' as <-; repeat steady_step.
Qed.

Lemma steady_tick_send (fuel : nat) (tick : Z) (n n' : Node) :
  tick_send fuel tick n = Some n' -> steady n n'.
Proof.
  unfold tick_send; intros Hs.
  apply steady_maybe_send_random_ping in Hs.
  eapply steady_trans; [|exact Hs].
  destruct (_ && _).
  - eapply steady_trans;
      [apply steady_maybe_send_heartbeat|apply steady_start_election].
  - apply steady_maybe_send_heartbeat.
Qed.

Lemma steady_tick_end (tick : Z) (n : Node) : steady n (tick_end tick n).
Proof.
  unfold tick_end, check_election_timeout, check_coordinator_timeout,
    check_heartbeat_timeout.
  repeat steady_step.
Qed.

(** X7.  No phase of a tick changes the peer's rank, world size, number of
    peers, UID or configuration, and the communication status injected
    before Phase SEND is the one all three phases see. *)
Theorem phases_keep_identity (fuel : nat) (tick : Z)
    (pending : list Message.t) (n : Node) :
  (forall n', tick_send fuel tick n = Some n' ->
              identity_state n' = identity_state n)
  /\ identity_state (fst (tick_recv tick pending n)) = identity_state n
  /\ identity_state (tick_end tick n) = identity_state n.
Proof.
  split; [|split].
  - intros n' Hs; exact (proj1 (steady_tick_send _ _ _ _ Hs)).
  - exact (proj1 (steady_drain_loop tick 0 pending n)).
  - exact (proj1 (steady_tick_end tick n)).
Qed.

Lemma drain_loop_offline (tick drained : Z) (pending : list Message.t)
    (n : Node) :
  can_communicate_ n = false ->
  protocol_state (fst (drain_loop tick drained pending n)) = protocol_state n
  /\ debug_messages_ (fst (drain_loop tick drained pending n))
     = debug_messages_ n.
Proof.
  revert drained n; induction pending as [|m pending IH];
    intros drained n Hoff; cbn.
  - now destruct (drained <? _).
  - destruct (drained <? _); [|now split].
    assert (E : recv_one tick m n
                = set_msg_buffer_
                    (MessageBuffer.log_recv tick m (msg_buffer_ n)) n)
      by (unfold recv_one; cbn; now rewrite Hoff).
    rewrite E; destruct (IH (drained + 1) (set_msg_buffer_
      (MessageBuffer.log_recv tick m (msg_buffer_ n)) n) Hoff) as [-> ->].
    now split.
Qed.

(** X8.  A peer that cannot communicate puts nothing on the wire in any
    phase, and Phase RECV leaves its protocol variables and its diagnostic
    lines as they were: incoming messages are logged and dropped. *)
Theorem offline_peer_is_silent (fuel : nat) (tick : Z)
    (pending : list Message.t) (n : Node) :
  can_communicate_ n = false ->
  (forall n', tick_send fuel tick n = Some n' -> mpi_sent n' = mpi_sent n)
  /\ (mpi_sent (fst (tick_recv tick pending n)) = mpi_sent n
      /\ protocol_state (fst (tick_recv tick pending n)) = protocol_state n
      /\ debug_messages_ (fst (tick_recv tick pending n)) = debug_messages_ n)
  /\ mpi_sent (tick_end tick n) = mpi_sent n.
Proof.
  intros Hoff; split; [|split].
  - intros n' Hs; exact (proj2 (steady_tick_send _ _ _ _ Hs) Hoff).
  - split; [exact (proj2 (steady_drain_loop tick 0 pending n) Hoff)|].
    exact (drain_loop_offline tick 0 pending n Hoff).
  - exact (proj2 (steady_tick_end tick n) Hoff).
Qed.

End SteadyPhases.

(** ** The belief about the leader *)

Section LeaderBelief.
Context `{StdRandom}.

Lemma leader_step_refl (n : Node) : leader_step n n.
Proof. repeat split; auto. Qed.

Lemma leader_step_trans (a b c : Node) :
  leader_step a b -> leader_step b c -> leader_step a c.
Proof.
  intros [[Hu1 Hn1] H1] [[Hu2 Hn2] H2]; split; [split; congruence|].
  destruct H2 as [H2|H2]; [|now right].
  destruct H1 as [H1|H1]; [left; congruence|right; congruence].
Qed.

Lemma leader_step_of_protocol (n n' : Node) :
  protocol_state n' = protocol_state n -> leader_step n n'.
Proof. intros E; protocol_fields E; repeat split; auto. Qed.

Lemma leader_step_handle_message (m : Message.t) (tick : Z) (n : Node) :
  leader_step n (handle_message m tick n).
Proof.
  unfold handle_message.
  destruct (MsgType_of_int (Message.type m)) as [[]|];
    try apply leader_step_refl.
  - destruct (Z.leb_spec (uid_ n) (Message.src_uid m)) as [Hle|];
      [|apply leader_step_refl].
    match goal with |- context [debug_print ?t ?s ?x] =>
      pose proof (debug_print_protocol t s x) as E end.
    protocol_fields E; cbn in *.
    split; [split; congruence|right; congruence].
  - pose proof (should_drop_outgoing_protocol n) as Hp.
    destruct (should_drop_outgoing n) as [dropped n1]; cbn [snd] in Hp.
    cbn zeta.
    match goal with |- context [if negb dropped then ?a else ?b] =>
      set (n3 := if negb dropped then a else b) end.
    assert (E3 : protocol_state n3 = protocol_state n).
    { unfold n3; destruct (negb dropped);
        now rewrite debug_print_protocol, send_message_protocol. }
    clearbody n3.
    destruct (_ && _); [|now apply leader_step_of_protocol].
    match goal with |- context [debug_print ?t ?s ?x] =>
      pose proof (debug_print_protocol t s x) as E end.
    protocol_fields E; protocol_fields E3; cbn in *.
    split; [split; congruence|left; congruence].
  - destruct (uid_ n <? _); [|apply leader_step_refl].
    match goal with |- context [debug_print ?t ?s ?x] =>
      pose proof (debug_print_protocol t s x) as E end.
    protocol_fields E; cbn in *.
    split; [split; congruence|left; congruence].
  - match goal with |- context [debug_print ?t ?s n] => idtac end.
    destruct (Z.leb_spec (uid_ n) (Message.src_uid m)) as [Hle|].
    + cbn zeta.
      match goal with |- context [debug_print ?t ?s ?x] =>
        pose proof (debug_print_protocol t s x) as E end.
      protocol_fields E; split; cbn; [split; congruence|right; congruence].
    + cbn zeta.
      match goal with |- context [debug_print ?t ?s ?x] =>
        pose proof (debug_print_protocol t s x) as E end.
      destruct (_ && _); [|now apply leader_step_of_protocol].
      protocol_fields E; split; cbn; [split; congruence|left; congruence].
  - pose proof (should_drop_outgoing_protocol n) as Hp.
    destruct (should_drop_outgoing n) as [dropped n1]; cbn [snd] in Hp.
    cbn zeta; apply leader_step_of_protocol.
    destruct (negb dropped);
      now rewrite debug_print_protocol, send_message_protocol.
Qed.

Lemma leader_step_drain_loop (tick drained : Z) (pending : list Message.t)
    (n : Node) :
  leader_step n (fst (drain_loop tick drained pending n)).
Proof.
  revert drained n; induction pending as [|m pending IH]; intros drained n;
    cbn.
  - destruct (drained <? _); apply leader_step_refl.
  - destruct (drained <? _); [|apply leader_step_refl].
    eapply leader_step_trans; [|apply IH].
    unfold recv_one; cbn zeta.
    match goal with |- context [set_msg_buffer_ ?b n] =>
      set (n1 := set_msg_buffer_ b n) end.
    assert (H1 : leader_step n n1) by (repeat split; auto).
    destruct (can_communicate_ n1); [|exact H1].
    eapply leader_step_trans; [exact H1|apply leader_step_handle_message].
Qed.

Lemma leader_step_tick_send (fuel : nat) (tick : Z) (n n' : Node) :
  tick_send fuel tick n = Some n' -> leader_step n n'.
Proof.
  intros Hs; apply tick_send_protocol in Hs.
  destruct (_ && _); protocol_fields Hs; cbn in *;
    (split; [split; congruence|left; congruence]).
Qed.

Lemma leader_step_tick_end (tick : Z) (n : Node) :
  leader_step n (tick_end tick n).
Proof.
  unfold tick_end.
  assert (H1 : leader_step n (check_heartbeat_timeout tick n)).
  { unfold check_heartbeat_timeout.
    destruct (heartbeat_timed_out tick n); [|apply leader_step_refl].
    match goal with |- context [debug_print ?t ?s ?x] =>
      pose proof (debug_print_protocol t s x) as E end.
    protocol_fields E; cbn in *.
    split; [split; congruence|left; congruence]. }
  set (n1 := check_heartbeat_timeout tick n) in *.
  assert (H2 : leader_step n1 (check_coordinator_timeout tick n1)).
  { unfold check_coordinator_timeout.
    destruct (coordinator_timed_out tick n1); [|apply leader_step_refl].
    match goal with |- context [debug_print ?t ?s ?x] =>
      pose proof (debug_print_protocol t s x) as E end.
    protocol_fields E; cbn in *.
    split; [split; congruence|left; congruence]. }
  set (n2 := check_coordinator_timeout tick n1) in *.
  apply (leader_step_trans n n1 _ H1), (leader_step_trans n1 n2 _ H2).
  unfold check_election_timeout.
  destruct (election_timed_out tick n2); [|apply leader_step_refl].
  match goal with |- context [debug_print ?t ?s (broadcast_to_nodes ?m ?x)] =>
    assert (E : protocol_state (debug_print t s (broadcast_to_nodes m x))
                = protocol_state
                    (set_election_started_ false
                       (set_election_active_ false
                          (set_leader_uid_ (uid_ n2) n2))))
      by now rewrite debug_print_protocol, broadcast_to_nodes_protocol,
           debug_print_protocol
  end.
  match goal with |- leader_step _ ?x => set (n3 := x) in * end.
  clearbody n3 n2 n1; protocol_fields E; cbn in Huid, Hnum, Hleader.
  split; [split; congruence|right; rewrite Huid, Hleader; lia].
Qed.

(** X9.  A peer whose UID is among [1..num_nodes] never believes in a
    leader whose UID is below its own: it starts with the highest UID as
    leader, accepts HEARTBEAT and COORDINATOR from UIDs not below its own
    only, and otherwise names itself.  In particular its belief is never
    the "unknown" value -1 when its UID is not negative. *)
Theorem leader_belief_never_below_self (n : Node) :
  reachable n ->
  uid_ n <= num_nodes_ n ->
  uid_ n <= leader_uid_ n /\ (0 <= uid_ n -> leader_uid_ n <> -1).
Proof.
  intros Hn Hu.
  assert (Hl : uid_ n <= leader_uid_ n); [|split; [exact Hl|lia]].
  revert Hu.
  assert (Hstep : forall a b, leader_step a b ->
            (uid_ a <= num_nodes_ a -> uid_ a <= leader_uid_ a) ->
            uid_ b <= num_nodes_ b -> uid_ b <= leader_uid_ b).
  { intros a b [[Hu Hnum] Hl] IH Hb.
    destruct Hl as [Hl|Hl]; [|exact Hl].
    rewrite Hl, Hu; apply IH; congruence. }
  induction Hn as [r w N cfg n Hc | can n _ IH | tick n _ IH
                  | fuel tick n n' _ IH Hs | tick pending n _ IH
                  | tick n _ IH | n _ IH | n _ IH].
  - unfold Node_new in Hc; cbn in Hc.
    destruct (r =? 0); [discriminate|].
    destruct (negb _); [discriminate|].
    injection Hc as <-; cbn; auto.
  - exact IH.
  - exact IH.
  - exact (Hstep n n' (leader_step_tick_send _ _ _ _ Hs) IH).
  - exact (Hstep n _ (leader_step_drain_loop tick 0 pending n) IH).
  - exact (Hstep n _ (leader_step_tick_end tick n) IH).
  - exact IH.
  - exact IH.
Qed.

End LeaderBelief.

(** ** Phase RECV: how much is drained *)

Section Drain.
Context `{StdRandom}.

Lemma recv_one_cfg (tick : Z) (m : Message.t) (n : Node) :
  cfg_ (recv_one tick m n) = cfg_ n.
Proof.
  pose proof (proj1 (steady_recv_one tick m n)) as E.
  unfold identity_state in E; congruence.
Qed.

Lemma drain_loop_prefix (tick : Z) (pending : list Message.t) :
  forall (drained : Z) (n : Node),
  let k := Z.to_nat (max_recv_per_tick (cfg_ n) - drained) in
  drain_loop tick drained pending n
  = (fold_left (fun n m => recv_one tick m n) (take k pending) n,
     drop k pending).
Proof.
  induction pending as [|m pending IH]; intros drained n; cbn zeta.
  - cbn; rewrite take_nil, drop_nil; now destruct (drained <? _).
  - cbn [drain_loop].
    destruct (Z.ltb_spec drained (max_recv_per_tick (cfg_ n))) as [Hlt|Hge].
    + rewrite IH; cbn zeta; rewrite recv_one_cfg.
      replace (Z.to_nat (max_recv_per_tick (cfg_ n) - drained))
        with (S (Z.to_nat (max_recv_per_tick (cfg_ n) - (drained + 1))))
        by lia.
      reflexivity.
    + replace (Z.to_nat (max_recv_per_tick (cfg_ n) - drained)) with 0%nat
        by lia.
      reflexivity.
Qed.

(** X10.  Phase RECV handles the first [max_recv_per_tick] pending
    messages, one after the other in their order, and leaves the others
    pending in their order; with a bound that is not positive it handles
    nothing. *)
Theorem tick_recv_drains_a_prefix (tick : Z) (pending : list Message.t)
    (n : Node) :
  let k := Z.to_nat (max_recv_per_tick (cfg_ n)) in
  tick_recv tick pending n
  = (fold_left (fun n m => recv_one tick m n) (take k pending) n,
     drop k pending)
  /\ take k pending ++ snd (tick_recv tick pending n) = pending
  /\ Z.of_nat (length (take k pending))
     = Z.min (Z.of_nat (length pending)) (Z.max 0 (max_recv_per_tick (cfg_ n))).
Proof.
  cbn zeta; unfold tick_recv, drain_incoming.
  rewrite (drain_loop_prefix tick pending 0 n); cbn zeta.
  rewrite Z.sub_0_r; cbn [snd].
  split; [reflexivity|].
  split; [apply take_drop|].
  rewrite length_take; lia.
Qed.

End Drain.

(** ** What goes on the wire *)

Section Wire.
Context `{StdRandom}.

(** X11.  Only a peer that believes itself leader emits heartbeats, only
    with a positive period and at ticks the period divides; it then sends
    one HEARTBEAT naming itself to every other rank, in rank order, and to
    nobody while it cannot communicate. *)
Theorem heartbeat_wire (tick : Z) (n : Node) :
  mpi_sent (maybe_send_heartbeat tick n)
  = mpi_sent n
    ++ (if (uid_ n =? leader_uid_ n) && (0 <? hb_period_ticks (cfg_ n))
           && (Z.rem tick (hb_period_ticks (cfg_ n)) =? 0)
           && can_communicate_ n
        then to_each (other_ranks n) (heartbeat_message tick n)
        else []).
Proof.
  unfold maybe_send_heartbeat.
  destruct (uid_ n =? leader_uid_ n); cbn [negb andb];
    [|now rewrite app_nil_r].
  rewrite (Z.leb_antisym 0 (hb_period_ticks (cfg_ n))).
  destruct (0 <? hb_period_ticks (cfg_ n)); cbn [negb andb];
    [|now rewrite app_nil_r].
  destruct (Z.rem tick _ =? 0); cbn [negb andb]; [|now rewrite app_nil_r].
  rewrite broadcast_wire.
  match goal with |- context [debug_print ?t ?s n] =>
    pose proof (debug_print_protocol t s n) as E;
    destruct (debug_print_wire t s n) as (Hw & _);
    set (n1 := debug_print t s n) in * end.
  assert (Ho : other_ranks n1 = other_ranks n).
  { unfold other_ranks, node_ranks; protocol_fields E.
    now rewrite Hrank, Hnum. }
  protocol_fields E.
  rewrite Hw, Ho, Hcan; unfold heartbeat_message; now rewrite Huid.
Qed.

Lemma debug_print_mpi_sent (tick : Z) (msg : string) (n : Node) :
  mpi_sent (debug_print tick msg n) = mpi_sent n.
Proof. exact (proj1 (debug_print_wire tick msg n)). Qed.

Lemma other_ranks_of_identity (n n' : Node) :
  identity_state n' = identity_state n -> other_ranks n' = other_ranks n.
Proof.
  unfold identity_state, other_ranks, node_ranks; intros E.
  injection E as Hrank _ Hnum _ _ _; now rewrite Hrank, Hnum.
Qed.

Lemma debug_print_quiet (tick : Z) (msg : string) (n : Node) :
  mpi_sent (debug_print tick msg n) = mpi_sent n
  /\ identity_state (debug_print tick msg n) = identity_state n
  /\ leader_uid_ (debug_print tick msg n) = leader_uid_ n.
Proof.
  split; [apply debug_print_mpi_sent|].
  split; [exact (proj1 (steady_debug_print tick msg n))|].
  pose proof (debug_print_protocol tick msg n) as E.
  protocol_fields E; assumption.
Qed.

(** The two timeout checks that precede the victory check send nothing. *)
Lemma timeout_checks_wire (tick : Z) (n : Node) :
  let n2 := check_coordinator_timeout tick (check_heartbeat_timeout tick n) in
  mpi_sent n2 = mpi_sent n /\ identity_state n2 = identity_state n
  /\ (leader_uid_ n2 = leader_uid_ n).
Proof.
  cbn zeta.
  assert (H1 : let n1 := check_heartbeat_timeout tick n in
               mpi_sent n1 = mpi_sent n
               /\ identity_state n1 = identity_state n
               /\ leader_uid_ n1 = leader_uid_ n).
  { cbn zeta; unfold check_heartbeat_timeout.
    destruct (heartbeat_timed_out tick n); [|auto].
    match goal with |- context [debug_print ?t ?s ?x] =>
      destruct (debug_print_quiet t s x) as (-> & -> & ->) end.
    auto. }
  cbn zeta in H1; destruct H1 as (W1 & I1 & L1).
  set (n1 := check_heartbeat_timeout tick n) in *.
  unfold check_coordinator_timeout.
  destruct (coordinator_timed_out tick n1); [|auto].
  match goal with |- context [debug_print ?t ?s ?x] =>
    destruct (debug_print_quiet t s x) as (-> & -> & ->) end.
  unfold identity_state in *; cbn; auto.
Qed.

(** X12.  Phase END sends nothing unless the victory check fires.  When it
    fires the peer names itself leader, clears its election flags and sends
    one COORDINATOR to every other rank, in rank order, provided it can
    communicate. *)
Theorem tick_end_wire (tick : Z) (n : Node) :
  let n2 := check_coordinator_timeout tick (check_heartbeat_timeout tick n) in
  let won := election_timed_out tick n2 in
  mpi_sent (tick_end tick n)
  = mpi_sent n
    ++ (if won && can_communicate_ n
        then to_each (other_ranks n) (coordinator_message tick n)
        else [])
  /\ leader_uid_ (tick_end tick n) = (if won then uid_ n else leader_uid_ n)
  /\ (won = true ->
      election_active_ (tick_end tick n) = false
      /\ election_started_ (tick_end tick n) = false).
Proof.
  cbn zeta; unfold tick_end.
  destruct (timeout_checks_wire tick n) as (Hw2 & Hi2 & Hl2).
  cbn zeta in Hw2, Hi2, Hl2.
  set (n2 := check_coordinator_timeout tick (check_heartbeat_timeout tick n))
    in *.
  destruct (election_timed_out tick n2) eqn:Hwon.
  - destruct (election_check_fired tick n2 Hwon) as (Ha & Hs & Hl & _).
    cbn zeta in Ha, Hs, Hl.
    assert (Hu2 : uid_ n2 = uid_ n)
      by (unfold identity_state in Hi2; congruence).
    split; [|split; [congruence|auto]].
    unfold check_election_timeout; rewrite Hwon.
    rewrite debug_print_mpi_sent, broadcast_wire.
    match goal with |- context [debug_print ?t ?s ?x] =>
      pose proof (debug_print_protocol t s x) as E;
      pose proof (debug_print_mpi_sent t s x) as W;
      pose proof (proj1 (steady_debug_print t s x)) as I;
      set (n3 := debug_print t s x) in * end.
    assert (I3 : identity_state n3 = identity_state n)
      by (rewrite I; unfold identity_state in *; cbn; exact Hi2).
    rewrite (other_ranks_of_identity _ _ I3), W; cbn [mpi_sent
      set_election_started_ set_election_active_ set_leader_uid_].
    rewrite Hw2; cbn [andb].
    assert (Hc3 : can_communicate_ n3 = can_communicate_ n)
      by (unfold identity_state in I3; congruence).
    assert (Hu3 : uid_ n3 = uid_ n)
      by (unfold identity_state in I3; congruence).
    rewrite Hc3; unfold coordinator_message; cbn; now rewrite Hu3.
  - unfold check_election_timeout; rewrite Hwon; cbn [andb].
    rewrite app_nil_r; split; [exact Hw2|].
    split; [exact Hl2|discriminate].
Qed.

Lemma start_election_fold_wire (tick : Z) (m : Message.t) (rs : list Z) :
  forall (n : Node) (b : bool),
  exists l,
    mpi_sent (fst (fold_left (start_election_step tick m) rs (n, b)))
    = mpi_sent n ++ l
    /\ Forall (fun dm => uid_ n < fst dm /\ fst dm ∈ rs /\ snd dm = m) l
    /\ (Qle_bool (p_drop (cfg_ n)) 0 = true ->
        can_communicate_ n = true ->
        l = to_each (List.filter (fun r => uid_ n <? r) rs) m).
Proof.
  induction rs as [|r rs IH]; intros n b.
  - exists []; cbn; rewrite app_nil_r; repeat split; auto.
  - cbn [fold_left].
    pose proof (steady_start_election_step tick m (n, b) r) as [Hi _].
    cbn [fst] in Hi.
    assert (Hwire : mpi_sent (fst (start_election_step tick m (n, b) r))
              = mpi_sent n
                ++ (if (uid_ n <? r)
                       && negb (bernoulli_drop n
                                || negb (can_communicate_ n))
                    then [(r, m)] else [])).
    { unfold start_election_step.
      destruct (uid_ n <? r); cbn [andb fst]; [|now rewrite app_nil_r].
      destruct (should_drop_outgoing_frame n) as (_ & Hs & Hc & _).
      cbn zeta in Hs, Hc.
      rewrite (surjective_pairing (should_drop_outgoing n)).
      replace (fst (should_drop_outgoing n)) with (bernoulli_drop n)
        by now rewrite should_drop_outgoing_spec.
      destruct (negb (bernoulli_drop n)) eqn:Hd; cbn [fst];
        rewrite debug_print_mpi_sent, send_message_mpi_sent, Hs, Hc;
        destruct (bernoulli_drop n); try discriminate; cbn;
        destruct (can_communicate_ n); reflexivity. }
    destruct (start_election_step tick m (n, b) r) as [n1 b1].
    cbn [fst] in Hi, Hwire.
    destruct (IH n1 b1) as (l & Hl & Hall & Hfull).
    assert (Hu : uid_ n1 = uid_ n)
      by (unfold identity_state in Hi; congruence).
    assert (Hc : cfg_ n1 = cfg_ n)
      by (unfold identity_state in Hi; congruence).
    assert (Hcan : can_communicate_ n1 = can_communicate_ n)
      by (unfold identity_state in Hi; congruence).
    rewrite Hu, Hc, Hcan in *.
    eexists; split; [rewrite Hl, Hwire, <- app_assoc; reflexivity|].
    split.
    + apply Forall_app; split.
      * destruct (Z.ltb_spec (uid_ n) r); cbn [andb]; [|constructor].
        destruct (negb _); constructor; [|constructor].
        cbn; repeat split; [lia|left].
      * eapply Forall_impl; [exact Hall|].
        intros [d m'] (H1 & H2 & H3); cbn in *.
        repeat split; [exact H1|now right|exact H3].
    + intros Hp Hon; rewrite (Hfull Hp Hon); cbn [List.filter].
      unfold bernoulli_drop; rewrite Hp, Hon; cbn.
      destruct (uid_ n <? r); reflexivity.
Qed.

(** X13.  An election is announced to higher UIDs only: every ELECTION a
    peer puts on the wire goes to a rank in [1..num_nodes] above its own
    UID and carries its UID and current belief; without transport drops and
    while it can communicate, every such rank gets one, in rank order. *)
Theorem election_goes_to_higher_uids (tick : Z) (n : Node) :
  exists l,
    mpi_sent (start_election tick n) = mpi_sent n ++ l
    /\ Forall (fun dm => uid_ n < fst dm <= num_nodes_ n
                         /\ 1 <= fst dm
                         /\ snd dm = election_message tick n) l
    /\ (Qle_bool (p_drop (cfg_ n)) 0 = true ->
        can_communicate_ n = true ->
        l = to_each (List.filter (fun r => uid_ n <? r) (node_ranks n))
              (election_message tick n)).
Proof.
  unfold start_election.
  set (n0 := set_election_start_tick_ tick (set_election_started_ true n)).
  destruct (start_election_fold_wire tick (election_message tick n)
              (node_ranks n0) n0 false) as (l & Hl & Hall & Hfull).
  change (Message.Mk (MsgType_to_int ELECTION) tick (uid_ n0) (-1)
            (leader_uid_ n0) 0) with (election_message tick n).
  destruct (fold_left _ _ _) as [n1 sent_any]; cbn [fst] in Hl.
  exists l; split.
  - destruct (negb sent_any && _); [rewrite debug_print_mpi_sent|]; exact Hl.
  - split; [|exact Hfull].
    eapply Forall_impl; [exact Hall|].
    intros [d m'] (H1 & H2 & H3); cbn in *.
    unfold node_ranks in H2; apply elem_of_seqZ in H2.
    change (num_nodes_ n0) with (num_nodes_ n) in H2.
    split; [lia|]; split; [lia|exact H3].
Qed.

End Wire.

(** ** Handlers followed by the timeout checks *)

Section TimeoutsExact.
Context `{StdRandom}.

Lemma heartbeat_check_idle (tick : Z) (n : Node) :
  heartbeat_timed_out tick n = false -> check_heartbeat_timeout tick n = n.
Proof. intros Hf; unfold check_heartbeat_timeout; now rewrite Hf. Qed.

Lemma election_check_idle (tick : Z) (n : Node) :
  election_timed_out tick n = false -> check_election_timeout tick n = n.
Proof. intros Hf; unfold check_election_timeout; now rewrite Hf. Qed.

Lemma handle_heartbeat_accepted (m : Message.t) (tick : Z) (n : Node) :
  Message.type m = MsgType_to_int HEARTBEAT ->
  uid_ n <= Message.src_uid m ->
  protocol_state (handle_message m tick n)
  = protocol_state
      (set_waiting_for_coordinator_ false
         (set_election_active_ false
            (set_last_hb_tick_ tick
               (set_leader_uid_ (Message.src_uid m) n)))).
Proof.
  intros Ht Hle; unfold handle_message; rewrite Ht.
  cbn [MsgType_to_int MsgType_of_int].
  destruct (Z.leb_spec (uid_ n) (Message.src_uid m)); [|lia].
  cbn zeta; apply debug_print_protocol.
Qed.

Lemma handle_ok_accepted (m : Message.t) (tick : Z) (n : Node) :
  Message.type m = MsgType_to_int OK ->
  uid_ n < Message.src_uid m ->
  protocol_state (handle_message m tick n)
  = protocol_state
      (set_ok_received_tick_ tick
         (set_waiting_for_coordinator_ true
            (set_election_started_ false (set_election_active_ false n)))).
Proof.
  intros Ht Hlt; unfold handle_message; rewrite Ht.
  cbn [MsgType_to_int MsgType_of_int].
  destruct (Z.ltb_spec (uid_ n) (Message.src_uid m)); [|lia].
  cbn zeta; apply debug_print_protocol.
Qed.

Lemma handle_coordinator_accepted (m : Message.t) (tick : Z) (n : Node) :
  Message.type m = MsgType_to_int COORDINATOR ->
  uid_ n <= Message.src_uid m ->
  protocol_state (handle_message m tick n)
  = protocol_state
      (set_ok_received_tick_ (-1)
         (set_waiting_for_coordinator_ false
            (set_election_started_ false
               (set_election_active_ false
                  (set_last_hb_tick_ tick
                     (set_leader_uid_ (Message.src_uid m) n)))))).
Proof.
  intros Ht Hle; unfold handle_message; rewrite Ht.
  cbn [MsgType_to_int MsgType_of_int].
  destruct (Z.leb_spec (uid_ n) (Message.src_uid m)); [|lia].
  cbn zeta.
  match goal with |- context [debug_print ?t ?s n] =>
    pose proof (debug_print_protocol t s n) as E;
    set (n1 := debug_print t s n) in * end.
  protocol_fields E; unfold protocol_state; cbn; congruence.
Qed.

(** X14.  A follower that accepted a heartbeat at tick [tick] starts an
    election in Phase END of tick [tick'] exactly when [hb_timeout_ticks] or
    more ticks have passed since, provided the sender is not the peer
    itself; until then Phase END leaves its election flags down. *)
Theorem heartbeat_timeout_exact (m : Message.t) (tick tick' : Z) (n : Node) :
  Message.type m = MsgType_to_int HEARTBEAT ->
  uid_ n <= Message.src_uid m ->
  Message.src_uid m <> -1 ->
  0 <= tick ->
  let n1 := handle_message m tick n in
  let n2 := tick_end tick' n1 in
  election_active_ n2
  = negb (uid_ n =? Message.src_uid m)
    && (hb_timeout_ticks (cfg_ n) <=? tick' - tick)
  /\ leader_uid_ n2 = Message.src_uid m
  /\ waiting_for_coordinator_ n2 = false
  /\ mpi_sent n2 = mpi_sent n1.
Proof.
  intros Ht Hle Hsrc Htick; cbn zeta.
  pose proof (handle_heartbeat_accepted m tick n Ht Hle) as E.
  set (n1 := handle_message m tick n) in *.
  protocol_fields E; cbn in *.
  assert (Hguard : heartbeat_timed_out tick' n1
            = negb (uid_ n =? Message.src_uid m)
              && (hb_timeout_ticks (cfg_ n) <=? tick' - tick)).
  { unfold heartbeat_timed_out.
    rewrite Hleader, Huid, Hactive, Hwaiting, Hlast, Hcfg.
    destruct (Z.eqb_spec (Message.src_uid m) (-1)); [contradiction|].
    destruct (Z.leb_spec 0 tick); [|lia].
    cbn; now rewrite !andb_true_r. }
  unfold tick_end.
  destruct (heartbeat_timed_out tick' n1) eqn:Hf.
  - destruct (heartbeat_check_fired tick' n1 Hf) as (Ha & Hs & Hw).
    cbn zeta in Ha, Hs, Hw.
    destruct (timeout_checks_wire tick' n1) as (W & _ & L); cbn zeta in W, L.
    assert (Hc : coordinator_timed_out tick' (check_heartbeat_timeout tick' n1)
                 = false)
      by (unfold coordinator_timed_out; now rewrite Hw).
    rewrite (coordinator_check_idle _ _ Hc) in *.
    rewrite election_check_idle
      by (unfold election_timed_out; now rewrite Ha, Hs).
    rewrite <- Hguard; repeat split; congruence.
  - rewrite heartbeat_check_idle by exact Hf.
    assert (Hc : coordinator_timed_out tick' n1 = false)
      by (unfold coordinator_timed_out; now rewrite Hwaiting).
    rewrite (coordinator_check_idle _ _ Hc).
    rewrite election_check_idle
      by (unfold election_timed_out; now rewrite Hactive).
    rewrite <- Hguard; repeat split; congruence.
Qed.

(** X15.  A peer that yielded to an OK at tick [tick] gives up waiting for
    the COORDINATOR in Phase END of tick [tick'] exactly when more than
    [election_timeout_ticks] ticks have passed since: it then has an active
    election that is not started yet; until then it keeps waiting with no
    election.  It never wins in that Phase END. *)
Theorem coordinator_wait_timeout_exact (m : Message.t) (tick tick' : Z)
    (n : Node) :
  Message.type m = MsgType_to_int OK ->
  uid_ n < Message.src_uid m ->
  let n1 := handle_message m tick n in
  let n2 := tick_end tick' n1 in
  let late := election_timeout_ticks (cfg_ n) <? tick' - tick in
  waiting_for_coordinator_ n2 = negb late
  /\ election_active_ n2 = late
  /\ election_started_ n2 = false
  /\ leader_uid_ n2 = leader_uid_ n
  /\ mpi_sent n2 = mpi_sent n1.
Proof.
  intros Ht Hlt; cbn zeta.
  pose proof (handle_ok_accepted m tick n Ht Hlt) as E.
  set (n1 := handle_message m tick n) in *.
  protocol_fields E; cbn in *.
  destruct (timeout_checks_wire tick' n1) as (W & _ & L); cbn zeta in W, L.
  assert (Hh : heartbeat_timed_out tick' n1 = false).
  { unfold heartbeat_timed_out; rewrite Hwaiting; cbn.
    now rewrite !andb_false_r. }
  unfold tick_end; rewrite (heartbeat_check_idle _ _ Hh) in *.
  assert (Hguard : coordinator_timed_out tick' n1
            = (election_timeout_ticks (cfg_ n) <? tick' - tick))
    by (unfold coordinator_timed_out; now rewrite Hwaiting, Hokt, Hcfg).
  rewrite <- Hguard.
  destruct (coordinator_timed_out tick' n1) eqn:Hf.
  - destruct (coordinator_check_fired tick' n1 Hf) as (Ha & Hs).
    cbn zeta in Ha, Hs.
    rewrite election_check_idle
      by (unfold election_timed_out; now rewrite Ha, Hs).
    cbn [negb]; repeat split; try congruence.
    unfold check_coordinator_timeout; rewrite Hf.
    match goal with |- context [debug_print ?t ?s ?x] =>
      destruct (debug_print_flags t s x) as (_ & _ & ->) end.
    reflexivity.
  - rewrite (coordinator_check_idle _ _ Hf) in *.
    rewrite election_check_idle
      by (unfold election_timed_out; now rewrite Hactive).
    cbn [negb]; repeat split; congruence.
Qed.

(** X16.  Accepting a leader is idempotent on the protocol variables: a
    second HEARTBEAT, or a second COORDINATOR, from the same accepted
    sender at the same tick changes none of them. *)
Theorem accepting_a_leader_is_idempotent (m : Message.t) (tick : Z)
    (n : Node) :
  Message.type m = MsgType_to_int HEARTBEAT
  \/ Message.type m = MsgType_to_int COORDINATOR ->
  uid_ n <= Message.src_uid m ->
  protocol_state (handle_message m tick (handle_message m tick n))
  = protocol_state (handle_message m tick n).
Proof.
  intros [Ht|Ht] Hle.
  - pose proof (handle_heartbeat_accepted m tick n Ht Hle) as E.
    set (n1 := handle_message m tick n) in *.
    assert (Hle1 : uid_ n1 <= Message.src_uid m)
      by (unfold protocol_state in E; cbn in E; injection E; intros; lia).
    rewrite (handle_heartbeat_accepted m tick n1 Ht Hle1).
    protocol_fields E; unfold protocol_state; cbn in *; congruence.
  - pose proof (handle_coordinator_accepted m tick n Ht Hle) as E.
    set (n1 := handle_message m tick n) in *.
    assert (Hle1 : uid_ n1 <= Message.src_uid m)
      by (unfold protocol_state in E; cbn in E; injection E; intros; lia).
    rewrite (handle_coordinator_accepted m tick n1 Ht Hle1).
    protocol_fields E; unfold protocol_state; cbn in *; congruence.
Qed.

End TimeoutsExact.

(** ** Background traffic *)

Section BackgroundTraffic.
Context `{StdRandom}.

(** X17.  A PING is answered with one ACK to its sender that carries the
    ping's [aux] value, unless the drop trial succeeds or the peer cannot
    communicate; it changes no protocol variable. *)
Theorem ping_answered_with_ack (m : Message.t) (tick : Z) (n : Node) :
  Message.type m = MsgType_to_int PING ->
  mpi_sent (handle_message m tick n)
  = mpi_sent n
    ++ (if bernoulli_drop n || negb (can_communicate_ n) then []
        else [(Message.src_uid m,
               Message.Mk (MsgType_to_int ACK) tick (uid_ n)
                 (Message.src_uid m) (leader_uid_ n) (Message.aux m))])
  /\ protocol_state (handle_message m tick n) = protocol_state n.
Proof.
  intros Ht; unfold handle_message; rewrite Ht.
  cbn [MsgType_to_int MsgType_of_int Message.dst_uid].
  destruct (should_drop_outgoing_frame n) as (_ & Hs & Hc & _).
  cbn zeta in Hs, Hc.
  pose proof (should_drop_outgoing_protocol n) as Hp.
  rewrite (surjective_pairing (should_drop_outgoing n)).
  replace (fst (should_drop_outgoing n)) with (bernoulli_drop n)
    by now rewrite should_drop_outgoing_spec.
  cbn zeta.
  split.
  - destruct (negb (bernoulli_drop n));
      now rewrite debug_print_mpi_sent, send_message_mpi_sent, Hs, Hc.
  - destruct (negb (bernoulli_drop n));
      now rewrite debug_print_protocol, send_message_protocol.
Qed.

Lemma random_peer_rank_loop_spec (fuel : nat) (r : Z) (n : Node)
    (r' : Z) (n' : Node) :
  random_peer_rank_loop fuel r n = Some (r', n') ->
  r' <> rank_ n /\ mpi_sent n' = mpi_sent n.
Proof.
  revert r n; induction fuel as [|fuel IH]; intros r n; cbn.
  - destruct (Z.eqb_spec r (rank_ n)); [discriminate|].
    now intros [= <- <-].
  - destruct (Z.eqb_spec r (rank_ n)); [|now intros [= <- <-]].
    destruct (uniform_int _ _ _) as [r1 g]; intros Hl.
    exact (IH _ _ Hl).
Qed.

(** X18.  Background traffic never addresses the peer itself: a round of
    [maybe_send_random_ping] that returns has put at most one message on
    the wire, a PING from this peer to another rank. *)
Theorem background_ping_wire (fuel : nat) (tick : Z) (n n' : Node) :
  maybe_send_random_ping fuel tick n = Some n' ->
  exists l,
    mpi_sent n' = mpi_sent n ++ l
    /\ (length l <= 1)%nat
    /\ Forall (fun dm => fst dm <> rank_ n
                         /\ Message.type (snd dm) = MsgType_to_int PING
                         /\ Message.src_uid (snd dm) = uid_ n
                         /\ Message.dst_uid (snd dm) = fst dm
                         /\ Message.tick (snd dm) = tick) l.
Proof.
  unfold maybe_send_random_ping.
  destruct (Qle_bool (p_send (cfg_ n)) 0).
  { intros [= <-]; exists []; rewrite app_nil_r; repeat split; auto. }
  destruct (uniform_real (rng_ n)) as [u g].
  set (n0 := set_rng_ g n).
  destruct (Qle_bool (p_send (cfg_ n0)) u).
  { intros [= <-]; exists []; rewrite app_nil_r; repeat split; auto. }
  unfold random_peer_rank.
  destruct (random_peer_rank_loop _ _ _) as [[d n1]|] eqn:Hr; [|discriminate].
  pose proof (random_peer_rank_loop_protocol _ _ _ _ _ Hr) as Ep.
  apply random_peer_rank_loop_spec in Hr; destruct Hr as [Hd Hw1].
  change (rank_ n0) with (rank_ n) in Hd.
  change (mpi_sent n0) with (mpi_sent n) in Hw1.
  set (n2 := set_next_msg_id _ n1).
  destruct (should_drop_outgoing_frame n2) as (_ & Hs & Hc & _ & Hu & _).
  cbn zeta in Hs, Hc, Hu.
  rewrite (surjective_pairing (should_drop_outgoing n2)).
  set (m := Message.Mk _ _ _ _ _ _).
  assert (Hu1 : uid_ n1 = uid_ n) by (protocol_fields Ep; assumption).
  intros Hn'.
  exists (if fst (should_drop_outgoing n2) || negb (can_communicate_ n2)
          then [] else [(d, m)]).
  split; [|split].
  - destruct (negb (fst (should_drop_outgoing n2))); injection Hn' as <-;
      rewrite debug_print_mpi_sent; cbn [mpi_sent set_pings_sent];
      rewrite ?send_message_mpi_sent, ?Hs, ?Hc; cbn; now rewrite ?Hw1.
  - destruct (_ || _); cbn; lia.
  - destruct (_ || _); constructor; [|constructor].
    unfold m; cbn; auto.
Qed.

Lemma lone_peer_loop_diverges (fuel : nat) (n : Node) :
  (forall g, fst (uniform_int 1 1 g) = 1) ->
  rank_ n = 1 -> num_nodes_ n = 1 ->
  random_peer_rank_loop fuel 1 n = None.
Proof.
  intros Hone; revert n; induction fuel as [|fuel IH]; intros n Hr Hn; cbn.
  - now rewrite Hr.
  - rewrite Hr, Hn; cbn.
    pose proof (Hone (rng_ n)) as H1.
    destruct (uniform_int 1 1 (rng_ n)) as [r g]; cbn in H1; subst r.
    now apply IH.
Qed.

(** X19.  In a world of one peer the search for a ping destination cannot
    succeed: whenever the traffic draw asks for a ping, the loop of
    [random_peer_rank] redraws for ever, whatever the fuel. *)
Theorem lone_peer_ping_never_returns (fuel : nat) (tick : Z) (n : Node) :
  (forall g, fst (uniform_int 1 1 g) = 1) ->
  rank_ n = 1 -> num_nodes_ n = 1 ->
  Qle_bool (p_send (cfg_ n)) 0 = false ->
  Qle_bool (p_send (cfg_ n)) (fst (uniform_real (rng_ n))) = false ->
  maybe_send_random_ping fuel tick n = None.
Proof.
  intros Hone Hr Hn Hp Hu; unfold maybe_send_random_ping; rewrite Hp.
  destruct (uniform_real (rng_ n)) as [u g]; cbn [fst] in Hu.
  cbn zeta; change (cfg_ (set_rng_ g n)) with (cfg_ n); rewrite Hu.
  unfold random_peer_rank; change (rank_ (set_rng_ g n)) with (rank_ n).
  rewrite Hr, lone_peer_loop_diverges; auto.
Qed.

(** X20.  Phase SEND starts every pending election: on return an active
    election is a started one, and one that was pending is stamped with
    this tick; apart from that the protocol variables are unchanged. *)
Theorem tick_send_starts_pending_election (fuel : nat) (tick : Z)
    (n n' : Node) :
  tick_send fuel tick n = Some n' ->
  (election_active_ n' = true -> election_started_ n' = true)
  /\ (election_active_ n = true -> election_started_ n = false ->
      election_start_tick_ n' = tick)
  /\ election_active_ n' = election_active_ n
  /\ waiting_for_coordinator_ n' = waiting_for_coordinator_ n
  /\ leader_uid_ n' = leader_uid_ n
  /\ last_hb_tick_ n' = last_hb_tick_ n.
Proof.
  intros Hs; apply tick_send_protocol in Hs.
  destruct (election_active_ n) eqn:Ha, (election_started_ n) eqn:Hst;
    cbn [andb negb] in Hs; protocol_fields Hs; cbn in *;
    repeat split; intros; congruence.
Qed.

End BackgroundTraffic.

(** ** Helpers of the controller *)

Section Controller.

Lemma MsgType_of_int_to_int (t : MsgType) :
  MsgType_of_int (MsgType_to_int t) = Some t.
Proof. now destruct t. Qed.

Lemma MsgType_of_int_Some (i : Z) (t : MsgType) :
  MsgType_of_int i = Some t -> i = MsgType_to_int t.
Proof.
  destruct i as [|p|p]; try discriminate.
  destruct p as [[[?|?|]|[?|?|]|]|[[?|?|]|[?|?|]|]|]; cbn;
    try discriminate; intros [= <-]; reflexivity.
Qed.

Lemma MsgType_of_int_range (i : Z) :
  MsgType_of_int i = None <-> ~ (1 <= i <= 7).
Proof.
  split.
  - intros Hn Hr.
    assert (Hi : i = 1 \/ i = 2 \/ i = 3 \/ i = 4 \/ i = 5 \/ i = 6
                 \/ i = 7) by lia.
    repeat (destruct Hi as [-> | Hi]; [discriminate Hn|]).
    subst i; discriminate Hn.
  - intros Hr; destruct (MsgType_of_int i) as [t|] eqn:E; [|reflexivity].
    apply MsgType_of_int_Some in E; subst i; destruct t; cbn in Hr; lia.
Qed.

(** X21.  [msg_type_to_string] names the seven message types apart and
    answers "UNKNOWN" exactly for the integers outside 1..7; the conversion
    between a type and its integer round-trips. *)
Theorem msg_type_to_string_names (i j : Z) :
  (msg_type_to_string i = "UNKNOWN" <-> ~ (1 <= i <= 7))
  /\ (msg_type_to_string i = msg_type_to_string j ->
      i = j \/ (~ (1 <= i <= 7) /\ ~ (1 <= j <= 7)))
  /\ (forall t, MsgType_of_int (MsgType_to_int t) = Some t
                /\ msg_type_to_string (MsgType_to_int t) <> "UNKNOWN").
Proof.
  assert (Hunk : forall k, msg_type_to_string k = "UNKNOWN"
                           <-> ~ (1 <= k <= 7)).
  { intros k; rewrite <- MsgType_of_int_range; unfold msg_type_to_string.
    destruct (MsgType_of_int k) as [[]|]; split; intros; try discriminate;
      reflexivity. }
  split; [apply Hunk|split].
  - intros E; unfold msg_type_to_string in E.
    destruct (MsgType_of_int i) as [ti|] eqn:Ei,
             (MsgType_of_int j) as [tj|] eqn:Ej.
    + left; apply MsgType_of_int_Some in Ei, Ej; subst.
      destruct ti, tj; try discriminate E; reflexivity.
    + destruct ti; discriminate E.
    + destruct tj; discriminate E.
    + right; split; now apply MsgType_of_int_range.
  - intros t; split; [apply MsgType_of_int_to_int|].
    rewrite Hunk; destruct t; cbn; lia.
Qed.

Lemma int_wrap_in_range (x : Z) : INT_MIN <= x <= INT_MAX -> int_wrap x = x.
Proof.
  unfold INT_MIN, INT_MAX, int_wrap; intros Hx.
  rewrite Z.mod_small; lia.
Qed.

Lemma sum_counts_cons (c : Z) (l : list Z) :
  sum_counts (c :: l) = c + sum_counts l.
Proof. reflexivity. Qed.

Lemma sum_counts_nonneg (l : list Z) :
  Forall (fun c => 0 <= c) l -> 0 <= sum_counts l.
Proof.
  induction 1 as [|c l Hc _ IH]; [cbn; lia|rewrite sum_counts_cons; lia].
Qed.

Lemma gather_layout_loop_spec (counts : list Z) :
  forall total : Z,
  0 <= total ->
  Forall (fun c => 0 <= c) counts ->
  (total + sum_counts counts) * sizeof_MessageEvent <= INT_MAX ->
  let '(displs, byte_counts, final) := gather_layout_loop counts total in
  length displs = length counts
  /\ byte_counts = map (fun c => c * sizeof_MessageEvent) counts
  /\ final = total + sum_counts counts
  /\ forall i : nat, (i < length counts)%nat ->
       displs !! i
       = Some ((total + sum_counts (take i counts)) * sizeof_MessageEvent).
Proof.
  induction counts as [|c counts IH]; intros total Ht Hpos Hfit.
  - cbn; split; [reflexivity|]; split; [reflexivity|].
    split; [lia|intros i Hi; lia].
  - cbn [gather_layout_loop].
    apply Forall_cons in Hpos as [Hc Hpos].
    pose proof (sum_counts_nonneg counts Hpos) as Hrest.
    rewrite sum_counts_cons in Hfit.
    unfold sizeof_MessageEvent, INT_MAX in Hfit.
    rewrite !int_wrap_in_range
      by (unfold sizeof_MessageEvent, INT_MIN, INT_MAX; lia).
    specialize (IH (total + c) ltac:(lia) Hpos
                  ltac:(unfold sizeof_MessageEvent, INT_MAX; lia)).
    destruct (gather_layout_loop counts (total + c)) as [[displs bcs] final].
    destruct IH as (Hlen & Hbcs & Hfin & Hd).
    split; [cbn [length]; lia|].
    split; [cbn [map]; now rewrite Hbcs|].
    split; [rewrite sum_counts_cons; lia|].
    intros [|i] Hi.
    + cbn; do 2 f_equal; lia.
    + cbn [length] in Hi; cbn [lookup list_lookup take].
      change ((total * sizeof_MessageEvent :: displs) !! S i)
        with (displs !! i).
      rewrite Hd by lia; rewrite sum_counts_cons; do 2 f_equal; lia.
Qed.

(** X22.  The layout the controller computes for the gathered events, when
    no count is negative and the byte size of all events together fits an
    [int]: the byte count of rank [i] is its event count times the event
    size, its displacement is the byte size of everything the lower ranks
    contribute (so the blocks are laid end to end in rank order), and the
    total is the sum of the counts. *)
Theorem gather_layout_prefix_sums (msg_counts_raw : list Z) :
  Forall (fun c => 0 <= c) msg_counts_raw ->
  sum_counts msg_counts_raw * sizeof_MessageEvent <= INT_MAX ->
  let '(displs, byte_counts, total_msgs) := gather_layout msg_counts_raw in
  length displs = length msg_counts_raw
  /\ byte_counts = map (fun c => c * sizeof_MessageEvent) msg_counts_raw
  /\ total_msgs = sum_counts msg_counts_raw
  /\ forall (i : nat) (c : Z), msg_counts_raw !! i = Some c ->
       displs !! i
       = Some (sum_counts (take i msg_counts_raw) * sizeof_MessageEvent)
       /\ byte_counts !! i = Some (c * sizeof_MessageEvent)
       /\ sum_counts (take (S i) msg_counts_raw) * sizeof_MessageEvent
          = sum_counts (take i msg_counts_raw) * sizeof_MessageEvent
            + c * sizeof_MessageEvent.
Proof.
  intros Hpos Hfit; unfold gather_layout.
  pose proof (gather_layout_loop_spec msg_counts_raw 0 ltac:(lia) Hpos
                ltac:(now rewrite Z.add_0_l)) as Hspec.
  destruct (gather_layout_loop msg_counts_raw 0) as [[displs bcs] total].
  destruct Hspec as (Hlen & Hbcs & Htot & Hd).
  split; [exact Hlen|]; split; [exact Hbcs|]; split; [lia|].
  intros i c Hc; split; [|split].
  - rewrite Hd by (eapply lookup_lt_Some; exact Hc).
    do 2 f_equal; lia.
  - rewrite Hbcs, list_lookup_fmap; now rewrite Hc.
  - rewrite (take_S_r _ _ c) by exact Hc.
    unfold sum_counts; rewrite foldr_app; cbn.
    assert (Hacc : forall l a, foldr Z.add a l = foldr Z.add 0 l + a).
    { induction l as [|x l IHl]; intros a; cbn; [lia|].
      rewrite IHl; lia. }
    rewrite Hacc; lia.
Qed.

(** Past the range of an [int] the layout is no longer the prefix sums:
    [2^26 - 1] events from rank 1 are still laid out, [2^26] events make
    their byte count and the next displacement wrap around. *)
Lemma gather_layout_beyond_int :
  gather_layout [0; 67108863; 1] = ([0; 0; 2147483616], [0; 2147483616; 32],
                                    67108864)
  /\ gather_layout [0; 67108864; 1] = ([0; 0; INT_MIN], [0; INT_MIN; 32],
                                       67108865).
Proof. split; vm_compute; reflexivity. Qed.

Lemma parse_string_from_absent (args : list string) (key def : string) :
  ~ In key (removelast args) -> parse_string_from args key def = def.
Proof.
  induction args as [|a rest IH]; [reflexivity|].
  destruct rest as [|v rest']; [reflexivity|].
  intros Hn; cbn [parse_string_from].
  change (removelast (a :: v :: rest')) with (a :: removelast (v :: rest'))
    in Hn.
  destruct (String.eqb_spec key a) as [->|_]; [exfalso; apply Hn; now left|].
  apply IH; intros Hin; apply Hn; now right.
Qed.

Lemma parse_string_from_found (pre post : list string) (key v def : string) :
  ~ In key pre -> parse_string_from (pre ++ key :: v :: post) key def = v.
Proof.
  induction pre as [|a pre IH]; intros Hn.
  - cbn; now rewrite String.eqb_refl.
  - cbn [app parse_string_from].
    destruct (pre ++ key :: v :: post) as [|v' rest] eqn:E.
    { destruct pre; discriminate E. }
    destruct (String.eqb_spec key a) as [->|_]; [exfalso; apply Hn; now left|].
    apply IH; intros Hin; apply Hn; now right.
Qed.

(** X23.  [parse_string] returns the argument that follows the first
    occurrence of the key after the program name, and the default when the
    key does not occur before the last argument: a key in last position has
    no value and is ignored. *)
Theorem parse_string_first_occurrence (key def : string) :
  (forall prog pre v post,
     ~ In key pre ->
     parse_string (prog :: pre ++ key :: v :: post) key def = v)
  /\ (forall argv,
        ~ In key (removelast (tail argv)) -> parse_string argv key def = def)
  /\ (forall prog pre, ~ In key pre ->
        parse_string (prog :: pre ++ [key]) key def = def).
Proof.
  split; [|split].
  - intros prog pre v post Hn; unfold parse_string; cbn [tail].
    now apply parse_string_from_found.
  - intros argv Hn; unfold parse_string.
    now apply parse_string_from_absent.
  - intros prog pre Hn; unfold parse_string; cbn [tail].
    apply parse_string_from_absent.
    now rewrite removelast_last.
Qed.

End Controller.

(** * The further properties on examples *)

Lemma CounterRandom_draws_nonnegative :
  forall g : @mt19937_64 CounterRandom,
    (0 <= fst (@uniform_real CounterRandom g))%Q.
Proof.
  intros g; cbn.
  apply Qmult_le_0_compat; [|discriminate].
  change 0%Q with (inject_Z 0); rewrite <- Zle_Qle.
  apply Z.mod_pos_bound; lia.
Qed.

Lemma constructed_reachable :
  reachable (constructed 2 3 quiet_cfg).
Proof.
  apply (reachable_new 2 4 3 quiet_cfg); vm_compute; reflexivity.
Qed.

Lemma network_outage_countdown_witness :
  Z.of_nat 3 <= NetworkFailure.offline_remaining_ (offline_for 3)
  /\ exists f',
       network_ticks 3 7 (offline_for 3) = Some f'
       /\ NetworkFailure.can_communicate f' = true.
Proof.
  assert (Hj : Z.of_nat 3 <= NetworkFailure.offline_remaining_ (offline_for 3))
    by (vm_compute; discriminate).
  split; [exact Hj|].
  destruct (network_outage_countdown 3 7 (offline_for 3) Hj)
    as (f' & Ht & _ & _ & Hcan).
  exists f'; split; [exact Ht|].
  apply (proj2 Hcan); reflexivity.
Defined.

Lemma failure_counter_nonnegative_witness :
  failure_wf (Failure.Network (offline_for 2))
  /\ advance_failure 7 (Failure.Network (offline_for 2)) blank_node
     = Some (Failure.Network (offline_for 1))
  /\ failure_wf (Failure.Network (offline_for 1)).
Proof.
  assert (Hwf : failure_wf (Failure.Network (offline_for 2))).
  { split; [vm_compute; discriminate|].
    repeat constructor; vm_compute; discriminate. }
  assert (Ha : advance_failure 7 (Failure.Network (offline_for 2)) blank_node
               = Some (Failure.Network (offline_for 1)))
    by reflexivity.
  split; [exact Hwf|]; split; [exact Ha|].
  exact (proj1 (failure_counter_nonnegative 7 _ _ blank_node Hwf Ha)).
Defined.

Lemma network_never_fails_without_p_fail_witness :
  (p_fail (NetworkFailure.cfg_ safe_network) == 0)%Q
  /\ NetworkFailure.offline_remaining_ safe_network = 0
  /\ exists f',
       advance_failure 7 (Failure.Network safe_network) blank_node
       = Some (Failure.Network f')
       /\ NetworkFailure.can_communicate f' = true.
Proof.
  split; [reflexivity|]; split; [reflexivity|].
  destruct (network_never_fails_without_p_fail 7 safe_network blank_node
              CounterRandom_draws_nonnegative ltac:(reflexivity) eq_refl)
    as (f' & Ha & _ & _ & Hcan).
  exists f'; split; [exact Ha|exact Hcan].
Defined.

Lemma worker_engines_share_seed_witness :
  seed quiet_cfg = 1
  /\ worker_start 2 4 quiet_cfg FailureType.Network 1
       NetworkFailureConfig_default = inr networked_worker
  /\ rng_ (node networked_worker)
     = mt19937_64_seed (mix_seed 1 (uint64 2)).
Proof.
  assert (Hw : worker_start 2 4 quiet_cfg FailureType.Network 1
                 NetworkFailureConfig_default = inr networked_worker)
    by (vm_compute; reflexivity).
  split; [reflexivity|]; split; [exact Hw|].
  exact (proj1 (worker_engines_share_seed 2 4 quiet_cfg
                  FailureType.Network 1 NetworkFailureConfig_default
                  networked_worker eq_refl Hw)).
Defined.

Lemma offline_peer_is_silent_witness :
  can_communicate_ offline_peer = false
  /\ mpi_sent (fst (tick_recv 6 [election_from_1] offline_peer))
     = mpi_sent offline_peer
  /\ mpi_sent (tick_end 6 offline_peer) = mpi_sent offline_peer.
Proof.
  split; [reflexivity|].
  pose proof (offline_peer_is_silent 0 6 [election_from_1] offline_peer
                eq_refl) as (_ & (Hr & _) & He).
  split; [exact Hr|exact He].
Defined.

Lemma leader_belief_never_below_self_witness :
  reachable (constructed 2 3 quiet_cfg)
  /\ uid_ (constructed 2 3 quiet_cfg) <= num_nodes_ (constructed 2 3 quiet_cfg)
  /\ uid_ (constructed 2 3 quiet_cfg)
     <= leader_uid_ (constructed 2 3 quiet_cfg).
Proof.
  assert (Hu : uid_ (constructed 2 3 quiet_cfg)
               <= num_nodes_ (constructed 2 3 quiet_cfg))
    by (vm_compute; discriminate).
  split; [exact constructed_reachable|]; split; [exact Hu|].
  exact (proj1 (leader_belief_never_below_self _ constructed_reachable Hu)).
Defined.

Lemma heartbeat_timeout_exact_witness :
  (Message.type heartbeat_from_3 = MsgType_to_int HEARTBEAT
   /\ uid_ (constructed 2 3 quiet_cfg) <= Message.src_uid heartbeat_from_3
   /\ Message.src_uid heartbeat_from_3 <> -1
   /\ 0 <= 0)
  /\ election_active_
       (tick_end 3 (handle_message heartbeat_from_3 0
                      (constructed 2 3 quiet_cfg))) = true.
Proof.
  assert (Hle : uid_ (constructed 2 3 quiet_cfg)
                <= Message.src_uid heartbeat_from_3)
    by (vm_compute; discriminate).
  split; [repeat split; [exact Hle|discriminate|lia]|].
  exact (proj1 (heartbeat_timeout_exact heartbeat_from_3 0 3
                  (constructed 2 3 quiet_cfg) eq_refl Hle
                  ltac:(discriminate) ltac:(lia))).
Defined.

Lemma coordinator_wait_timeout_exact_witness :
  (Message.type ok_from_3 = MsgType_to_int OK
   /\ uid_ (constructed 2 3 quiet_cfg) < Message.src_uid ok_from_3)
  /\ election_active_
       (tick_end 9 (handle_message ok_from_3 5 (constructed 2 3 quiet_cfg)))
     = true.
Proof.
  assert (Hlt : uid_ (constructed 2 3 quiet_cfg) < Message.src_uid ok_from_3)
    by (vm_compute; reflexivity).
  split; [split; [reflexivity|exact Hlt]|].
  exact (proj1 (proj2 (coordinator_wait_timeout_exact ok_from_3 5 9
                         (constructed 2 3 quiet_cfg) eq_refl Hlt))).
Defined.

Lemma accepting_a_leader_is_idempotent_witness :
  (Message.type coordinator_from_3 = MsgType_to_int COORDINATOR
   /\ uid_ (constructed 2 3 quiet_cfg) <= Message.src_uid coordinator_from_3)
  /\ protocol_state
       (handle_message coordinator_from_3 7
          (handle_message coordinator_from_3 7 (constructed 2 3 quiet_cfg)))
     = protocol_state
         (handle_message coordinator_from_3 7 (constructed 2 3 quiet_cfg)).
Proof.
  assert (Hle : uid_ (constructed 2 3 quiet_cfg)
                <= Message.src_uid coordinator_from_3)
    by (vm_compute; discriminate).
  split; [split; [reflexivity|exact Hle]|].
  exact (accepting_a_leader_is_idempotent coordinator_from_3 7
           (constructed 2 3 quiet_cfg) (or_intror eq_refl) Hle).
Defined.

Lemma ping_answered_with_ack_witness :
  Message.type ping_from_1 = MsgType_to_int PING
  /\ mpi_sent (handle_message ping_from_1 0 (constructed 2 3 quiet_cfg))
     = [(1, Message.Mk (MsgType_to_int ACK) 0 2 1 3 7)].
Proof.
  split; [reflexivity|].
  exact (proj1 (ping_answered_with_ack ping_from_1 0
                  (constructed 2 3 quiet_cfg) eq_refl)).
Defined.

Lemma background_ping_wire_witness :
  maybe_send_random_ping 5 0 (constructed 2 3 chatty_cfg) = Some pinged_once
  /\ exists l,
       mpi_sent pinged_once = mpi_sent (constructed 2 3 chatty_cfg) ++ l
       /\ (length l <= 1)%nat.
Proof.
  assert (Hp : maybe_send_random_ping 5 0 (constructed 2 3 chatty_cfg)
               = Some pinged_once)
    by (vm_compute; reflexivity).
  split; [exact Hp|].
  destruct (background_ping_wire 5 0 _ _ Hp) as (l & Hl & Hlen & _).
  exists l; split; [exact Hl|exact Hlen].
Defined.

Lemma lone_peer_ping_never_returns_witness :
  (rank_ lone_peer = 1 /\ num_nodes_ lone_peer = 1
   /\ Qle_bool (p_send (cfg_ lone_peer)) 0 = false
   /\ Qle_bool (p_send (cfg_ lone_peer))
        (fst (uniform_real (rng_ lone_peer))) = false)
  /\ maybe_send_random_ping 1000 0 lone_peer = None.
Proof.
  assert (Hu : Qle_bool (p_send (cfg_ lone_peer))
                 (fst (uniform_real (rng_ lone_peer))) = false)
    by (vm_compute; reflexivity).
  assert (Hone : forall g : @mt19937_64 CounterRandom,
                   fst (@uniform_int CounterRandom 1 1 g) = 1)
    by (intros g; cbn; now rewrite Z.mod_1_r).
  split; [repeat split; try reflexivity; exact Hu|].
  exact (lone_peer_ping_never_returns 1000 0 lone_peer Hone eq_refl eq_refl
           eq_refl Hu).
Defined.

Lemma tick_send_starts_pending_election_witness :
  tick_send 0 5 challenged_top = Some (after_send 5 challenged_top)
  /\ election_started_ (after_send 5 challenged_top) = true
  /\ election_start_tick_ (after_send 5 challenged_top) = 5.
Proof.
  assert (Hs : tick_send 0 5 challenged_top = Some (after_send 5 challenged_top))
    by (vm_compute; reflexivity).
  split; [exact Hs|].
  pose proof (tick_send_starts_pending_election 0 5 _ _ Hs)
    as (Hst & Htick & _).
  split; [apply Hst; vm_compute; reflexivity|].
  apply Htick; vm_compute; reflexivity.
Defined.

Lemma tick_end_wire_witness :
  mpi_sent (tick_end 9 (after_send 5 challenged_top))
  = mpi_sent (after_send 5 challenged_top)
    ++ to_each [1; 2] (coordinator_message 9 (after_send 5 challenged_top))
  /\ leader_uid_ (tick_end 9 (after_send 5 challenged_top)) = 3.
Proof.
  pose proof (tick_end_wire 9 (after_send 5 challenged_top)) as (Hw & Hl & _).
  split; [exact Hw|exact Hl].
Defined.

Lemma election_goes_to_higher_uids_witness :
  exists l,
    mpi_sent (start_election 4 (constructed 2 3 quiet_cfg))
    = mpi_sent (constructed 2 3 quiet_cfg) ++ l
    /\ l = [(3, election_message 4 (constructed 2 3 quiet_cfg))].
Proof.
  destruct (election_goes_to_higher_uids 4 (constructed 2 3 quiet_cfg))
    as (l & Hl & _ & Hfull).
  exists l; split; [exact Hl|].
  exact (Hfull eq_refl eq_refl).
Defined.

Lemma parse_string_first_occurrence_witness :
  parse_string ["sim"; "-v"; "-config"; "run.json"; "-config"; "other.json"]
    "-config" "config.json" = "run.json"
  /\ parse_string ["sim"; "-v"; "-config"] "-config" "config.json"
     = "config.json".
Proof.
  pose proof (parse_string_first_occurrence "-config" "config.json")
    as (Hfound & _ & Hlast).
  split.
  - apply (Hfound "sim" ["-v"] "run.json" ["-config"; "other.json"]).
    intros [E|[]]; discriminate E.
  - apply (Hlast "sim" ["-v"]).
    intros [E|[]]; discriminate E.
Defined.

Lemma gather_layout_prefix_sums_witness :
  Forall (fun c => 0 <= c) [0; 3; 32; 1]
  /\ sum_counts [0; 3; 32; 1] * sizeof_MessageEvent <= INT_MAX
  /\ let '(displs, byte_counts, total_msgs) := gather_layout [0; 3; 32; 1] in
     total_msgs = 36
     /\ displs !! 2%nat = Some 96
     /\ byte_counts !! 2%nat = Some 1024.
Proof.
  assert (Hpos : Forall (fun c => 0 <= c) [0; 3; 32; 1])
    by (repeat constructor; lia).
  assert (Hfit : sum_counts [0; 3; 32; 1] * sizeof_MessageEvent <= INT_MAX)
    by (vm_compute; discriminate).
  split; [exact Hpos|]; split; [exact Hfit|].
  pose proof (gather_layout_prefix_sums [0; 3; 32; 1] Hpos Hfit) as Hlay.
  destruct (gather_layout [0; 3; 32; 1]) as [[displs byte_counts] total_msgs].
  destruct Hlay as (_ & _ & Htot & Hat).
  destruct (Hat 2%nat 32 eq_refl) as (Hd & Hb & _).
  split; [exact Htot|]; split; [exact Hd|exact Hb].
Defined.
